(** * anon-kode: the streaming chat-completion translator

    A shallow embedding of [src/services/ollama-stream.js],
    [src/services/ollama-client.js] and [src/services/openai.ts], and the
    properties of the specification checked against it.

    Conventions of the model.
    - A JavaScript string is a [string]: a sequence of code units, here
      restricted to the code units U+0000..U+00FF, for which [trim],
      [toLowerCase], the regular-expression class [\s] and case-insensitive
      matching are written out exactly.
    - The byte stream handed to a stream processor is given as the list of
      the text pieces that [TextDecoder.decode(value, {stream: true})]
      returns, one per [reader.read()].
    - The services of the JavaScript runtime that the code calls
      ([JSON.parse], [JSON.stringify], [child_process.execSync]) are the
      fields of a [JsRuntime]; every general theorem holds for every runtime.
      [nodeRuntime] is a concrete one, used to run the code on examples.
    - The clock-derived fields [id] and [created] of a chunk are not
      modelled. *)

From Stdlib Require Import String Ascii List Bool Arith NArith Lia.
Import ListNotations.
Open Scope list_scope.
Open Scope string_scope.
Open Scope nat_scope.

(** ** JavaScript strings *)

Module JsString.

Definition code (c : ascii) : nat := nat_of_ascii c.

(** The double quote, written by its code. *)
Definition DQ : string := String (ascii_of_nat 34) EmptyString.
(** Line feed, the ['\n'] of the source. *)
Definition LF : ascii := ascii_of_nat 10.
Definition NL : string := String LF EmptyString.

(** [WhiteSpace] and [LineTerminator] of ECMAScript below U+0100:
    TAB, LF, VT, FF, CR, SP and NBSP.  It is the set [\s] matches and the
    set [trim] strips. *)
Definition isWhiteSpace (c : ascii) : bool :=
  let n := code c in
  ((9 <=? n) && (n <=? 13)) || (n =? 32) || (n =? 160).

(** [LineTerminator]: the characters [.] does not match. *)
Definition isLineTerminator (c : ascii) : bool :=
  let n := code c in (n =? 10) || (n =? 13).

(** [String.prototype.toLowerCase], one code unit at a time: A-Z and the
    Latin-1 capitals U+00C0..U+00DE (but the multiplication sign). *)
Definition lowerChar (c : ascii) : ascii :=
  let n := code c in
  if ((65 <=? n) && (n <=? 90))
     || ((192 <=? n) && (n <=? 222) && negb (n =? 215))
  then ascii_of_nat (n + 32) else c.

(** [Canonicalize] of a case-insensitive regular expression (it goes
    through [toUpperCase]): a-z and the Latin-1 small letters
    U+00E0..U+00FE (but the division sign).  U+00B5, U+00DF and U+00FF
    have no upper case inside the alphabet and stay. *)
Definition upperChar (c : ascii) : ascii :=
  let n := code c in
  if ((97 <=? n) && (n <=? 122))
     || ((224 <=? n) && (n <=? 254) && negb (n =? 247))
  then ascii_of_nat (n - 32) else c.

Fixpoint toLowerCase (s : string) : string :=
  match s with
  | EmptyString => EmptyString
  | String c s' => String (lowerChar c) (toLowerCase s')
  end.

(** [s.substring(0, n)] and [s.substring(n)] for [n >= 0]; both clamp. *)
Fixpoint take (n : nat) (s : string) : string :=
  match n, s with
  | S n', String c s' => String c (take n' s')
  | _, _ => EmptyString
  end.

Fixpoint drop (n : nat) (s : string) : string :=
  match n, s with
  | S n', String _ s' => drop n' s'
  | _, _ => s
  end.

Fixpoint startsWith (p s : string) : bool :=
  match p, s with
  | EmptyString, _ => true
  | String a p', String b s' => Ascii.eqb a b && startsWith p' s'
  | String _ _, EmptyString => false
  end.

(** [s.includes(p)]. *)
Fixpoint includes (p s : string) : bool :=
  startsWith p s ||
  match s with
  | EmptyString => false
  | String _ s' => includes p s'
  end.

(** [s.indexOf(p)]: [None] stands for -1. *)
Fixpoint indexOf (p s : string) : option nat :=
  if startsWith p s then Some 0
  else match s with
       | EmptyString => None
       | String _ s' =>
           match indexOf p s' with
           | Some i => Some (S i)
           | None => None
           end
       end.

(** [s.indexOf('\n')]: [None] stands for -1. *)
Fixpoint indexOfLF (s : string) : option nat :=
  match s with
  | EmptyString => None
  | String c s' =>
      if Ascii.eqb c LF then Some 0
      else match indexOfLF s' with
           | Some i => Some (S i)
           | None => None
           end
  end.

Fixpoint trimStart (s : string) : string :=
  match s with
  | String c s' => if isWhiteSpace c then trimStart s' else s
  | EmptyString => EmptyString
  end.

(** Dropping the white space at the end: a character stays when it is not
    white space or when something stays after it. *)
Fixpoint trimEnd (s : string) : string :=
  match s with
  | EmptyString => EmptyString
  | String c s' =>
      match trimEnd s' with
      | EmptyString => if isWhiteSpace c then EmptyString
                       else String c EmptyString
      | t => String c t
      end
  end.

Definition trim (s : string) : string := trimEnd (trimStart s).

(** [s.split('\n')]: never empty, [''.split('\n')] is [['']]. *)
Fixpoint splitLF (s : string) : list string :=
  match s with
  | EmptyString => [EmptyString]
  | String c s' =>
      if Ascii.eqb c LF then EmptyString :: splitLF s'
      else match splitLF s' with
           | l :: ls => String c l :: ls
           | [] => [String c EmptyString]
           end
  end.

(** For writing examples: [s] with each apostrophe read as a double
    quote. *)
Fixpoint dq (s : string) : string :=
  match s with
  | EmptyString => EmptyString
  | String c s' =>
      String (if Ascii.eqb c "'" then ascii_of_nat 34 else c) (dq s')
  end.

(** The pieces of a list put end to end. *)
Fixpoint concatAll (l : list string) : string :=
  match l with
  | [] => EmptyString
  | x :: l' => x ++ concatAll l'
  end.

(** A string is truthy when it is not empty. *)
Definition nonEmpty (s : string) : bool :=
  match s with EmptyString => false | _ => true end.

End JsString.
Import JsString.

(** ** Regular expressions

    The patterns of the source are kept as their source text and compiled by
    [Regex.compile]; [Regex.exec] is the backtracking matcher of ECMAScript
    ([String.prototype.match] with a pattern that has no [g] flag). *)

Module Regex.

Inductive ClassItem : Type :=
| CChar (c : ascii)
| CRange (lo hi : ascii)
| CSpace (neg : bool).          (* \s and \S inside a class *)

Inductive regex : Type :=
| REmpty
| RFail                            (* what an ill-formed source compiles to *)
| RChar (c : ascii)
| RAny                             (* . *)
| RClass (neg : bool) (items : list ClassItem)
| RBol                             (* ^ *)
| RSeq (r1 r2 : regex)
| RAlt (r1 r2 : regex)
| RStar (greedy : bool) (r : regex)
| RGroup (n : nat) (r : regex).    (* the n-th capturing group *)

Definition RPlus (greedy : bool) (r : regex) : regex :=
  RSeq r (RStar greedy r).
Definition ROpt (greedy : bool) (r : regex) : regex :=
  if greedy then RAlt r REmpty else RAlt REmpty r.

(** *** From the source text to the pattern *)

Definition isSyntaxChar (c : ascii) : bool :=
  includes (String c EmptyString) "^$\.*+?()[]{}|/".

Definition isAlphaNum (c : ascii) : bool :=
  let n := code c in
  ((48 <=? n) && (n <=? 57)) || ((65 <=? n) && (n <=? 90))
  || ((97 <=? n) && (n <=? 122)).

(** The character after a backslash: the class escapes [\s] and [\S], the
    control escape [\n], and the identity escape of a character that is
    neither a letter nor a digit.  The source uses no other escape. *)
Definition escapeItem (c : ascii) : option ClassItem :=
  if Ascii.eqb c "s" then Some (CSpace false)
  else if Ascii.eqb c "S" then Some (CSpace true)
  else if Ascii.eqb c "n" then Some (CChar LF)
  else if isAlphaNum c then None
  else Some (CChar c).

Definition escapeAtom (c : ascii) : option regex :=
  match escapeItem c with
  | Some (CChar a) => Some (RChar a)
  | Some it => Some (RClass false [it])
  | None => None
  end.

(** The items of a class up to its closing bracket. *)
Fixpoint parseClass (fuel : nat) (s : string) (acc : list ClassItem)
  : option (list ClassItem * string) :=
  match fuel with
  | 0 => None
  | S fuel' =>
      match s with
      | EmptyString => None
      | String "]" rest => Some (rev acc, rest)
      | String "\" (String e rest) =>
          match escapeItem e with
          | Some it => parseClass fuel' rest (it :: acc)
          | None => None
          end
      | String lo (String "-" (String hi rest)) =>
          if Ascii.eqb hi "]"
          then parseClass fuel' (String "-" (String hi rest)) (CChar lo :: acc)
          else parseClass fuel' rest (CRange lo hi :: acc)
      | String c rest => parseClass fuel' rest (CChar c :: acc)
      end
  end.

(** A quantifier after an atom, if any. *)
Definition quantified (r : regex) (s : string) : regex * string :=
  match s with
  | String "*" (String "?" rest) => (RStar false r, rest)
  | String "*" rest => (RStar true r, rest)
  | String "+" (String "?" rest) => (RPlus false r, rest)
  | String "+" rest => (RPlus true r, rest)
  | String "?" (String "?" rest) => (ROpt false r, rest)
  | String "?" rest => (ROpt true r, rest)
  | _ => (r, s)
  end.

(** A disjunction; [n] is the number of capturing groups opened so far.
    Groups are numbered by their opening parenthesis, from the left. *)
Fixpoint parseDisjunction (fuel : nat) (s : string) (n : nat)
  : option (regex * string * nat) :=
  match fuel with
  | 0 => None
  | S fuel' =>
      let parseAtom (s : string) (n : nat) : option (regex * string * nat) :=
        match s with
        | EmptyString => None
        | String "." rest => Some (RAny, rest, n)
        | String "^" rest => Some (RBol, rest, n)
        | String "\" (String e rest) =>
            match escapeAtom e with
            | Some a => Some (a, rest, n)
            | None => None
            end
        | String "[" (String "^" rest) =>
            match parseClass (String.length rest) rest [] with
            | Some (items, rest') => Some (RClass true items, rest', n)
            | None => None
            end
        | String "[" rest =>
            match parseClass (String.length rest) rest [] with
            | Some (items, rest') => Some (RClass false items, rest', n)
            | None => None
            end
        | String "(" (String "?" (String ":" rest)) =>
            match parseDisjunction fuel' rest n with
            | Some (r, String ")" rest', n') => Some (r, rest', n')
            | _ => None
            end
        | String "(" rest =>
            match parseDisjunction fuel' rest (S n) with
            | Some (r, String ")" rest', n') => Some (RGroup (S n) r, rest', n')
            | _ => None
            end
        | String c rest =>
            if isSyntaxChar c then None else Some (RChar c, rest, n)
        end in
      let fix parseAlternative (k : nat) (s : string) (n : nat)
        : option (regex * string * nat) :=
        match k with
        | 0 => None
        | S k' =>
            match s with
            | EmptyString => Some (REmpty, s, n)
            | String "|" _ => Some (REmpty, s, n)
            | String ")" _ => Some (REmpty, s, n)
            | _ =>
                match parseAtom s n with
                | None => None
                | Some (a, rest, n1) =>
                    let (t, rest1) := quantified a rest in
                    match parseAlternative k' rest1 n1 with
                    | Some (REmpty, rest2, n2) => Some (t, rest2, n2)
                    | Some (r, rest2, n2) => Some (RSeq t r, rest2, n2)
                    | None => None
                    end
                end
            end
        end in
      match parseAlternative (S (String.length s)) s n with
      | Some (r1, String "|" rest, n1) =>
          match parseDisjunction fuel' rest n1 with
          | Some (r2, rest2, n2) => Some (RAlt r1 r2, rest2, n2)
          | None => None
          end
      | other => other
      end
  end.

(** [new RegExp(source)]; a source outside the grammar above gives [RFail],
    which matches nothing. *)
Definition compile (source : string) : regex :=
  match parseDisjunction (S (String.length source)) source 0 with
  | Some (r, EmptyString, _) => r
  | _ => RFail
  end.

(** A pattern as the source writes it: [/source/] or [/source/i]. *)
Record RegExp : Type := mkRegExp {
  source : string;
  ignoreCase : bool
}.

(** [pattern.toString()]. *)
Definition toString (p : RegExp) : string :=
  "/" ++ source p ++ "/" ++ (if ignoreCase p then "i" else "").

(** *** Matching *)

(** The captures: the text of each group that took part in the match. *)
Definition Captures : Type := list (nat * string).

Fixpoint capture (n : nat) (caps : Captures) : option string :=
  match caps with
  | [] => None
  | (m, v) :: caps' => if m =? n then Some v else capture n caps'
  end.

Fixpoint groupsOf (r : regex) : list nat :=
  match r with
  | RSeq r1 r2 | RAlt r1 r2 => (groupsOf r1 ++ groupsOf r2)%list
  | RStar _ r1 => groupsOf r1
  | RGroup n r1 => n :: groupsOf r1
  | _ => []
  end.

(** At each turn of a quantifier the groups inside it are undefined again. *)
Definition clearGroups (gs : list nat) (caps : Captures) : Captures :=
  filter (fun c => negb (existsb (Nat.eqb (fst c)) gs)) caps.

Definition sameChar (ci : bool) (a b : ascii) : bool :=
  if ci then Ascii.eqb (upperChar a) (upperChar b) else Ascii.eqb a b.

Definition inRange (lo hi c : ascii) : bool :=
  (code lo <=? code c) && (code c <=? code hi).

(** A class item holds [c], or with [i] a character of the same canonical
    form as [c]. *)
Definition itemHolds (ci : bool) (c : ascii) (it : ClassItem) : bool :=
  match it with
  | CChar a => sameChar ci a c
  | CRange lo hi =>
      inRange lo hi c
      || (ci && (inRange lo hi (upperChar c) || inRange lo hi (lowerChar c)))
  | CSpace neg => xorb neg (isWhiteSpace c)
  end.

Definition classHolds (ci : bool) (neg : bool) (items : list ClassItem)
  (c : ascii) : bool :=
  xorb neg (existsb (itemHolds ci c) items).

Section Matcher.
Context {A : Type}.
Variable ci : bool.

(** A quantifier [*] or [*?] around a pattern matched by [step]: at each
    turn the groups [gs] inside it are undefined again, and a turn that
    consumes nothing is refused.  A turn consumes a character, so
    [String.length s + 1] turns of [fuel] are never used up. *)
Fixpoint starLoop
  (step : nat -> string -> Captures ->
          (nat -> string -> Captures -> option A) -> option A)
  (greedy : bool) (gs : list nat)
  (k : nat -> string -> Captures -> option A)
  (fuel : nat) (pos : nat) (s : string) (caps : Captures) : option A :=
  match fuel with
  | 0 => k pos s caps
  | S fuel' =>
      let again := fun pos' s' caps' =>
        if pos' =? pos then None
        else starLoop step greedy gs k fuel' pos' s' caps' in
      if greedy then
        match step pos s (clearGroups gs caps) again with
        | Some x => Some x
        | None => k pos s caps
        end
      else
        match k pos s caps with
        | Some x => Some x
        | None => step pos s (clearGroups gs caps) again
        end
  end.

(** [rmatch r pos s caps k]: match [r] at index [pos], where [s] is the
    rest of the input from there, and go on with [k]; alternatives are
    tried in the order of ECMAScript's backtracking. *)
Fixpoint rmatch (r : regex) (pos : nat) (s : string) (caps : Captures)
  (k : nat -> string -> Captures -> option A) {struct r} : option A :=
  match r with
  | REmpty => k pos s caps
  | RFail => None
  | RChar c =>
      match s with
      | String d s' => if sameChar ci c d then k (S pos) s' caps else None
      | EmptyString => None
      end
  | RAny =>
      match s with
      | String d s' => if isLineTerminator d then None else k (S pos) s' caps
      | EmptyString => None
      end
  | RClass neg items =>
      match s with
      | String d s' =>
          if classHolds ci neg items d then k (S pos) s' caps else None
      | EmptyString => None
      end
  | RBol => if pos =? 0 then k pos s caps else None
  | RSeq r1 r2 =>
      rmatch r1 pos s caps (fun pos' s' caps' => rmatch r2 pos' s' caps' k)
  | RAlt r1 r2 =>
      match rmatch r1 pos s caps k with
      | Some x => Some x
      | None => rmatch r2 pos s caps k
      end
  | RGroup n r1 =>
      rmatch r1 pos s caps
        (fun pos' s' caps' => k pos' s' ((n, take (pos' - pos) s) :: caps'))
  | RStar greedy r1 =>
      starLoop (rmatch r1) greedy (groupsOf r1) k
        (String.length s + 1) pos s caps
  end.
End Matcher.

(** The result of a match: where it starts, the matched text ([match[0]]),
    the captures, and the input after the match. *)
Record MatchResult : Type := mkMatch {
  index : nat;
  matched : string;
  groups : Captures;
  after : string
}.

(** [match[n]] for [n >= 1]; [None] is [undefined]. *)
Definition group (n : nat) (m : MatchResult) : option string :=
  capture n (groups m).

Definition matchAt (ci : bool) (r : regex) (pos : nat) (s : string)
  : option MatchResult :=
  rmatch ci r pos s []
    (fun pos' s' caps => Some (mkMatch pos (take (pos' - pos) s) caps s')).

(** The leftmost match at or after [pos]. *)
Fixpoint search (ci : bool) (r : regex) (pos : nat) (s : string)
  : option MatchResult :=
  match matchAt ci r pos s with
  | Some m => Some m
  | None =>
      match s with
      | EmptyString => None
      | String _ s' => search ci r (S pos) s'
      end
  end.

(** [text.match(p)] for a pattern without the [g] flag. *)
Definition exec (p : RegExp) (text : string) : option MatchResult :=
  search (ignoreCase p) (compile (source p)) 0 text.

(** [[...text.matchAll(p)]] for a pattern with the [g] flag whose matches
    are never empty: each search starts where the last match ended. *)
Fixpoint searchAll (fuel : nat) (ci : bool) (r : regex) (pos : nat)
  (s : string) : list MatchResult :=
  match fuel with
  | 0 => []
  | S fuel' =>
      match search ci r pos s with
      | None => []
      | Some m =>
          m :: searchAll fuel' ci r (index m + String.length (matched m))
                 (after m)
      end
  end.

Definition matchAll (p : RegExp) (text : string) : list MatchResult :=
  searchAll (String.length text) (ignoreCase p) (compile (source p)) 0 text.

(** [text.replace(p, '')] for a pattern without the [g] flag. *)
Definition removeFirst (p : RegExp) (text : string) : string :=
  match exec p text with
  | Some m => take (index m) text ++ after m
  | None => text
  end.

End Regex.

(** ** JSON values and the runtime *)

Module Json.

(** A value that [JSON.parse] returns.  A number is kept as what the code
    can observe of it: whether it is truthy (not zero) and the text that
    [String(n)] gives. *)
#[warnings="-register-all"]
Inductive JsonValue : Type :=
| JNull
| JBool (b : bool)
| JNumber (nonZero : bool) (shown : string)
| JString (s : string)
| JArray (items : list JsonValue)
| JObject (fields : list (string * JsonValue)).

(** [!!v]. *)
Definition truthy (v : JsonValue) : bool :=
  match v with
  | JNull => false
  | JBool b => b
  | JNumber nz _ => nz
  | JString s => nonEmpty s
  | JArray _ | JObject _ => true
  end.

(** A value that may be [undefined]. *)
Definition truthyOpt (v : option JsonValue) : bool :=
  match v with Some x => truthy x | None => false end.

Fixpoint lookup (key : string) (fields : list (string * JsonValue))
  : option JsonValue :=
  match fields with
  | [] => None
  | (k, v) :: fields' => if String.eqb k key then Some v else lookup key fields'
  end.

(** The value of a text of decimal digits. *)
Fixpoint digitsValue (s : string) (acc : N) : N :=
  match s with
  | EmptyString => acc
  | String c s' => digitsValue s' (acc * 10 + N.of_nat (code c - 48))%N
  end.

Fixpoint allDigits (s : string) : bool :=
  match s with
  | EmptyString => true
  | String c s' => (48 <=? code c) && (code c <=? 57) && allDigits s'
  end.

(** An array index: the canonical text of an integer below 2^32 - 1.  The
    own properties of an object are listed with the array indices first, in
    ascending order, then the other keys in the order of their creation. *)
Definition arrayIndex (key : string) : option N :=
  match key with
  | EmptyString => None
  | String c rest =>
      if allDigits key && (String.length key <=? 10)
         && (negb (Ascii.eqb c "0") || negb (nonEmpty rest))
         && (digitsValue key 0 <=? 4294967294)%N
      then Some (digitsValue key 0)
      else None
  end.

(** Whether a new property [key] is listed before the property [k]. *)
Definition listedBefore (key k : string) : bool :=
  match arrayIndex key, arrayIndex k with
  | Some i, Some j => (i <? j)%N
  | Some _, None => true
  | None, _ => false
  end.

Fixpoint replaceProp (key : string) (v : JsonValue)
  (fields : list (string * JsonValue)) : list (string * JsonValue) :=
  match fields with
  | [] => []
  | (k, w) :: fields' =>
      if String.eqb k key then (k, v) :: fields'
      else (k, w) :: replaceProp key v fields'
  end.

Fixpoint insertProp (key : string) (v : JsonValue)
  (fields : list (string * JsonValue)) : list (string * JsonValue) :=
  match fields with
  | [] => [(key, v)]
  | (k, w) :: fields' =>
      if listedBefore key k then (key, v) :: (k, w) :: fields'
      else (k, w) :: insertProp key v fields'
  end.

(** [obj[key] = v]: an own property keeps its place, a new one takes the
    place its key gives it. *)
Definition setProp (key : string) (v : JsonValue)
  (fields : list (string * JsonValue)) : list (string * JsonValue) :=
  match lookup key fields with
  | Some _ => replaceProp key v fields
  | None => insertProp key v fields
  end.

(** [v.key] for a [v] that is not [null], and a [key] that is no property
    of a string, an array, a number or a boolean ([message], [content],
    [done], [model], [command]): [None] is [undefined]. *)
Definition getProp (v : JsonValue) (key : string) : option JsonValue :=
  match v with
  | JObject fields => lookup key fields
  | _ => None
  end.

(** [String(v)], which is also [`${v}`] and the conversion of [s += v]. *)
Fixpoint toDisplay (v : JsonValue) : string :=
  match v with
  | JNull => "null"
  | JBool true => "true"
  | JBool false => "false"
  | JNumber _ shown => shown
  | JString s => s
  | JArray items =>
      (fix join (l : list JsonValue) : string :=
         match l with
         | [] => ""
         | [x] => match x with JNull => "" | _ => toDisplay x end
         | x :: l' =>
             (match x with JNull => "" | _ => toDisplay x end)
             ++ "," ++ join l'
         end) items
  | JObject _ => "[object Object]"
  end.

(** What [execSync] throws: an [Error], with its [message] and the text
    [String(err)] gives. *)
Record ExecError : Type := mkExecError {
  message : string;
  errorText : string
}.

Inductive ExecOutcome : Type :=
| ExecOutput (stdout : string)
| ExecThrows (err : ExecError).

(** The services of the runtime. *)
Class JsRuntime : Type := {
  JSON_parse : string -> option JsonValue;   (* [None]: a SyntaxError *)
  JSON_stringify : JsonValue -> string;
  execSync : JsonValue -> ExecOutcome
}.

End Json.
Import Json.

(** ** A concrete runtime, to run the code on examples

    [NodeJson.parse] reads the JSON grammar (RFC 8259) over the alphabet of
    the model; [NodeJson.stringify] writes a value back.  Whether a number is
    [0] is exact.  Two limits, neither met by an example below: a [\uXXXX]
    escape above U+00FF is refused, and the text of a number that is not [0]
    is the text it was written with, which is the text [String(n)] gives for
    an integer of at most 15 digits only. *)

Module NodeJson.

Definition isJsonSpace (c : ascii) : bool :=
  let n := code c in (n =? 32) || (n =? 9) || (n =? 10) || (n =? 13).

Fixpoint skipSpace (s : string) : string :=
  match s with
  | String c s' => if isJsonSpace c then skipSpace s' else s
  | EmptyString => EmptyString
  end.

Definition isDigit (c : ascii) : bool :=
  (48 <=? code c) && (code c <=? 57).

Definition hexVal (c : ascii) : option nat :=
  let n := code c in
  if (48 <=? n) && (n <=? 57) then Some (n - 48)
  else if (65 <=? n) && (n <=? 70) then Some (n - 55)
  else if (97 <=? n) && (n <=? 102) then Some (n - 87)
  else None.

Definition hex4 (a b c d : ascii) : option nat :=
  match hexVal a, hexVal b, hexVal c, hexVal d with
  | Some x, Some y, Some z, Some w => Some (((x * 16 + y) * 16 + z) * 16 + w)
  | _, _, _, _ => None
  end.

Definition unescape (e : ascii) : option ascii :=
  let n := code e in
  if (n =? 34) || (n =? 92) || (n =? 47) then Some e
  else if Ascii.eqb e "b" then Some (ascii_of_nat 8)
  else if Ascii.eqb e "f" then Some (ascii_of_nat 12)
  else if Ascii.eqb e "n" then Some (ascii_of_nat 10)
  else if Ascii.eqb e "r" then Some (ascii_of_nat 13)
  else if Ascii.eqb e "t" then Some (ascii_of_nat 9)
  else None.

Definition consChar (c : ascii) (r : option (string * string))
  : option (string * string) :=
  match r with
  | Some (str, rest) => Some (String c str, rest)
  | None => None
  end.

(** The characters of a string after its opening quote, and what follows
    the closing one. *)
Fixpoint parseStringBody (s : string) : option (string * string) :=
  match s with
  | EmptyString => None
  | String c rest =>
      if code c =? 34 then Some (EmptyString, rest)
      else if code c =? 92 then
        match rest with
        | String e rest' =>
            if Ascii.eqb e "u" then
              match rest' with
              | String h1 (String h2 (String h3 (String h4 rest''))) =>
                  match hex4 h1 h2 h3 h4 with
                  | Some n =>
                      if n <? 256
                      then consChar (ascii_of_nat n) (parseStringBody rest'')
                      else None
                  | None => None
                  end
              | _ => None
              end
            else
              match unescape e with
              | Some ch => consChar ch (parseStringBody rest')
              | None => None
              end
        | EmptyString => None
        end
      else if code c <? 32 then None
      else consChar c (parseStringBody rest)
  end.

Fixpoint takeDigits (s : string) : string * string :=
  match s with
  | String c s' =>
      if isDigit c then let (d, r) := takeDigits s' in (String c d, r)
      else (EmptyString, s)
  | EmptyString => (EmptyString, EmptyString)
  end.

(** Whether the number [D * 10^(e - f)] is [0] as a double, where [D] is
    the value of the digits [int ++ fracDigits], [f] the number of digits of
    the fraction and [e] the exponent: the digits are all [0], or the value
    is at most [2^-1075], half of the least positive double, and rounds to
    [0]. *)
Definition numberIsZero (int fracDigits : string) (expNegative : bool)
  (expDigits : string) : bool :=
  let D := digitsValue (int ++ fracDigits) 0 in
  let f := N.of_nat (String.length fracDigits) in
  let e := digitsValue expDigits 0 in
  if (D =? 0)%N then true
  else if expNegative then (D * 2 ^ 1075 <=? 10 ^ (f + e))%N
  else if (f <=? e)%N then false
  else (D * 2 ^ 1075 <=? 10 ^ (f - e))%N.

(** A number: an optional minus sign, an integer part without a leading
    zero, an optional fraction and an optional exponent. *)
Definition parseNumber (s : string) : option (JsonValue * string) :=
  let (sign, s1) :=
    match s with
    | String "-" r => ("-", r)
    | _ => ("", s)
    end in
  let (int, s2) :=
    match s1 with
    | String "0" r => ("0", r)
    | _ => takeDigits s1
    end in
  if negb (nonEmpty int) then None else
  let frac :=
    match s2 with
    | String "." r =>
        let (d, r') := takeDigits r in
        if nonEmpty d then Some (d, r') else None
    | _ => Some ("", s2)
    end in
  match frac with
  | None => None
  | Some (fracDigits, s3) =>
      let expo :=
        match s3 with
        | String e r =>
            if Ascii.eqb e "e" || Ascii.eqb e "E" then
              let (sg, r1) :=
                match r with
                | String "+" r' => ("+", r')
                | String "-" r' => ("-", r')
                | _ => ("", r)
                end in
              let (d, r2) := takeDigits r1 in
              if nonEmpty d then Some (String e sg, d, r2) else None
            else Some ("", "", s3)
        | EmptyString => Some ("", "", s3)
        end in
      match expo with
      | None => None
      | Some (expMark, expDigits, s4) =>
          let nz := negb (numberIsZero int fracDigits (includes "-" expMark)
                            expDigits) in
          let fracText := if nonEmpty fracDigits then "." ++ fracDigits else "" in
          let shown :=
            if nz then sign ++ int ++ fracText ++ expMark ++ expDigits
            else "0" in
          Some (JNumber nz shown, s4)
      end
  end.

Fixpoint parseValue (fuel : nat) (s : string) : option (JsonValue * string) :=
  match fuel with
  | 0 => None
  | S fuel' =>
      match skipSpace s with
      | EmptyString => None
      | String c rest as s0 =>
          if Ascii.eqb c "n" then
            if startsWith "null" s0 then Some (JNull, drop 4 s0) else None
          else if Ascii.eqb c "t" then
            if startsWith "true" s0 then Some (JBool true, drop 4 s0) else None
          else if Ascii.eqb c "f" then
            if startsWith "false" s0 then Some (JBool false, drop 5 s0) else None
          else if code c =? 34 then
            match parseStringBody rest with
            | Some (str, r) => Some (JString str, r)
            | None => None
            end
          else if Ascii.eqb c "[" then
            match skipSpace rest with
            | String "]" r => Some (JArray [], r)
            | _ =>
                (fix elements (k : nat) (s : string) (acc : list JsonValue)
                   : option (JsonValue * string) :=
                   match k with
                   | 0 => None
                   | S k' =>
                       match parseValue fuel' s with
                       | Some (v, r) =>
                           match skipSpace r with
                           | String "," r' => elements k' r' (v :: acc)
                           | String "]" r' => Some (JArray (rev (v :: acc)), r')
                           | _ => None
                           end
                       | None => None
                       end
                   end) (String.length rest) rest []
            end
          else if Ascii.eqb c "{" then
            match skipSpace rest with
            | String "}" r => Some (JObject [], r)
            | _ =>
                (fix members (k : nat) (s : string)
                   (acc : list (string * JsonValue))
                   : option (JsonValue * string) :=
                   match k with
                   | 0 => None
                   | S k' =>
                       match skipSpace s with
                       | String q s1 =>
                           if code q =? 34 then
                             match parseStringBody s1 with
                             | Some (key, s2) =>
                                 match skipSpace s2 with
                                 | String ":" s3 =>
                                     match parseValue fuel' s3 with
                                     | Some (v, r) =>
                                         let acc' := setProp key v acc in
                                         match skipSpace r with
                                         | String "," r' => members k' r' acc'
                                         | String "}" r' => Some (JObject acc', r')
                                         | _ => None
                                         end
                                     | None => None
                                     end
                                 | _ => None
                                 end
                             | None => None
                             end
                           else None
                       | EmptyString => None
                       end
                   end) (String.length rest) rest []
            end
          else parseNumber s0
      end
  end.

(** [JSON.parse(text)]. *)
Definition parse (text : string) : option JsonValue :=
  match parseValue (S (String.length text)) text with
  | Some (v, rest) =>
      match skipSpace rest with
      | EmptyString => Some v
      | _ => None
      end
  | None => None
  end.

Definition hexDigit (n : nat) : ascii :=
  if n <? 10 then ascii_of_nat (48 + n) else ascii_of_nat (87 + n).

Definition escapeChar (c : ascii) : string :=
  let n := code c in
  if n =? 34 then "\" ++ DQ
  else if n =? 92 then "\\"
  else if n =? 8 then "\b"
  else if n =? 12 then "\f"
  else if n =? 10 then "\n"
  else if n =? 13 then "\r"
  else if n =? 9 then "\t"
  else if n <? 32
  then "\u00" ++ String (hexDigit (n / 16)) (String (hexDigit (n mod 16)) "")
  else String c "".

Fixpoint escape (s : string) : string :=
  match s with
  | EmptyString => EmptyString
  | String c s' => escapeChar c ++ escape s'
  end.

Definition quote (s : string) : string := DQ ++ escape s ++ DQ.

(** [JSON.stringify(v)]. *)
Fixpoint stringify (v : JsonValue) : string :=
  match v with
  | JNull => "null"
  | JBool true => "true"
  | JBool false => "false"
  | JNumber _ shown => shown
  | JString s => quote s
  | JArray items =>
      "[" ++
      (fix join (l : list JsonValue) : string :=
         match l with
         | [] => ""
         | [x] => stringify x
         | x :: l' => stringify x ++ "," ++ join l'
         end) items ++ "]"
  | JObject fields =>
      "{" ++
      (fix join (l : list (string * JsonValue)) : string :=
         match l with
         | [] => ""
         | [(k, x)] => quote k ++ ":" ++ stringify x
         | (k, x) :: l' => quote k ++ ":" ++ stringify x ++ "," ++ join l'
         end) fields ++ "}"
  end.

(** A runtime whose shell answers as [shell] says. *)
Definition nodeRuntime (shell : JsonValue -> ExecOutcome) : JsRuntime :=
  {| JSON_parse := parse; JSON_stringify := stringify; execSync := shell |}.

End NodeJson.

(** ** Chunks *)

(** The [content] of a delta or of a message: absent, [null], or a value. *)
Inductive DeltaContent : Type :=
| ContentAbsent
| ContentNull
| ContentValue (v : JsonValue).

(** The [function_call] of a delta: its name, or a piece of its arguments. *)
Inductive FunctionCallDelta : Type :=
| FcName (name : string)
| FcArguments (args : string).

Record Delta : Type := mkDelta {
  role : option string;
  content : DeltaContent;
  function_call : option FunctionCallDelta
}.

(** An OpenAI-format chunk: [{model, choices: [{index: 0, delta,
    finish_reason}]}], with [None] for a [null] finish reason. *)
Record Chunk : Type := mkChunk {
  model : JsonValue;
  delta : Delta;
  finish_reason : option string
}.

(** What [processOllamaStream] yields: [{content, done}]. *)
Record ContentEvent : Type := mkContentEvent {
  ev_content : JsonValue;
  ev_done : JsonValue
}.

(** What [createStreamProcessor] yields: a chunk it built from an Ollama
    line, or the parsed payload of an event-stream line as it came. *)
Inductive Emitted : Type :=
| Built (c : Chunk)
| Parsed (v : JsonValue).

(** A non-streaming completion: [{model, choices: [{index: 0, message,
    finish_reason}]}]. *)
Record Completion : Type := mkCompletion {
  c_model : string;
  c_role : string;
  c_content : DeltaContent;
  c_function_call : option (string * string);   (* name, arguments *)
  c_finish_reason : string
}.

(** What a generator does: it yields [yielded] and returns, or it yields
    [yielded] and then never comes back (it spins in a loop that has no
    [await] in it). *)
Inductive Outcome (O : Type) : Type :=
| Completes (yielded : list O)
| Hangs (yielded : list O).
Arguments Completes {O} yielded.
Arguments Hangs {O} yielded.

Definition yielded {O : Type} (o : Outcome O) : list O :=
  match o with Completes l | Hangs l => l end.

(** ** The line loop shared by the three stream processors

<<
    let lineEnd = buffer.indexOf('\n');
    while (lineEnd !== -1) {
      const line = buffer.substring(0, lineEnd).trim();
      buffer = buffer.substring(lineEnd + 1);
      ... the handling of the line, which may [continue] ...
      lineEnd = buffer.indexOf('\n');
    }
>>
    A [continue] jumps to the test of the loop: the assignment to [lineEnd]
    at the end of the body is not run, and the next turn cuts the buffer at
    the old index. *)

Section LineLoop.
Context {St O : Type}.

(** What the handling of a line does. *)
Inductive LineAction : Type :=
| Continue                              (* a [continue] statement *)
| Handled (st : St) (out : list O).      (* the end of the body is reached *)

Variable handle : St -> string -> LineAction.

Record LoopState : Type := mkLoopState {
  state : St;
  buffer : string;
  lineEnd : option nat          (* [None] is -1 *)
}.

(** One turn of the loop, entered with [lineEnd = k]. *)
Definition iteration (s : LoopState) (k : nat) : LoopState * list O :=
  let line := trim (take k (buffer s)) in
  let rest := drop (k + 1) (buffer s) in
  match handle (state s) line with
  | Continue => (mkLoopState (state s) rest (Some k), [])
  | Handled st out => (mkLoopState st rest (indexOfLF rest), out)
  end.

(** The loop, run for at most [fuel] turns.  The result is what was
    yielded and the state at the exit, or [None] when the turns are used
    up.  [lineLoop] below gives enough turns for every loop that exits. *)
Fixpoint turns (fuel : nat) (s : LoopState) : list O * option LoopState :=
  match lineEnd s with
  | None => ([], Some s)
  | Some k =>
      match fuel with
      | 0 => ([], None)
      | S fuel' =>
          let (s', out) := iteration s k in
          let (outs, final) := turns fuel' s' in
          ((out ++ outs)%list, final)
      end
  end.

(** The whole loop on a buffer: a turn on a buffer that is not empty
    shortens it, and the one state with an empty buffer that does not exit
    at once repeats for ever. *)
Definition lineLoop (st : St) (buf : string) : list O * option LoopState :=
  turns (String.length buf + 1) (mkLoopState st buf (indexOfLF buf)).

(** The reading loop: [buffer += chunk] and the line loop, for each piece
    that [reader.read()] delivers. *)
Fixpoint readLoop (st : St) (buf : string) (reads : list string)
  : list O * option (St * string) :=
  match reads with
  | [] => ([], Some (st, buf))
  | chunk :: reads' =>
      match lineLoop st (buf ++ chunk) with
      | (out, None) => (out, None)
      | (out, Some s) =>
          let (outs, final) := readLoop (state s) (buffer s) reads' in
          ((out ++ outs)%list, final)
      end
  end.

End LineLoop.
Arguments LineAction : clear implicits.
Arguments LoopState : clear implicits.

(** ** The stream processors *)

Section StreamProcessors.
Context {rt : JsRuntime}.

(** [ollamaResponse.message && ollamaResponse.message.content], for a
    parsed line that is not [null]: the content when both are truthy. *)
Definition messageContent (ollamaResponse : JsonValue) : option JsonValue :=
  match getProp ollamaResponse "message" with
  | Some message =>
      if truthy message then
        match getProp message "content" with
        | Some c => if truthy c then Some c else None
        | None => None
        end
      else None
  | None => None
  end.

(** [v || fallback] for a property that may be missing. *)
Definition orElse (v : option JsonValue) (fallback : JsonValue) : JsonValue :=
  match v with
  | Some x => if truthy x then x else fallback
  | None => fallback
  end.

(** The body of the [try] in [createOllamaStreamProcessor] and in the
    Ollama branch of [createStreamProcessor]: the chunk a line gives, if
    any.  [JSON.parse] throws on a line that is not JSON, and reading
    [.message] throws on [null]; the [catch] swallows both. *)
Definition openaiChunk (isFirstChunk : bool) (line : string) : option Chunk :=
  match JSON_parse line with
  | None => None
  | Some JNull => None
  | Some ollamaResponse =>
      match messageContent ollamaResponse with
      | Some c =>
          Some {| model := orElse (getProp ollamaResponse "model")
                                  (JString "ollama-model");
                  delta := {| role := if isFirstChunk then Some "assistant"
                                      else None;
                              content := ContentValue c;
                              function_call := None |};
                  finish_reason :=
                    if truthyOpt (getProp ollamaResponse "done")
                    then Some "stop" else None |}
      | None => None
      end
  end.

(** *** [createOllamaStreamProcessor] (ollama-stream.js)

    The state is the flag [isFirstChunk]. *)
Definition ollamaStreamLine (isFirstChunk : bool) (line : string)
  : LineAction bool Chunk :=
  if negb (nonEmpty line) then Continue           (* if (!line) continue; *)
  else
    match openaiChunk isFirstChunk line with
    | Some chunk => Handled false [chunk]
    | None => Handled isFirstChunk []
    end.

Definition createOllamaStreamProcessor (reads : list string) : Outcome Chunk :=
  match readLoop ollamaStreamLine true "" reads with
  | (out, Some _) => Completes out
  | (out, None) => Hangs out
  end.

(** *** [processOllamaStream] (ollama-client.js) *)
Definition contentEvent (line : string) : option ContentEvent :=
  match JSON_parse line with
  | None => None
  | Some JNull => None
  | Some data =>
      match messageContent data with
      | Some c =>
          Some {| ev_content := c;
                  ev_done := orElse (getProp data "done") (JBool false) |}
      | None => None
      end
  end.

Definition ollamaClientLine (st : unit) (line : string)
  : LineAction unit ContentEvent :=
  if negb (nonEmpty line) then Continue           (* if (!line) continue; *)
  else
    match contentEvent line with
    | Some ev => Handled tt [ev]
    | None => Handled tt []
    end.

Definition processOllamaStream (reads : list string) : Outcome ContentEvent :=
  match readLoop ollamaClientLine tt "" reads with
  | (out, Some _) => Completes out
  | (out, None) => Hangs out
  end.

(** *** [createStreamProcessor] (openai.ts)

    [isOllama] is read from the configuration once, before the loop. *)
Definition builtChunk (isFirstChunk : bool) (line : string)
  : bool * list Emitted :=
  match openaiChunk isFirstChunk line with
  | Some chunk => (false, [Built chunk])
  | None => (isFirstChunk, [])
  end.

(** [line.slice(6).trim()] parsed and yielded as it is. *)
Definition eventStreamData (line : string) : option (list Emitted) :=
  let data := trim (drop 6 line) in
  if negb (nonEmpty data) then None               (* if (!data) continue *)
  else
    match JSON_parse data with
    | Some parsed => Some [Parsed parsed]
    | None => Some []
    end.

Definition streamLine (isOllama : bool) (isFirstChunk : bool) (line : string)
  : LineAction bool Emitted :=
  if isOllama then
    if negb (nonEmpty line) then Continue         (* if (!line) continue; *)
    else let (first, out) := builtChunk isFirstChunk line in Handled first out
  else
    if String.eqb line "data: [DONE]" then Continue
    else if startsWith "data: " line then
      match eventStreamData line with
      | None => Continue
      | Some out => Handled isFirstChunk out
      end
    else Handled isFirstChunk [].

(** [// Process any remaining data in the buffer], after the last read. *)
Fixpoint flushLines (isOllama : bool) (isFirstChunk : bool)
  (lines : list string) : list Emitted :=
  match lines with
  | [] => []
  | line :: lines' =>
      if isOllama then
        if nonEmpty line then
          let (first, out) := builtChunk isFirstChunk line in
          (out ++ flushLines isOllama first lines')%list
        else flushLines isOllama isFirstChunk lines'
      else
        if startsWith "data: " line && negb (String.eqb line "data: [DONE]")
        then
          match eventStreamData line with
          | Some out => (out ++ flushLines isOllama isFirstChunk lines')%list
          | None => flushLines isOllama isFirstChunk lines'
          end
        else flushLines isOllama isFirstChunk lines'
  end.

Definition flushBuffer (isOllama : bool) (isFirstChunk : bool)
  (buffer : string) : list Emitted :=
  if nonEmpty (trim buffer)
  then flushLines isOllama isFirstChunk (splitLF (trim buffer))
  else [].

Definition createStreamProcessor (isOllama : bool) (reads : list string)
  : Outcome Emitted :=
  match readLoop (streamLine isOllama) true "" reads with
  | (out, Some (isFirstChunk, buffer)) =>
      Completes (out ++ flushBuffer isOllama isFirstChunk buffer)%list
  | (out, None) => Hangs out
  end.

(** [streamCompletion] is [createStreamProcessor]. *)
Definition streamCompletion := createStreamProcessor.

End StreamProcessors.

(** ** Intent recovery (openai.ts, [getCompletion]) *)

Module Recovery.
Import Regex.

Definition re (src : string) : RegExp := mkRegExp src false.     (* /src/ *)
Definition re_i (src : string) : RegExp := mkRegExp src true.    (* /src/i *)

Definition explicitFuncCallRegex : RegExp :=
  re "<function_calls>([\s\S]*?)<\/function_calls>".

(** The table of the streaming path (openai.ts, lines 129-190). *)
Definition commandPatterns : list RegExp := [
  re_i "run\s+`([^`]+)`";
  re_i ("run\s+" ++ DQ ++ "([^" ++ DQ ++ "]+)" ++ DQ);
  re_i "run\s+'([^']+)'";
  re_i "run\s+the\s+command\s+`([^`]+)`";
  re_i ("run\s+the\s+command\s+" ++ DQ ++ "([^" ++ DQ ++ "]+)" ++ DQ);
  re_i "run\s+the\s+command\s+'([^']+)'";
  re_i "execute\s+`([^`]+)`";
  re_i ("execute\s+" ++ DQ ++ "([^" ++ DQ ++ "]+)" ++ DQ);
  re_i "execute\s+'([^']+)'";
  re_i "execute\s+the\s+command\s+`([^`]+)`";
  re_i ("execute\s+the\s+command\s+" ++ DQ ++ "([^" ++ DQ ++ "]+)" ++ DQ);
  re_i "execute\s+the\s+command\s+'([^']+)'";
  re_i "run git (status|diff|log|branch|checkout|pull|push|fetch|clone|add|commit|reset|revert|stash|merge|rebase)";
  re_i "execute git (status|diff|log|branch|checkout|pull|push|fetch|clone|add|commit|reset|revert|stash|merge|rebase)";
  re_i "run ls";
  re_i "run cd";
  re_i "run mkdir";
  re_i "run rm";
  re_i "run cat";
  re_i "run grep";
  re_i "run find";
  re_i "run echo";
  re_i "run touch";
  re_i ("run ([a-zA-Z0-9_\-\.\/]+(\s+[^\n\." ++ DQ ++ "\']+)?)");
  re_i ("execute ([a-zA-Z0-9_\-\.\/]+(\s+[^\n\." ++ DQ ++ "\']+)?)");
  re_i "you.* need to run git status";
  re_i "you.* run the git status command";
  re_i "I.* need to run git status";
  re_i "I.* run git status for";
  re_i "using the git status command";
  re_i "To check .* git status";
  re_i "To see .* git status";
  re_i ("to check .* run " ++ DQ ++ "([^" ++ DQ ++ "]+)" ++ DQ);
  re_i "to check .* run '([^']+)'";
  re_i "to check .* run `([^`]+)`";
  re_i ("to see .* run " ++ DQ ++ "([^" ++ DQ ++ "]+)" ++ DQ);
  re_i "to see .* run '([^']+)'";
  re_i "to see .* run `([^`]+)`";
  re_i ("to view .* run " ++ DQ ++ "([^" ++ DQ ++ "]+)" ++ DQ);
  re_i "to view .* run '([^']+)'";
  re_i "to view .* run `([^`]+)`";
  re_i ("you (?:should|need to|can|could|would|must) run\s+([a-zA-Z0-9_\-\.\/]+(\s+[^\n\."
        ++ DQ ++ "\'])?)");
  re_i ("you (?:should|need to|can|could|would|must) run\s+" ++ DQ ++ "([^" ++ DQ ++ "]+)"
        ++ DQ);
  re_i "you (?:should|need to|can|could|would|must) run\s+'([^']+)'";
  re_i "you (?:should|need to|can|could|would|must) run\s+`([^`]+)`";
  re_i ("I(?:'ll| will| should| need to) run\s+([a-zA-Z0-9_\-\.\/]+(\s+[^\n\."
        ++ DQ ++ "\'])?)");
  re_i ("I(?:'ll| will| should| need to) run\s+" ++ DQ ++ "([^" ++ DQ ++ "]+)"
        ++ DQ);
  re_i "I(?:'ll| will| should| need to) run\s+'([^']+)'";
  re_i "I(?:'ll| will| should| need to) run\s+`([^`]+)`"
].

(** The table of the non-streaming path (lines 679-741). *)
Definition commandPatterns_nonStreaming : list RegExp := [
  re_i "run\s+`([^`]+)`";
  re_i ("run\s+" ++ DQ ++ "([^" ++ DQ ++ "]+)" ++ DQ);
  re_i "run\s+'([^']+)'";
  re_i "run\s+the\s+command\s+`([^`]+)`";
  re_i ("run\s+the\s+command\s+" ++ DQ ++ "([^" ++ DQ ++ "]+)" ++ DQ);
  re_i "run\s+the\s+command\s+'([^']+)'";
  re_i "execute\s+`([^`]+)`";
  re_i ("execute\s+" ++ DQ ++ "([^" ++ DQ ++ "]+)" ++ DQ);
  re_i "execute\s+'([^']+)'";
  re_i "execute\s+the\s+command\s+`([^`]+)`";
  re_i ("execute\s+the\s+command\s+" ++ DQ ++ "([^" ++ DQ ++ "]+)" ++ DQ);
  re_i "execute\s+the\s+command\s+'([^']+)'";
  re_i "run git (add|status|diff|log|branch|checkout|pull|push|fetch|clone|commit|reset|revert|stash|merge|rebase)(\s+[^\n]+)?";
  re_i "execute git (add|status|diff|log|branch|checkout|pull|push|fetch|clone|commit|reset|revert|stash|merge|rebase)(\s+[^\n]+)?";
  re_i "git (add|status|diff|log|branch|checkout|pull|push|fetch|clone|commit|reset|revert|stash|merge|rebase)(\s+[^\n]+)?";
  re_i "run ls";
  re_i "run cd";
  re_i "run mkdir";
  re_i "run rm";
  re_i "run cat";
  re_i "run grep";
  re_i "run find";
  re_i "run echo";
  re_i "run touch";
  re_i ("run ([a-zA-Z0-9_\-\.\/]+(\s+[^\n\." ++ DQ ++ "\']+)?)");
  re_i ("execute ([a-zA-Z0-9_\-\.\/]+(\s+[^\n\." ++ DQ ++ "\']+)?)");
  re_i "you.* need to run git status";
  re_i "you.* run the git status command";
  re_i "I.* need to run git status";
  re_i "I.* run git status for";
  re_i "using the git status command";
  re_i "To check .* git status";
  re_i "To see .* git status";
  re_i ("to check .* run " ++ DQ ++ "([^" ++ DQ ++ "]+)" ++ DQ);
  re_i "to check .* run '([^']+)'";
  re_i "to check .* run `([^`]+)`";
  re_i ("to see .* run " ++ DQ ++ "([^" ++ DQ ++ "]+)" ++ DQ);
  re_i "to see .* run '([^']+)'";
  re_i "to see .* run `([^`]+)`";
  re_i ("to view .* run " ++ DQ ++ "([^" ++ DQ ++ "]+)" ++ DQ);
  re_i "to view .* run '([^']+)'";
  re_i "to view .* run `([^`]+)`";
  re_i ("you (?:should|need to|can|could|would|must) run\s+([a-zA-Z0-9_\-\.\/]+(\s+[^\n\."
        ++ DQ ++ "\'])?)");
  re_i ("you (?:should|need to|can|could|would|must) run\s+" ++ DQ ++ "([^" ++ DQ ++ "]+)"
        ++ DQ);
  re_i "you (?:should|need to|can|could|would|must) run\s+'([^']+)'";
  re_i "you (?:should|need to|can|could|would|must) run\s+`([^`]+)`";
  re_i ("I(?:'ll| will| should| need to) run\s+([a-zA-Z0-9_\-\.\/]+(\s+[^\n\."
        ++ DQ ++ "\'])?)");
  re_i ("I(?:'ll| will| should| need to) run\s+" ++ DQ ++ "([^" ++ DQ ++ "]+)"
        ++ DQ);
  re_i "I(?:'ll| will| should| need to) run\s+'([^']+)'";
  re_i "I(?:'ll| will| should| need to) run\s+`([^`]+)`"
].

Definition thinkRegex : RegExp := re "<think>([\s\S]*?)<\/think>".
Definition runPrefixRegex : RegExp := re "^(run|execute)\s+".

(** [match[n]] read as a string: [undefined] and [''] are both falsy, and
    nothing else is asked of them. *)
Definition groupText (n : nat) (m : MatchResult) : string :=
  match group n m with Some g => g | None => "" end.

(** [if (command)] for a [command] that starts as [null]. *)
Definition isSet (command : option string) : bool :=
  match command with Some c => nonEmpty c | None => false end.

(** [for (const pattern of commandPatterns) { ... }]: the first pattern
    that matches and gives a command ends the loop. *)
Fixpoint extractCommand (patterns : list RegExp) (text : string)
  : option string :=
  match patterns with
  | [] => None
  | pattern :: patterns' =>
      match exec pattern text with
      | Some m =>
          if includes "(add|status|diff|log" (toString pattern)
             && nonEmpty (matched m)
          then
            if startsWith "run " (matched m)
               || startsWith "execute " (matched m)
            then Some (removeFirst runPrefixRegex (matched m))
            else Some (matched m)
          else if nonEmpty (groupText 1 m) then Some (groupText 1 m)
          else extractCommand patterns' text
      | None => extractCommand patterns' text
      end
  end.

(** [a || b || c] on the results of [match]. *)
Fixpoint firstMatch (patterns : list RegExp) (text : string)
  : option MatchResult :=
  match patterns with
  | [] => None
  | p :: patterns' =>
      match exec p text with
      | Some m => Some m
      | None => firstMatch patterns' text
      end
  end.

Definition defaultCommitCommand : string :=
  "git commit -m " ++ DQ ++ "Changes from Claude Code session" ++ DQ.

(** The four detectors; [lower] is [text.toLowerCase()]. *)
Definition gitStatusIntent (lower : string) : bool :=
  includes "git status" lower
  || (includes "run git" lower && includes "status" lower)
  || (includes "show" lower && includes "status" lower)
  || (includes "user" lower && includes "git" lower && includes "status" lower).

Definition gitAddIntent (lower : string) : bool :=
  includes "git add" lower
  || (includes "run git" lower && includes "add" lower)
  || (includes "stage" lower && includes "changes" lower).

Definition gitCommitIntent (lower : string) : bool :=
  includes "git commit" lower
  || (includes "run git" lower && includes "commit" lower)
  || (includes "execute git" lower && includes "commit" lower)
  || (includes "commit" lower && includes "changes" lower).

Definition gitPushIntent (lower : string) : bool :=
  includes "git push" lower
  || (includes "run git" lower && includes "push" lower)
  || (includes "execute git" lower && includes "push" lower)
  || (includes "push" lower && includes "changes" lower
      && includes "remote" lower).

Definition addPatterns : list RegExp :=
  [re_i "git add\s+([^\n]+)";
   re_i "run git add\s+([^\n]+)";
   re_i "execute git add\s+([^\n]+)"].

Definition commitPatterns : list RegExp :=
  [re_i ("git commit\s+-m\s+[" ++ DQ ++ "']([^" ++ DQ ++ "']+)[" ++ DQ ++ "']");
   re_i ("run git commit\s+-m\s+[" ++ DQ ++ "']([^" ++ DQ ++ "']+)[" ++ DQ ++ "']");
   re_i ("execute git commit\s+-m\s+[" ++ DQ ++ "']([^" ++ DQ ++ "']+)[" ++ DQ ++ "']")].

Definition commitAllPatterns : list RegExp :=
  [re_i ("git commit\s+-am\s+[" ++ DQ ++ "']([^" ++ DQ ++ "']+)[" ++ DQ ++ "']");
   re_i ("run git commit\s+-am\s+[" ++ DQ ++ "']([^" ++ DQ ++ "']+)[" ++ DQ ++ "']");
   re_i ("execute git commit\s+-am\s+[" ++ DQ ++ "']([^" ++ DQ ++ "']+)[" ++ DQ ++ "']")].

Definition pushPatterns : list RegExp :=
  [re_i "git push\s+([^\n]+)";
   re_i "run git push\s+([^\n]+)";
   re_i "execute git push\s+([^\n]+)"].

Definition addMatch : string -> option MatchResult := firstMatch addPatterns.
Definition commitMatch : string -> option MatchResult :=
  firstMatch commitPatterns.
Definition commitAllMatch : string -> option MatchResult :=
  firstMatch commitAllPatterns.
Definition pushMatch : string -> option MatchResult := firstMatch pushPatterns.


(** [m && m[1]]. *)
Definition hasGroup1 (m : option MatchResult) : option string :=
  match m with
  | Some r => if nonEmpty (groupText 1 r) then Some (groupText 1 r) else None
  | None => None
  end.

Definition gitAddCommand (text : string) : string :=
  match hasGroup1 (addMatch text) with
  | Some paths => "git add " ++ paths
  | None => "git add ."                    (* Default to adding all changes *)
  end.

Definition gitCommitCommand (text : string) : string :=
  match hasGroup1 (commitMatch text) with
  | Some msg => "git commit -m " ++ DQ ++ msg ++ DQ
  | None =>
      match hasGroup1 (commitAllMatch text) with
      | Some msg => "git commit -am " ++ DQ ++ msg ++ DQ
      | None => defaultCommitCommand       (* Default commit message *)
      end
  end.

Definition gitPushCommand (text : string) : string :=
  match hasGroup1 (pushMatch text) with
  | Some target => "git push " ++ target
  | None => "git push"
  end.

(** The [if ... else if ...] chain after the loop. *)
Definition gitIntent (command : option string) (text : string)
  : option string :=
  let lower := toLowerCase text in
  if negb (isSet command) && gitStatusIntent lower then Some "git status"
  else if negb (isSet command) && gitAddIntent lower
  then Some (gitAddCommand text)
  else if negb (isSet command) && gitCommitIntent lower
  then Some (gitCommitCommand text)
  else if negb (isSet command) && gitPushIntent lower
  then Some (gitPushCommand text)
  else command.

(** [// Check for thinking content and extract commands from there]. *)
Definition thinkingIntent (command : option string) (text : string)
  : option string :=
  if negb (isSet command) && includes "<think>" text then
    match hasGroup1 (exec thinkRegex text) with
    | Some thinkingContent =>
        if includes "git status" thinkingContent then Some "git status"
        else if includes "git diff" thinkingContent then Some "git diff"
        else if includes "git log" thinkingContent then Some "git log"
        else if includes "git add" thinkingContent then Some "git add ."
        else if includes "git commit" thinkingContent
        then Some defaultCommitCommand
        else if includes "git push" thinkingContent then Some "git push"
        else command
    | None => command
    end
  else command.

(** The command the heuristics settle on, for a table of patterns. *)
Definition inferCommand (patterns : list RegExp) (text : string)
  : option string :=
  thinkingIntent (gitIntent (extractCommand patterns text) text) text.

(** A resolved call: [{name, arguments}]. *)
Record ToolInvocation : Type := mkInvocation {
  name : string;
  arguments : list (string * JsonValue)
}.

Section Explicit.
Context {rt : JsRuntime}.

Definition invokeRegex : RegExp :=
  re ("<invoke name=" ++ DQ ++ "([^" ++ DQ ++ "]+)" ++ DQ ++ ">").

Definition parameterRegex : RegExp :=   (* with the [g] flag *)
  re ("<parameter name=" ++ DQ ++ "([^" ++ DQ ++ "]+)" ++ DQ
      ++ ">([\s\S]*?)<\/parameter>").

(** [try { params[name] = JSON.parse(value) } catch { params[name] =
    value }].  (A parameter named [__proto__], which JavaScript would
    install as the prototype of [params], is outside the model.) *)
Definition parameterValue (paramValue : string) : JsonValue :=
  match JSON_parse paramValue with
  | Some v => v
  | None => JString paramValue
  end.

Definition blockParams (block : string) : list (string * JsonValue) :=
  fold_left
    (fun params m =>
       setProp (groupText 1 m) (parameterValue (groupText 2 m)) params)
    (matchAll parameterRegex block) [].

(** The call an explicit block holds; [None] when its name cannot be
    read ([Could not parse function name]). *)
Definition explicitInvocation (block : string) : option ToolInvocation :=
  match exec invokeRegex block with
  | Some nameMatch => Some (mkInvocation (groupText 1 nameMatch)
                                         (blockParams block))
  | None => None
  end.

(** Intent recovery: the explicit block first; the heuristics only when
    [text.match(explicitFuncCallRegex)] is [null].  [None] means that
    the text is passed on as ordinary content. *)
Definition recover (patterns : list RegExp) (text : string)
  : option ToolInvocation :=
  match exec explicitFuncCallRegex text with
  | Some m => explicitInvocation (groupText 1 m)
  | None =>
      let command := inferCommand patterns text in
      if isSet command
      then Some (mkInvocation "Bash"
                   [("command", JString (match command with Some c => c | None => "" end))])
      else None
  end.
End Explicit.

End Recovery.
Import Recovery.

(** ** Tool dispatch and the Ollama paths of [getCompletion] *)

Section GetCompletion.
Context {rt : JsRuntime}.

(** [err.message || err] inside a template literal. *)
Definition shownError (err : ExecError) : string :=
  if nonEmpty (message err) then message err else errorText err.

Definition fence (body : string) : string :=
  "```" ++ NL ++ body ++ NL ++ "```".

Definition outputContent (command : JsonValue) (cmdOutput : string) : string :=
  "Here's the output of `" ++ toDisplay command ++ "`:" ++ NL ++ NL
  ++ fence cmdOutput.

Definition errorContent (command : JsonValue) (err : ExecError) : string :=
  "Error executing `" ++ toDisplay command ++ "`:" ++ NL ++ NL
  ++ fence (shownError err).

Definition contentChunk (model : string) (text : string)
  (finish : option string) : Chunk :=
  {| model := JString model;
     delta := {| role := Some "assistant";
                 content := ContentValue (JString text);
                 function_call := None |};
     finish_reason := finish |}.

(** [delta: {}, finish_reason: 'stop']. *)
Definition stopChunk (model : string) : Chunk :=
  {| model := JString model;
     delta := {| role := None; content := ContentAbsent;
                 function_call := None |};
     finish_reason := Some "stop" |}.

(** [emitTextStream(content, model)]. *)
Definition emitTextStream (text : string) (model : string) : list Chunk :=
  [contentChunk model text (Some "stop")].

(** [functionName === "Bash" && params.command]: the command to run. *)
Definition bashCommand (inv : ToolInvocation) : option JsonValue :=
  if String.eqb (name inv) "Bash" then
    match lookup "command" (arguments inv) with
    | Some c => if truthy c then Some c else None
    | None => None
    end
  else None.

(** The three chunks of a call that is handed on. *)
Definition functionCallChunks (model : string) (inv : ToolInvocation)
  : list Chunk :=
  [ {| model := JString model;
       delta := {| role := Some "assistant"; content := ContentNull;
                   function_call := Some (FcName (name inv)) |};
       finish_reason := None |};
    {| model := JString model;
       delta := {| role := None; content := ContentNull;
                   function_call :=
                     Some (FcArguments
                             (JSON_stringify (JObject (arguments inv)))) |};
       finish_reason := None |};
    {| model := JString model;
       delta := {| role := None; content := ContentNull;
                   function_call := None |};
       finish_reason := Some "function_call" |} ].

(** The generator [getCompletion] returns for a call (streaming). *)
Definition dispatchStream (model : string) (inv : ToolInvocation)
  : list Chunk :=
  match bashCommand inv with
  | Some command =>
      match execSync command with
      | ExecOutput cmdOutput =>
          [contentChunk model (outputContent command cmdOutput) None;
           stopChunk model]
      | ExecThrows err =>
          [contentChunk model (errorContent command err) None;
           stopChunk model]
      end
  | None => functionCallChunks model inv
  end.

Definition textCompletion (model : string) (text : string) : Completion :=
  {| c_model := model; c_role := "assistant";
     c_content := ContentValue (JString text);
     c_function_call := None; c_finish_reason := "stop" |}.

(** What [getCompletion] returns for a call (non-streaming). *)
Definition dispatchCompletion (model : string) (inv : ToolInvocation)
  : Completion :=
  match bashCommand inv with
  | Some command =>
      match execSync command with
      | ExecOutput cmdOutput => textCompletion model (outputContent command cmdOutput)
      | ExecThrows err => textCompletion model (errorContent command err)
      end
  | None =>
      {| c_model := model; c_role := "assistant"; c_content := ContentNull;
         c_function_call :=
           Some (name inv, JSON_stringify (JObject (arguments inv)));
         c_finish_reason := "function_call" |}
  end.

(** [for await (const chunk of ollamaStream) if (chunk.content)
    accumulatedContent += chunk.content]. *)
Definition accumulate (events : list ContentEvent) : string :=
  concatAll
    (map (fun ev => toDisplay (ev_content ev))
       (filter (fun ev => truthy (ev_content ev)) events)).

(** The chunks of a turn whose accumulated text is [text] (streaming). *)
Definition turnChunks (model : string) (text : string) : list Chunk :=
  match recover commandPatterns text with
  | Some inv => dispatchStream model inv
  | None => emitTextStream text model
  end.

(** [getCompletion] with [opts.stream], Ollama path, from the response body
    on.  When the processor of the body hangs, nothing is ever returned. *)
Definition getCompletionStream (model : string) (reads : list string)
  : Outcome Chunk :=
  match processOllamaStream reads with
  | Completes events => Completes (turnChunks model (accumulate events))
  | Hangs _ => Hangs []
  end.

(** [getCompletion] without [opts.stream], Ollama path; [None] when the
    processor of the body hangs. *)
Definition turnCompletion (model : string) (text : string) : Completion :=
  match recover commandPatterns_nonStreaming text with
  | Some inv => dispatchCompletion model inv
  | None => textCompletion model text
  end.

Definition getCompletionNonStreaming (model : string) (reads : list string)
  : option Completion :=
  match processOllamaStream reads with
  | Completes events => Some (turnCompletion model (accumulate events))
  | Hangs _ => None
  end.

End GetCompletion.

(** ** The messages sent upstream *)

(** A message of [opts.messages]; [msg_rest] stands for its other fields. *)
Record ChatMessage : Type := mkMessage {
  msg_role : string;
  msg_content : JsonValue;
  msg_rest : list (string * JsonValue)
}.

(** An entry of [modelsList] ([../constants/models], not part of the
    sources read here): the list is a parameter of [getModelConfig]. *)
Record ModelConfig : Type := mkModelConfig {
  cfg_model : string;
  customSystemPrompt : option string      (* [None]: no such property *)
}.

(** [getModelConfig(modelName)]: the first entry of that name, category by
    category. *)
Fixpoint getModelConfig (modelsList : list (string * list ModelConfig))
  (modelName : string) : option ModelConfig :=
  match modelsList with
  | [] => None
  | (_, models) :: modelsList' =>
      match find (fun m => String.eqb (cfg_model m) modelName) models with
      | Some m => Some m
      | None => getModelConfig modelsList' modelName
      end
  end.

(** [modelConfig?.customSystemPrompt]. *)
Definition customPromptOf (modelConfig : option ModelConfig) : option string :=
  match modelConfig with
  | Some m => customSystemPrompt m
  | None => None
  end.

Definition systemMessage (prompt : string) : ChatMessage :=
  {| msg_role := "system"; msg_content := JString prompt; msg_rest := [] |}.

(** [modifiedMessages], as [getCompletion] hands it to the Ollama client. *)
Definition modifiedMessages (prompt : option string)
  (messages : list ChatMessage) : list ChatMessage :=
  match prompt with
  | Some p =>
      if nonEmpty p                               (* if (customSystemPrompt) *)
      then systemMessage p
           :: filter (fun msg => negb (String.eqb (msg_role msg) "system"))
                messages
      else messages
  | None => messages
  end.

(** [sendOllamaRequest]: [messages.filter(m => m && m.content)] is what goes
    into the request body. *)
Definition filteredMessages (messages : list ChatMessage) : list ChatMessage :=
  filter (fun m => truthy (msg_content m)) messages.

(** The [messages] of the request body.  Outside the Ollama path the body is
    [opts] itself. *)
Definition requestMessages (isOllama : bool)
  (modelsList : list (string * list ModelConfig)) (modelName : string)
  (messages : list ChatMessage) : list ChatMessage :=
  if isOllama
  then filteredMessages
         (modifiedMessages (customPromptOf (getModelConfig modelsList modelName))
            messages)
  else messages.

(** ** The vocabulary of the properties *)

(** The lines of a text: the complete lines, each without its line feed, and
    what follows the last line feed. *)
Fixpoint cut (s : string) : list string * string :=
  match s with
  | EmptyString => ([], EmptyString)
  | String c s' =>
      let (ls, r) := cut s' in
      if Ascii.eqb c LF then (EmptyString :: ls, r)
      else match ls with
           | l :: ls' => (String c l :: ls', r)
           | [] => ([], String c r)
           end
  end.

(** A text made of the given lines, each ended by a line feed. *)
Definition ndjson (lines : list string) : string :=
  concatAll (map (fun l => l ++ NL) lines).

(** The handling of complete lines one after the other by a handler that
    never takes its [continue] on them. *)
Fixpoint handleLines {St O : Type} (handle : St -> string -> LineAction St O)
  (st : St) (lines : list string) : list O * St :=
  match lines with
  | [] => ([], st)
  | l :: lines' =>
      match handle st (trim l) with
      | Handled st' out =>
          let (outs, final) := handleLines handle st' lines' in
          ((out ++ outs)%list, final)
      | Continue => handleLines handle st lines'
      end
  end.

(** The states the line loop goes through. *)
Inductive reaches {St O : Type} (handle : St -> string -> LineAction St O)
  : LoopState St -> LoopState St -> Prop :=
| reaches_here : forall s, reaches handle s s
| reaches_turn : forall s k s' out s'',
    lineEnd s = Some k ->
    iteration handle s k = (s', out) ->
    reaches handle s' s'' ->
    reaches handle s s''.

(** A state in which the loop spins: a turn yields nothing and leaves the
    state as it is, so the test of the loop never fails again. *)
Definition spins {St O : Type} (handle : St -> string -> LineAction St O)
  (s : LoopState St) : Prop :=
  exists k, lineEnd s = Some k /\ iteration handle s k = (s, []).

(** The lines on which a handler does not [continue]. *)
Definition handled {St O : Type} (handle : St -> string -> LineAction St O)
  (l : string) : Prop :=
  forall st, handle st (trim l) <> Continue.

(** A line is blank when nothing is left of it after [trim]. *)
Definition blank (l : string) : bool := negb (nonEmpty (trim l)).

(** The text a chunk carries: its content, when there is one. *)
Definition chunkText (c : Chunk) : string :=
  match content (delta c) with
  | ContentValue v => toDisplay v
  | _ => EmptyString
  end.

Definition hasContent (c : Chunk) : Prop :=
  exists v, content (delta c) = ContentValue v.

Definition startsCall (c : Chunk) : Prop :=
  exists fname, function_call (delta c) = Some (FcName fname).

(** The chunks of a turn carry the role once: the first one does, it is a
    chunk with content or the start of a call, and no later one does. *)
Definition RoleOnce (chunks : list Chunk) : Prop :=
  exists first rest,
    chunks = first :: rest
    /\ role (delta first) = Some "assistant"
    /\ (hasContent first \/ startsCall first)
    /\ Forall (fun c => role (delta c) = None) rest.

Definition noRole (c : Chunk) : Prop := role (delta c) = None.

(** What a stretch of a turn does to the first-chunk flag: once the flag is
    down no chunk carries the role; while it is up either nothing is
    yielded, or the chunks carry the role once and the flag goes down. *)
Definition RoleStep (isFirstChunk : bool) (out : list Chunk)
  (isFirstChunk' : bool) : Prop :=
  if isFirstChunk
  then (isFirstChunk' = true /\ out = [])
       \/ (isFirstChunk' = false /\ RoleOnce out)
  else isFirstChunk' = false /\ Forall noRole out.

(** How many chunks carry a role. *)
Definition roleCount (chunks : list Chunk) : nat :=
  List.length
    (filter (fun c => match role (delta c) with Some _ => true | None => false end)
       chunks).

(** The chunks among what [createStreamProcessor] yields. *)
Fixpoint builtChunks (l : list Emitted) : list Chunk :=
  match l with
  | [] => []
  | Built c :: l' => c :: builtChunks l'
  | Parsed _ :: l' => builtChunks l'
  end.

(** The text of a list of chunks, and of what [createStreamProcessor]
    yields. *)
Definition chunksText (out : list Chunk) : string :=
  concatAll (map chunkText out).

Definition emittedText (out : list Emitted) : string :=
  chunksText (builtChunks out).

(** The handler gives the text [c] for the line [l], whatever its state. *)
Definition gives {St O : Type} (handle : St -> string -> LineAction St O)
  (text : list O -> string) (l c : string) : Prop :=
  forall st, exists st' out, handle st (trim l) = Handled st' out /\ text out = c.

(** [resp.message.content], read without a test: what the line carries as
    content, [None] when [message] or [content] is missing. *)
Definition contentField (resp : JsonValue) : option JsonValue :=
  match getProp resp "message" with
  | Some message => getProp message "content"
  | None => None
  end.

(** A line of an NDJSON stream that carries the content [c]: a line without
    line feed in it, not blank, that parses to a value whose
    [message.content] is the string [c]. *)
Definition carriesContent {rt : JsRuntime} (l c : string) : Prop :=
  indexOfLF l = None /\ blank l = false
  /\ exists resp, JSON_parse (trim l) = Some resp
                  /\ contentField resp = Some (JString c).

(** The closing line of a stream: [done] is truthy and there is no
    content. *)
Definition closingLine {rt : JsRuntime} (l : string) : Prop :=
  indexOfLF l = None /\ blank l = false
  /\ exists resp, JSON_parse (trim l) = Some resp
                  /\ truthyOpt (getProp resp "done") = true
                  /\ (contentField resp = None
                      \/ contentField resp = Some JNull
                      \/ contentField resp = Some (JString "")).

(** A line that is not JSON. *)
Definition malformedLine {rt : JsRuntime} (l : string) : Prop :=
  indexOfLF l = None /\ JSON_parse (trim l) = None.

Definition isSystem (m : ChatMessage) : bool := String.eqb (msg_role m) "system".

Module RegexShapes.
Import Regex.

(** The pattern of a text taken literally, followed by [r]. *)
Fixpoint literalThen (p : string) (r : regex) : regex :=
  match p with
  | EmptyString => r
  | String c p' => RSeq (RChar c) (literalThen p' r)
  end.

(** The pattern of a text taken literally, as [compile] builds it. *)
Fixpoint literal (p : string) : regex :=
  match p with
  | EmptyString => REmpty
  | String c EmptyString => RChar c
  | String c p' => RSeq (RChar c) (literal p')
  end.

(** [[\s\S]]: any character. *)
Definition anyChar : regex := RClass false [CSpace false; CSpace true].

(** The leftmost place from which [k] goes through. *)
Fixpoint firstSuccess {A : Type} (k : nat -> string -> Captures -> option A)
  (pos : nat) (s : string) (caps : Captures) : option A :=
  match k pos s caps with
  | Some x => Some x
  | None =>
      match s with
      | EmptyString => None
      | String _ s' => firstSuccess k (S pos) s' caps
      end
  end.
End RegexShapes.

Definition openMarker : string := "<function_calls>".
Definition closeMarker : string := "</function_calls>".

(** The pattern of the explicit block, as it is compiled. *)
Definition blockPattern : Regex.regex :=
  RegexShapes.literalThen openMarker
    (Regex.RSeq (Regex.RGroup 1 (Regex.RStar false RegexShapes.anyChar))
       (RegexShapes.literal closeMarker)).

(** Every pattern of the source. *)
Definition sourcePatterns : list Regex.RegExp :=
  (commandPatterns ++ commandPatterns_nonStreaming
   ++ addPatterns ++ commitPatterns ++ commitAllPatterns ++ pushPatterns
   ++ [explicitFuncCallRegex; invokeRegex; parameterRegex; thinkRegex;
       runPrefixRegex])%list.

Definition compiles (p : Regex.RegExp) : bool :=
  match Regex.compile (Regex.source p) with
  | Regex.RFail => false
  | _ => true
  end.

(** A call to Bash with one command. *)
Definition bashCall (command : string) : ToolInvocation :=
  mkInvocation "Bash" [("command", JString command)].

(** ** Examples *)

(** A shell on which every command fails with the given message. *)
Definition failingShell (msg : string) (command : JsonValue) : ExecOutcome :=
  ExecThrows (mkExecError msg ("Error: " ++ msg)).

(** The runtime of the examples. *)
Definition exampleRuntime : JsRuntime :=
  NodeJson.nodeRuntime (failingShell "Command failed: add").

(** The input of the git-add property of the specification. *)
Definition gitAddText : string := "I'll run git add to stage changes".

(** An Ollama line with a content, and the closing line without one. *)
Definition contentLine (text : string) : string :=
  dq "{'model':'qwq','message':{'role':'assistant','content':'"
  ++ text ++ dq "'},'done':false}".

Definition doneLine : string := dq "{'model':'qwq','done':true}".

(** A configuration with a custom system prompt for [qwq]. *)
Definition exampleModels : list (string * list ModelConfig) :=
  [("ollama", [mkModelConfig "llama3" None;
               mkModelConfig "qwq" (Some "Answer briefly.")])].

Definition exampleMessages : list ChatMessage :=
  [mkMessage "system" (JString "You are a helpful assistant.") [];
   mkMessage "user" (JString "Show me the status.") [];
   mkMessage "assistant" JNull
     [("function_call", JObject [("name", JString "Bash")])];
   mkMessage "user" (JString "Thanks.") []].

(** A text that holds a command in prose and an explicit block. *)
Definition proseBeforeBlock : string := "I'll run `ls` first. ".

Definition readBlockBody : string :=
  dq "<invoke name='Read'><parameter name='file_path'>'/tmp/a'</parameter></invoke>".

(** A block that cannot be read, then prose that names a command, then a
    well-formed block. *)
Definition unreadableThenWellFormed : string :=
  openMarker ++ "oops" ++ closeMarker ++ " Please run `ls`. "
  ++ openMarker ++ readBlockBody ++ closeMarker.

(** ** Configuration and routing (openai.ts, [getCompletion]) *)

Inductive ModelType : Type := Large | Small.

(** What [getGlobalConfig()] gives; [None] is a property that is not set. *)
Record GlobalConfig : Type := mkGlobalConfig {
  largeModelApiKey : option string;
  smallModelApiKey : option string;
  largeModelBaseURL : option string;
  smallModelBaseURL : option string;
  largeModelProvider : option string;
  smallModelProvider : option string
}.

Definition apiKeyOf (type : ModelType) (config : GlobalConfig) : option string :=
  match type with
  | Large => largeModelApiKey config
  | Small => smallModelApiKey config
  end.

Definition baseURLOf (type : ModelType) (config : GlobalConfig) : option string :=
  match type with
  | Large => largeModelBaseURL config
  | Small => smallModelBaseURL config
  end.

Definition providerOf (type : ModelType) (config : GlobalConfig) : option string :=
  match type with
  | Large => largeModelProvider config
  | Small => smallModelProvider config
  end.

(** [s && test(s)] for a string that may be missing. *)
Definition andThen (s : option string) (test : string -> bool) : bool :=
  match s with
  | Some u => nonEmpty u && test u
  | None => false
  end.

Definition isString (s : option string) (v : string) : bool :=
  match s with
  | Some u => String.eqb u v
  | None => false
  end.

(** [isOllama] of [getCompletion]: by the URL, the name of the model, or
    the provider of the model asked for. *)
Definition isOllama (type : ModelType) (config : GlobalConfig) (model : string)
  : bool :=
  andThen (baseURLOf type config)
    (fun u => includes "ollama" u || includes "192.168.191.55" u)
  || andThen (Some model)
       (fun m => includes "hf.co/" m || includes "ollama" m || includes "qwq" m)
  || isString (providerOf type config) "ollama".

(** [isOllama] of [createStreamProcessor]: by the URL or the provider of
    the large model. *)
Definition streamIsOllama (config : GlobalConfig) : bool :=
  match largeModelBaseURL config with
  | Some u => includes "ollama" u
  | None => false
  end
  || isString (largeModelProvider config) "ollama".

(** The headers of the request. *)
Definition requestHeaders (type : ModelType) (config : GlobalConfig)
  (model : string) : list (string * string) :=
  ("Content-Type", "application/json")
  :: match apiKeyOf type config with
     | Some apiKey =>
         if negb (isOllama type config model) && nonEmpty apiKey
         then [("Authorization", "Bearer " ++ apiKey)]
         else []
     | None => []
     end.

(** [`${baseURL}`]. *)
Definition shownURL (baseURL : option string) : string :=
  match baseURL with Some u => u | None => "undefined" end.

(** The address the request goes to: [sendOllamaRequest] posts to
    [/api/chat], the other path to [/chat/completions]. *)
Definition endpoint (type : ModelType) (config : GlobalConfig) (model : string)
  : string :=
  if isOllama type config model
  then shownURL (baseURLOf type config) ++ "/api/chat"
  else shownURL (baseURLOf type config) ++ "/chat/completions".

(** [getCompletion] with [opts.stream], from the body of a response that is
    [ok] on: the Ollama path, or the processor of the other path, which
    reads the configuration again. *)
Definition getCompletionStreaming {rt : JsRuntime} (type : ModelType)
  (config : GlobalConfig) (model : string) (reads : list string)
  : Outcome Emitted :=
  if isOllama type config model then
    match getCompletionStream model reads with
    | Completes chunks => Completes (map Built chunks)
    | Hangs chunks => Hangs (map Built chunks)
    end
  else createStreamProcessor (streamIsOllama config) reads.

(** The body [sendOllamaRequest] posts. *)
Record OllamaRequestBody : Type := mkOllamaRequestBody {
  body_model : string;
  body_messages : list ChatMessage;
  body_stream : bool;
  body_temperature : JsonValue;
  body_num_predict : JsonValue
}.

(** [temperature] and [max_tokens] are those of [opts]; [None] is
    [undefined]. *)
Definition ollamaRequestBody (model : string) (messages : list ChatMessage)
  (temperature max_tokens : option JsonValue) : OllamaRequestBody :=
  {| body_model := model;
     body_messages := filteredMessages messages;
     body_stream := true;
     body_temperature := orElse temperature (JNumber true "0.7");
     body_num_predict := orElse max_tokens (JNumber true "4096") |}.

(** The body of the Ollama path of [getCompletion], streaming or not. *)
Definition getCompletionRequestBody
  (modelsList : list (string * list ModelConfig)) (model : string)
  (messages : list ChatMessage) (temperature max_tokens : option JsonValue)
  : OllamaRequestBody :=
  ollamaRequestBody model
    (modifiedMessages (customPromptOf (getModelConfig modelsList model)) messages)
    temperature max_tokens.

(** The opening of the tag that names the tool of an explicit block. *)
Definition invokeOpen : string := "<invoke name=" ++ DQ.

(** A chunk of the pass-through: a content that is truthy, no call, and a
    finish reason that is [null] or ['stop']. *)
Definition contentOnly (c : Chunk) : Prop :=
  (exists v, content (delta c) = ContentValue v /\ truthy v = true)
  /\ function_call (delta c) = None
  /\ (finish_reason c = None \/ finish_reason c = Some "stop").

(** The line that closes an event stream. *)
Definition doneSentinel : string := "data: [DONE]".

(** What a line of an event stream holds: the payload of a [data: ] line,
    parsed; nothing for any other line (an empty line, a comment, another
    field), and nothing for a payload that is not JSON. *)
Definition eventPayload {rt : JsRuntime} (l : string) : list JsonValue :=
  if startsWith "data: " (trim l) then
    match JSON_parse (trim (drop 6 (trim l))) with
    | Some v => [v]
    | None => []
    end
  else [].

(** The same for the text after the last line feed, where the closing line
    may stand without its line feed. *)
Definition lastPayload {rt : JsRuntime} (r : string) : list JsonValue :=
  if String.eqb (trim r) doneSentinel then [] else eventPayload r.

(** A configuration where the small model is served by an OpenAI-compatible
    endpoint and the large model by Ollama. *)
Definition mixedConfig : GlobalConfig :=
  {| largeModelApiKey := None;
     smallModelApiKey := Some "sk-example";
     largeModelBaseURL := Some "http://localhost:11434";
     smallModelBaseURL := Some "https://api.example.com/v1";
     largeModelProvider := Some "ollama";
     smallModelProvider := Some "openai" |}.

(** ** What a pattern needs in a text *)

Module PatternNeeds.
Import Regex.

(** The pattern starts with the letters of [w], whatever their case. *)
Fixpoint startsLit (w : string) (r : regex) : bool :=
  match w with
  | EmptyString => true
  | String c w' =>
      match r with
      | RSeq (RChar a) r' => Ascii.eqb (lowerChar a) c && startsLit w' r'
      | RChar a => Ascii.eqb (lowerChar a) c && negb (nonEmpty w')
      | _ => false
      end
  end.

(** A check that every match of the pattern, taken without regard to
    case, holds the word [w]: the word is spelled out on every path
    through the pattern. *)
Fixpoint needs (w : string) (r : regex) : bool :=
  startsLit w r
  || match r with
     | RSeq r1 r2 => needs w r1 || needs w r2
     | RAlt r1 r2 => needs w r1 && needs w r2
     | RGroup _ r1 => needs w r1
     | _ => false
     end.

(** The words one of which every pattern of the tables needs. *)
Definition tableWords : list string := ["run"; "execute"; "git"].

Definition needsTableWord (p : RegExp) : bool :=
  ignoreCase p && existsb (fun w => needs w (compile (source p))) tableWords.

End PatternNeeds.

(** The words without which neither a pattern of the tables nor a detector
    of the git commands finds anything. *)
Definition triggerWords : list string :=
  ["run"; "execute"; "git"; "status"; "changes"].

(** A text that holds no trigger word, in any case, and no opening of a
    thinking block or of an explicit block. *)
Definition plainText (text : string) : Prop :=
  Forall (fun w => includes w (toLowerCase text) = false) triggerWords
  /\ includes "<think>" text = false
  /\ includes openMarker text = false.

(** The first pattern of both tables, [run\s+`([^`]+)`], as it is
    compiled. *)
Definition notBackquote : Regex.regex := Regex.RClass true [Regex.CChar "`"].

Definition whiteSpace : Regex.regex := Regex.RClass false [Regex.CSpace false].

Definition runBackquote : Regex.regex :=
  RegexShapes.literalThen "run"
    (Regex.RSeq (Regex.RPlus true whiteSpace)
       (Regex.RSeq (Regex.RChar "`")
          (Regex.RSeq (Regex.RGroup 1 (Regex.RPlus true notBackquote))
             (Regex.RChar "`")))).

(** The report of the run of a command: what [execSync] gave, or the
    message of what it threw, in a fenced block. *)
Definition runReport {rt : JsRuntime} (command : string) : string :=
  match execSync (JString command) with
  | ExecOutput cmdOutput =>
      "Here's the output of `" ++ command ++ "`:" ++ NL ++ NL
      ++ "```" ++ NL ++ cmdOutput ++ NL ++ "```"
  | ExecThrows err =>
      "Error executing `" ++ command ++ "`:" ++ NL ++ NL
      ++ "```" ++ NL
      ++ (if nonEmpty (message err) then message err else errorText err)
      ++ NL ++ "```"
  end.

(** ** [getCompletion] from the answer of [fetch] on *)

(** What [fetch] gives, as far as [getCompletion] looks at it: it rejects
    with an error, or resolves to a response with its [ok] flag and its
    body, read as a text or piece by piece. *)
Record Response : Type := mkResponse {
  ok : bool;
  bodyText : string;                 (* [await response.text()] *)
  bodyReads : list string            (* what the reader of [response.body] delivers *)
}.

Inductive Fetched : Type :=
| Rejects (error : string)
| Resolves (response : Response).

(** What is thrown: an [Error] with its message, the [TypeError] of reading
    a property of [null], or the [SyntaxError] of [response.json()]. *)
Inductive Thrown : Type :=
| ErrorThrown (message : string)
| TypeErrorThrown
| SyntaxErrorThrown.

(** What [getCompletion] resolves to. *)
Inductive Answer : Type :=
| StreamOf (chunks : Outcome Emitted)      (* an async iterable of chunks *)
| CompletionOf (completion : Completion)
| JsonOf (body : JsonValue)
| NoAnswer.                                (* the promise never settles *)

Inductive Result : Type :=
| Returns (answer : Answer)
| Throws (thrown : Thrown).

Section Failures.
Context {rt : JsRuntime}.

(** [errorData.error?.message || JSON.stringify(errorData)] inside a
    template literal, for an [errorData] that is not [null]. *)
Definition errorDetail (errorData : JsonValue) : string :=
  match
    match getProp errorData "error" with
    | Some JNull | None => None
    | Some error => getProp error "message"
    end
  with
  | Some m => if truthy m then toDisplay m else JSON_stringify errorData
  | None => JSON_stringify errorData
  end.

(** [errorData = { error: { message: text } }], of the [catch]. *)
Definition textErrorData (text : string) : JsonValue :=
  JObject [("error", JObject [("message", JString text)])].

(** What the streaming path throws for a response that is not [ok].  The
    [console.error] inside the [try] reads [errorData.error], which throws
    on [null] and sends [null] to the [catch] too. *)
Definition streamingFailure (response : Response) : Thrown :=
  ErrorThrown
    ("API request failed: "
     ++ match JSON_parse (bodyText response) with
        | Some JNull | None => errorDetail (textErrorData (bodyText response))
        | Some errorData => errorDetail errorData
        end).

(** What the non-streaming path throws: there the [try] only parses the
    body, and [errorData.error] is read outside of it. *)
Definition nonStreamingFailure (response : Response) : Thrown :=
  match JSON_parse (bodyText response) with
  | Some JNull => TypeErrorThrown
  | Some errorData => ErrorThrown ("API request failed: " ++ errorDetail errorData)
  | None =>
      ErrorThrown ("API request failed: "
                   ++ errorDetail (textErrorData (bodyText response)))
  end.

(** [sendOllamaRequest] from the answer of [fetch] on: the body of the
    response, or what it throws. *)
Definition sendOllamaRequest (fetched : Fetched) : Thrown + list string :=
  match fetched with
  | Rejects error => inl (ErrorThrown error)
  | Resolves response =>
      if ok response then inr (bodyReads response)
      else inl (ErrorThrown ("Ollama API error: " ++ bodyText response))
  end.

(** [getCompletion(type, opts)], where [stream] is [opts.stream] and
    [model] is [opts.model].  Every [catch] of it logs and throws again. *)
Definition getCompletion (type : ModelType) (config : GlobalConfig)
  (model : string) (stream : bool) (fetched : Fetched) : Result :=
  if isOllama type config model then
    match sendOllamaRequest fetched with
    | inl thrown => Throws thrown
    | inr reads =>
        if stream then
          match getCompletionStream model reads with
          | Completes chunks => Returns (StreamOf (Completes (map Built chunks)))
          | Hangs _ => Returns NoAnswer
          end
        else
          match getCompletionNonStreaming model reads with
          | Some completion => Returns (CompletionOf completion)
          | None => Returns NoAnswer
          end
    end
  else
    match fetched with
    | Rejects error => Throws (ErrorThrown error)
    | Resolves response =>
        if stream then
          if ok response
          then Returns (StreamOf (createStreamProcessor (streamIsOllama config)
                                    (bodyReads response)))
          else Throws (streamingFailure response)
        else
          if ok response then
            match JSON_parse (bodyText response) with
            | Some body => Returns (JsonOf body)
            | None => Throws SyntaxErrorThrown
            end
          else Throws (nonStreamingFailure response)
    end.

End Failures.

(** * Properties *)

(** Every pattern of the source is inside the grammar that [Regex.compile]
    reads. *)
Lemma sourcePatterns_compile : forallb compiles sourcePatterns = true.
Proof. vm_compute. reflexivity. Qed.

(** ** Strings *)

Section StringFacts.

Lemma append_nil_r (s : string) : s ++ "" = s.
Proof. induction s as [|c s IH]; simpl; [reflexivity | now rewrite IH]. Qed.

Lemma append_assoc (a b c : string) : (a ++ b) ++ c = a ++ (b ++ c).
Proof. induction a as [|x a IH]; simpl; [reflexivity | now rewrite IH]. Qed.

Lemma length_append (a b : string) :
  String.length (a ++ b) = String.length a + String.length b.
Proof. induction a as [|x a IH]; simpl; [reflexivity | now rewrite IH]. Qed.

Lemma startsWith_append (p s : string) : startsWith p (p ++ s) = true.
Proof.
  induction p as [|c p IH]; simpl; [reflexivity|].
  now rewrite Ascii.eqb_refl.
Qed.

Lemma startsWith_refl (s : string) : startsWith s s = true.
Proof. rewrite <- (append_nil_r s) at 2. apply startsWith_append. Qed.

Lemma includes_here (p s : string) : startsWith p s = true -> includes p s = true.
Proof. intros H. destruct s; simpl in *; now rewrite H. Qed.

Lemma includes_later (p : string) (c : ascii) (s : string) :
  includes p s = true -> includes p (String c s) = true.
Proof. intros H. simpl. rewrite H. apply orb_true_r. Qed.

Lemma includes_append (a p b : string) : includes p (a ++ p ++ b) = true.
Proof.
  induction a as [|c a IH]; simpl append.
  - apply includes_here, startsWith_append.
  - now apply includes_later.
Qed.

Lemma includes_refl (s : string) : includes s s = true.
Proof. apply includes_here, startsWith_refl. Qed.

Lemma includes_empty (s : string) : includes "" s = true.
Proof. apply includes_here. reflexivity. Qed.

(** Lower-casing both sides keeps an occurrence. *)
Lemma startsWith_toLowerCase (p s : string) :
  startsWith p s = true ->
  startsWith (toLowerCase p) (toLowerCase s) = true.
Proof.
  revert s. induction p as [|c p IH]; intros [|d s]; simpl; try easy.
  intros H. apply andb_true_iff in H as [Hc Hp].
  apply Ascii.eqb_eq in Hc. subst d.
  rewrite Ascii.eqb_refl. now apply IH.
Qed.

Lemma includes_toLowerCase (p s : string) :
  includes p s = true ->
  includes (toLowerCase p) (toLowerCase s) = true.
Proof.
  induction s as [|d s IH]; simpl; intros H.
  - rewrite orb_false_r in H.
    apply (startsWith_toLowerCase p "") in H. simpl in H.
    now rewrite H.
  - apply orb_true_iff in H as [H|H].
    + apply (startsWith_toLowerCase p (String d s)) in H. simpl in H.
      now rewrite H.
    + rewrite (IH H). apply orb_true_r.
Qed.

End StringFacts.

(** ** The messages sent upstream (C9) *)

Section Messages.

Lemma filter_filter {A : Type} (f g : A -> bool) (l : list A) :
  filter f (filter g l) = filter (fun x => g x && f x) l.
Proof.
  induction l as [|x l IH]; simpl; [reflexivity|].
  destruct (g x); simpl; [destruct (f x)|]; now rewrite IH.
Qed.

Lemma filter_ext' {A : Type} (f g : A -> bool) (l : list A) :
  (forall x, f x = g x) -> filter f l = filter g l.
Proof.
  intros H. induction l as [|x l IH]; simpl; [reflexivity|].
  now rewrite H, IH.
Qed.

(** With a custom prompt: the custom system message, then the messages of
    the list that are no system message and have a truthy content, in
    their order. *)
Lemma requestMessages_custom modelsList modelName messages cfg p :
  getModelConfig modelsList modelName = Some cfg ->
  customSystemPrompt cfg = Some p ->
  nonEmpty p = true ->
  requestMessages true modelsList modelName messages
  = systemMessage p
    :: filter (fun m => negb (isSystem m) && truthy (msg_content m)) messages.
Proof.
  intros Hcfg Hp Hne. unfold requestMessages, modifiedMessages, customPromptOf.
  rewrite Hcfg, Hp, Hne. unfold filteredMessages. simpl. rewrite Hne.
  f_equal. apply filter_filter.
Qed.

Lemma requestMessages_plain modelsList modelName messages :
  match customPromptOf (getModelConfig modelsList modelName) with
  | Some p => nonEmpty p = false
  | None => True
  end ->
  requestMessages true modelsList modelName messages
  = filter (fun m => truthy (msg_content m)) messages.
Proof.
  intros H. unfold requestMessages, modifiedMessages.
  destruct (customPromptOf _) as [p|]; [rewrite H|]; reflexivity.
Qed.

End Messages.

(** C9, as the code has it.  On the Ollama path, with a custom system prompt
    that is not empty, [getCompletion] hands the client the custom system
    message followed by the messages that are no system message, unchanged
    and in their order; with no custom prompt (or an empty one) it hands over
    the list as it is.  The client then leaves out of the request body every
    message whose content is empty or missing.  Outside the Ollama path the
    messages are sent as given. *)
Theorem upstream_messages_custom_prompt :
  forall (modelsList : list (string * list ModelConfig)) (modelName : string)
         (messages : list ChatMessage),
    let prompt := customPromptOf (getModelConfig modelsList modelName) in
    (forall p, prompt = Some p -> nonEmpty p = true ->
       modifiedMessages prompt messages
       = systemMessage p :: filter (fun m => negb (isSystem m)) messages
       /\ requestMessages true modelsList modelName messages
          = systemMessage p
            :: filter (fun m => negb (isSystem m) && truthy (msg_content m))
                 messages)
    /\ (prompt = None \/ prompt = Some "" ->
        modifiedMessages prompt messages = messages
        /\ requestMessages true modelsList modelName messages
           = filter (fun m => truthy (msg_content m)) messages)
    /\ requestMessages false modelsList modelName messages = messages.
Proof.
  intros modelsList modelName messages prompt. repeat split.
  - subst prompt. intros. rewrite H. simpl. now rewrite H0.
  - unfold requestMessages. fold prompt. rewrite H. simpl. rewrite H0.
    unfold filteredMessages. simpl. rewrite H0. f_equal. apply filter_filter.
  - destruct H as [H|H]; rewrite H; reflexivity.
  - apply requestMessages_plain. fold prompt.
    destruct H as [H|H]; rewrite H; simpl; auto.
Qed.

Lemma upstream_messages_custom_prompt_witness :
  requestMessages true exampleModels "qwq" exampleMessages
  = [systemMessage "Answer briefly.";
     mkMessage "user" (JString "Show me the status.") [];
     mkMessage "user" (JString "Thanks.") []]
  /\ requestMessages true exampleModels "llama3" exampleMessages
     = [mkMessage "system" (JString "You are a helpful assistant.") [];
        mkMessage "user" (JString "Show me the status.") [];
        mkMessage "user" (JString "Thanks.") []].
Proof.
  destruct (upstream_messages_custom_prompt exampleModels "qwq" exampleMessages)
    as [Hcustom _].
  destruct (upstream_messages_custom_prompt exampleModels "llama3"
              exampleMessages) as [_ [Hplain _]].
  split.
  - destruct (Hcustom "Answer briefly." eq_refl eq_refl) as [_ H].
    rewrite H. reflexivity.
  - destruct (Hplain (or_introl eq_refl)) as [_ H]. rewrite H. reflexivity.
Defined.

(** C9 as it is stated fails: the assistant message of the example has no
    content, and the request body does not hold it. *)
Lemma upstream_messages_drop_empty_content :
  requestMessages true exampleModels "qwq" exampleMessages
  <> systemMessage "Answer briefly."
     :: filter (fun m => negb (isSystem m)) exampleMessages.
Proof. vm_compute. intros H. discriminate H. Qed.

(** ** The outcome of a Bash call that fails (C7) *)

Section ToolOutcome.
Context {rt : JsRuntime}.

Lemma includes_shownError (err : ExecError) :
  includes (message err) (shownError err) = true.
Proof.
  unfold shownError. destruct (message err) as [|c m] eqn:E; simpl nonEmpty; cbv iota.
  - apply includes_empty.
  - apply includes_refl.
Qed.


End ToolOutcome.


(** ** Lines without content (C10) *)

Section NoContent.
Context {rt : JsRuntime}.

Lemma messageContent_none (resp : JsonValue) :
  contentField resp = None \/ contentField resp = Some JNull
  \/ contentField resp = Some (JString "") ->
  messageContent resp = None.
Proof.
  unfold contentField, messageContent.
  destruct (getProp resp "message") as [m|]; [|reflexivity].
  intros [H|[H|H]]; rewrite H; destruct (truthy m); reflexivity.
Qed.

End NoContent.

(** C10.  A line that parses and whose [message.content] is missing,
    [null] or the empty string gives no chunk, in none of the processors,
    and leaves the first-chunk flag as it is.  So the closing line
    [{"done": true}] gives nothing, and the output of a processor can end
    without a chunk whose finish reason is [stop]: the example stream is one
    content line and the closing line. *)
Theorem line_without_content_yields_nothing :
  (forall (rt : JsRuntime) (line : string) (resp : JsonValue)
          (isFirstChunk : bool),
      JSON_parse line = Some resp ->
      contentField resp = None \/ contentField resp = Some JNull
      \/ contentField resp = Some (JString "") ->
      openaiChunk isFirstChunk line = None
      /\ contentEvent line = None
      /\ builtChunk isFirstChunk line = (isFirstChunk, [])
      /\ (nonEmpty line = true ->
          ollamaStreamLine isFirstChunk line = Handled isFirstChunk []
          /\ ollamaClientLine tt line = Handled tt []
          /\ streamLine true isFirstChunk line = Handled isFirstChunk []))
  /\ (let reads := [contentLine "Hi" ++ NL ++ doneLine ++ NL] in
      exists chunk,
        @createOllamaStreamProcessor exampleRuntime reads = Completes [chunk]
        /\ @createStreamProcessor exampleRuntime true reads
           = Completes [Built chunk]
        /\ chunkText chunk = "Hi"
        /\ finish_reason chunk = None).
Proof.
  split.
  - intros rt line resp isFirstChunk Hparse Hnone.
    apply messageContent_none in Hnone.
    assert (H1 : openaiChunk isFirstChunk line = None).
    { unfold openaiChunk. rewrite Hparse, Hnone. now destruct resp. }
    assert (H2 : contentEvent line = None).
    { unfold contentEvent. rewrite Hparse, Hnone. now destruct resp. }
    assert (H3 : builtChunk isFirstChunk line = (isFirstChunk, [])).
    { unfold builtChunk. now rewrite H1. }
    repeat split; try assumption.
    + unfold ollamaStreamLine. now rewrite H, H1.
    + unfold ollamaClientLine. now rewrite H, H2.
    + unfold streamLine. now rewrite H, H3.
  - eexists. repeat split; vm_compute; reflexivity.
Qed.

Lemma line_without_content_yields_nothing_witness :
  @openaiChunk exampleRuntime true doneLine = None
  /\ @contentEvent exampleRuntime doneLine = None
  /\ @openaiChunk exampleRuntime true
       (dq "{'message':{'role':'assistant','content':''},'done':true}") = None
  /\ @openaiChunk exampleRuntime true
       (dq "{'message':{'content':null},'done':true}") = None.
Proof.
  destruct line_without_content_yields_nothing as [H _].
  refine (conj _ (conj _ (conj _ _))).
  - refine (proj1 (H exampleRuntime doneLine _ true _ _));
      [vm_compute; reflexivity | left; reflexivity].
  - refine (proj1 (proj2 (H exampleRuntime doneLine _ true _ _)));
      [vm_compute; reflexivity | left; reflexivity].
  - refine (proj1 (H exampleRuntime _ _ true _ _));
      [vm_compute; reflexivity | right; right; reflexivity].
  - refine (proj1 (H exampleRuntime _ _ true _ _));
      [vm_compute; reflexivity | right; left; reflexivity].
Defined.

(** ** The defaults of the heuristics (C2, C3) *)

Section Defaults.
Context {rt : JsRuntime}.

(** Without an explicit block, a command the heuristics settle on becomes a
    call to Bash. *)
Lemma recover_heuristic (patterns : list Regex.RegExp) (text command : string) :
  Regex.exec explicitFuncCallRegex text = None ->
  inferCommand patterns text = Some command ->
  nonEmpty command = true ->
  recover patterns text = Some (bashCall command).
Proof.
  intros Hno Hcmd Hne. unfold recover. rewrite Hno, Hcmd. simpl. now rewrite Hne.
Qed.

(** A command set by the chain of detectors is not looked for again in the
    reasoning block. *)
Lemma thinkingIntent_set (command text : string) :
  nonEmpty command = true ->
  thinkingIntent (Some command) text = Some command.
Proof. intros H. unfold thinkingIntent. simpl. now rewrite H. Qed.

Lemma recover_git_add_default (patterns : list Regex.RegExp) (text : string) :
  Regex.exec explicitFuncCallRegex text = None ->
  isSet (extractCommand patterns text) = false ->
  gitStatusIntent (toLowerCase text) = false ->
  gitAddIntent (toLowerCase text) = true ->
  hasGroup1 (addMatch text) = None ->
  recover patterns text = Some (bashCall "git add .").
Proof.
  intros Hno Hpat Hst Hadd Hpath.
  apply recover_heuristic; [assumption | | reflexivity].
  unfold inferCommand, gitIntent. rewrite Hpat, Hst, Hadd. simpl.
  unfold gitAddCommand. rewrite Hpath. now apply thinkingIntent_set.
Qed.

Lemma recover_git_commit_default (patterns : list Regex.RegExp) (text : string) :
  Regex.exec explicitFuncCallRegex text = None ->
  isSet (extractCommand patterns text) = false ->
  gitStatusIntent (toLowerCase text) = false ->
  gitAddIntent (toLowerCase text) = false ->
  gitCommitIntent (toLowerCase text) = true ->
  hasGroup1 (commitMatch text) = None ->
  hasGroup1 (commitAllMatch text) = None ->
  recover patterns text = Some (bashCall defaultCommitCommand).
Proof.
  intros Hno Hpat Hst Hadd Hcommit Hm Ham.
  apply recover_heuristic; [assumption | | reflexivity].
  unfold inferCommand, gitIntent. rewrite Hpat, Hst, Hadd, Hcommit. simpl.
  unfold gitCommitCommand. rewrite Hm, Ham. now apply thinkingIntent_set.
Qed.

End Defaults.

(** C2, as the code has it.  On the text [I'll run git add to stage changes]
    the pattern [run git (add|...)] of the table matches before the default
    is reached, and the non-streaming path keeps the rest of the line as the
    arguments of the command.  The default [git add .] is what recovery
    returns, with either table, for a text without explicit block on which
    no pattern of the table gives a command, the git-status detector does
    not fire, the git-add detector fires and nothing follows [git add]. *)
Theorem git_add_default :
  forall (rt : JsRuntime),
    recover commandPatterns_nonStreaming gitAddText
    = Some (bashCall "git add to stage changes")
    /\ forall (patterns : list Regex.RegExp) (text : string),
         Regex.exec explicitFuncCallRegex text = None ->
         isSet (extractCommand patterns text) = false ->
         gitStatusIntent (toLowerCase text) = false ->
         gitAddIntent (toLowerCase text) = true ->
         hasGroup1 (addMatch text) = None ->
         recover patterns text = Some (bashCall "git add .").
Proof.
  intros rt. split.
  - vm_compute. reflexivity.
  - intros. now apply recover_git_add_default.
Qed.

Lemma git_add_default_witness :
  @recover exampleRuntime commandPatterns "Stage the changes"
  = Some (bashCall "git add .")
  /\ @recover exampleRuntime commandPatterns_nonStreaming "Stage the changes"
     = Some (bashCall "git add .").
Proof.
  split;
    apply (proj2 (git_add_default exampleRuntime)); vm_compute; reflexivity.
Defined.

(** C2 as it is stated fails on both paths: the streaming path recovers the
    command [add], the non-streaming path [git add to stage changes]. *)
Lemma git_add_text_is_not_defaulted :
  @recover exampleRuntime commandPatterns gitAddText = Some (bashCall "add")
  /\ @recover exampleRuntime commandPatterns_nonStreaming gitAddText
     = Some (bashCall "git add to stage changes")
  /\ @recover exampleRuntime commandPatterns gitAddText
     <> Some (bashCall "git add .")
  /\ @recover exampleRuntime commandPatterns_nonStreaming gitAddText
     <> Some (bashCall "git add .").
Proof.
  refine (conj _ (conj _ (conj _ _))); vm_compute;
    solve [reflexivity | intros H; discriminate H].
Qed.

(** C3, as the code has it.  On the streaming path, a text that holds
    [git commit] and no explicit block, on which no pattern of the table
    gives a command and neither the git-status nor the git-add detector
    fires, and which carries no [-m] and no [-am] message, is recovered as
    the Bash command [git commit -m "Changes from Claude Code session"]. *)
Theorem git_commit_default :
  forall (rt : JsRuntime) (text : string),
    includes "git commit" text = true ->
    Regex.exec explicitFuncCallRegex text = None ->
    isSet (extractCommand commandPatterns text) = false ->
    gitStatusIntent (toLowerCase text) = false ->
    gitAddIntent (toLowerCase text) = false ->
    hasGroup1 (commitMatch text) = None ->
    hasGroup1 (commitAllMatch text) = None ->
    recover commandPatterns text
    = Some (bashCall ("git commit -m " ++ DQ
                      ++ "Changes from Claude Code session" ++ DQ)).
Proof.
  intros rt text Hin Hno Hpat Hst Hadd Hm Ham.
  apply recover_git_commit_default; try assumption.
  unfold gitCommitIntent.
  apply (includes_toLowerCase "git commit") in Hin.
  change (toLowerCase "git commit") with "git commit" in Hin.
  now rewrite Hin.
Qed.

Lemma git_commit_default_witness :
  @recover exampleRuntime commandPatterns "Now git commit"
  = Some (bashCall ("git commit -m " ++ DQ
                    ++ "Changes from Claude Code session" ++ DQ)).
Proof.
  apply (git_commit_default exampleRuntime); vm_compute; reflexivity.
Defined.

(** C3 as it is stated fails: a pattern or a detector that comes first
    decides, and on the non-streaming path the pattern [git (add|...)]
    takes the text [git commit] itself as the command. *)
Lemma git_commit_text_is_not_defaulted :
  includes "git commit" "Check git status, then git commit" = true
  /\ Regex.exec explicitFuncCallRegex "Check git status, then git commit" = None
  /\ includes "-m" "Check git status, then git commit" = false
  /\ @recover exampleRuntime commandPatterns "Check git status, then git commit"
     = Some (bashCall "git status")
  /\ @recover exampleRuntime commandPatterns_nonStreaming "git commit"
     = Some (bashCall "git commit").
Proof.
  refine (conj _ (conj _ (conj _ (conj _ _)))); vm_compute; reflexivity.
Qed.

(** ** The explicit block (C1) *)

Section ExplicitBlock.
Import Regex RegexShapes.

Lemma take_append (a b : string) : take (String.length a) (a ++ b) = a.
Proof. induction a as [|c a IH]; simpl; [now destruct b | now rewrite IH]. Qed.

Lemma drop_append (a b : string) : drop (String.length a) (a ++ b) = b.
Proof. induction a as [|c a IH]; simpl; [now destruct b | exact IH]. Qed.

Lemma clearGroups_nil (caps : Captures) : clearGroups [] caps = caps.
Proof.
  unfold clearGroups. induction caps as [|c caps IH]; simpl; [reflexivity|].
  now f_equal.
Qed.

Section Literal.
Context {A : Type}.
Variable k : nat -> string -> Captures -> option A.

Lemma rmatch_RSeq ci r1 r2 pos s caps :
  rmatch ci (RSeq r1 r2) pos s caps k
  = rmatch ci r1 pos s caps (fun pos' s' caps' => rmatch ci r2 pos' s' caps' k).
Proof. reflexivity. Qed.

Lemma rmatch_RGroup ci n r1 pos s caps :
  rmatch ci (RGroup n r1) pos s caps k
  = rmatch ci r1 pos s caps
      (fun pos' s' caps' => k pos' s' ((n, take (pos' - pos) s) :: caps')).
Proof. reflexivity. Qed.

Lemma rmatch_RStar ci greedy r1 pos s caps :
  rmatch ci (RStar greedy r1) pos s caps k
  = starLoop (rmatch ci r1) greedy (groupsOf r1) k
      (String.length s + 1) pos s caps.
Proof. reflexivity. Qed.

(** A literal prefix is gone through character by character. *)
Lemma rmatch_literalThen (p : string) (r : regex) :
  forall pos s caps,
    rmatch false (literalThen p r) pos (p ++ s) caps k
    = rmatch false r (pos + String.length p) s caps k.
Proof.
  induction p as [|c p IH]; intros pos s caps; simpl.
  - now rewrite Nat.add_0_r.
  - rewrite Ascii.eqb_refl, IH. f_equal. lia.
Qed.

Lemma rmatch_literalThen_fails (p : string) (r : regex) :
  forall pos s caps,
    startsWith p s = false ->
    rmatch false (literalThen p r) pos s caps k = None.
Proof.
  induction p as [|c p IH]; intros pos s caps H; simpl in *; [discriminate|].
  destruct s as [|d s]; [reflexivity|].
  destruct (Ascii.eqb c d); simpl in H; [now apply IH | reflexivity].
Qed.

Lemma rmatch_literal (p : string) :
  forall pos s caps,
    rmatch false (literal p) pos (p ++ s) caps k
    = k (pos + String.length p) s caps.
Proof.
  induction p as [|c p IH]; intros pos s caps.
  - simpl. now rewrite Nat.add_0_r.
  - destruct p as [|c' p].
    + simpl. rewrite Ascii.eqb_refl. f_equal. lia.
    + change (literal (String c (String c' p)))
        with (RSeq (RChar c) (literal (String c' p))).
      change (String c (String c' p) ++ s) with (String c (String c' p ++ s)).
      cbn [rmatch sameChar]. rewrite Ascii.eqb_refl, IH. f_equal. simpl. lia.
Qed.

Lemma rmatch_literal_fails (p : string) :
  forall pos s caps,
    startsWith p s = false ->
    rmatch false (literal p) pos s caps k = None.
Proof.
  induction p as [|c p IH]; intros pos s caps H; [discriminate|].
  destruct s as [|d s].
  - destruct p; reflexivity.
  - simpl in H. destruct p as [|c' p].
    + simpl in *. destruct (Ascii.eqb c d); [discriminate | reflexivity].
    + change (literal (String c (String c' p)))
        with (RSeq (RChar c) (literal (String c' p))).
      cbn [rmatch sameChar].
      destruct (Ascii.eqb c d); simpl in H; [now apply IH | reflexivity].
Qed.

(** The lazy [[\s\S]*?] tries what follows at each place, from the left. *)
Lemma starLoop_lazy_anyChar :
  forall fuel pos s caps,
    String.length s < fuel ->
    starLoop (rmatch false anyChar) false [] k fuel pos s caps
    = firstSuccess k pos s caps.
Proof.
  induction fuel as [|fuel IH]; intros pos s caps Hlen; [lia|].
  cbn [starLoop]. destruct s as [|c s]; cbn [firstSuccess].
  - destruct (k pos "" caps); reflexivity.
  - destruct (k pos (String c s) caps); [reflexivity|].
    rewrite clearGroups_nil. cbn [rmatch anyChar].
    assert (Hc : classHolds false false [CSpace false; CSpace true] c = true).
    { unfold classHolds. simpl. now destruct (isWhiteSpace c). }
    rewrite Hc.
    assert (Hp : (S pos =? pos) = false) by (apply Nat.eqb_neq; lia).
    rewrite Hp. apply IH. simpl in Hlen. lia.
Qed.

Lemma firstSuccess_here pos s caps x :
  k pos s caps = Some x -> firstSuccess k pos s caps = Some x.
Proof. intros H. destruct s; simpl; now rewrite H. Qed.

(** Up to the first occurrence of [p], nothing that needs [p] goes
    through. *)
Lemma firstSuccess_indexOf (p : string) :
  (forall pos s caps, startsWith p s = false -> k pos s caps = None) ->
  forall s pos caps n,
    indexOf p s = Some n ->
    firstSuccess k pos s caps
    = firstSuccess k (pos + n) (drop n s) caps
      /\ startsWith p (drop n s) = true.
Proof.
  intros Hk. induction s as [|c s IH]; intros pos caps n Hn.
  - simpl in Hn. destruct (startsWith p "") eqn:E; [|discriminate].
    injection Hn as <-. simpl. rewrite Nat.add_0_r. now split.
  - cbn [indexOf] in Hn. destruct (startsWith p (String c s)) eqn:E.
    + injection Hn as <-. cbn [drop]. rewrite Nat.add_0_r. now split.
    + destruct (indexOf p s) as [i|] eqn:Ei; [|discriminate].
      injection Hn as <-. cbn [firstSuccess drop].
      rewrite (Hk pos (String c s) caps E).
      destruct (IH (S pos) caps i eq_refl) as [H1 H2].
      rewrite H1. split; [f_equal; lia | exact H2].
Qed.

End Literal.

Lemma search_here ci r pos s m :
  matchAt ci r pos s = Some m -> search ci r pos s = Some m.
Proof. intros H. destruct s; simpl; now rewrite H. Qed.

(** The same for the places at which a search starts. *)
Lemma search_indexOf (p : string) (r : regex) :
  (forall pos s, startsWith p s = false -> matchAt false r pos s = None) ->
  forall s pos n,
    indexOf p s = Some n ->
    search false r pos s = search false r (pos + n) (drop n s).
Proof.
  intros Hk. induction s as [|c s IH]; intros pos n Hn.
  - simpl in Hn. destruct (startsWith p "") eqn:E; [|discriminate].
    injection Hn as <-. simpl drop. now rewrite Nat.add_0_r.
  - cbn [indexOf] in Hn. destruct (startsWith p (String c s)) eqn:E.
    + injection Hn as <-. cbn [drop]. now rewrite Nat.add_0_r.
    + destruct (indexOf p s) as [i|] eqn:Ei; [|discriminate].
      injection Hn as <-. cbn [search drop].
      rewrite (Hk pos (String c s) E), (IH (S pos) i eq_refl).
      f_equal. lia.
Qed.

Lemma explicitFuncCallRegex_compiled :
  compile (source explicitFuncCallRegex) = blockPattern.
Proof. vm_compute. reflexivity. Qed.

(** At an opening marker, the pattern matches up to the first closing marker
    after it, and the group is what lies between the two. *)
Lemma matchAt_block (pos : nat) (body post : string) :
  indexOf closeMarker (body ++ closeMarker ++ post) = Some (String.length body) ->
  matchAt false blockPattern pos
    (openMarker ++ body ++ closeMarker ++ post)
  = Some (mkMatch pos (openMarker ++ body ++ closeMarker) [(1, body)] post).
Proof.
  intros Hclose. unfold matchAt, blockPattern.
  rewrite rmatch_literalThen, rmatch_RSeq, rmatch_RGroup, rmatch_RStar.
  change (groupsOf anyChar) with (@nil nat).
  rewrite starLoop_lazy_anyChar by lia.
  match goal with |- firstSuccess ?k _ _ _ = _ =>
    destruct (firstSuccess_indexOf k closeMarker) with
      (s := body ++ closeMarker ++ post) (pos := pos + String.length openMarker)
      (caps := @nil (nat * string)) (n := String.length body) as [H1 H2]
  end.
  - intros. now apply rmatch_literal_fails.
  - exact Hclose.
  - rewrite H1. rewrite drop_append.
    apply firstSuccess_here. rewrite rmatch_literal.
    replace (pos + String.length openMarker + String.length body
             - (pos + String.length openMarker)) with (String.length body) by lia.
    rewrite take_append. do 3 f_equal.
    replace (pos + String.length openMarker + String.length body
             + String.length closeMarker - pos)
      with (String.length (openMarker ++ body ++ closeMarker))
      by (rewrite !length_append; lia).
    replace (openMarker ++ body ++ closeMarker ++ post)
      with ((openMarker ++ body ++ closeMarker) ++ post)
      by (now rewrite !append_assoc).
    apply take_append.
Qed.

(** The search of the explicit block finds the first opening marker and the
    first closing marker after it. *)
Lemma exec_explicitFuncCallRegex (pre body post : string) :
  indexOf openMarker (pre ++ openMarker ++ body ++ closeMarker ++ post)
  = Some (String.length pre) ->
  indexOf closeMarker (body ++ closeMarker ++ post) = Some (String.length body) ->
  exec explicitFuncCallRegex (pre ++ openMarker ++ body ++ closeMarker ++ post)
  = Some (mkMatch (String.length pre) (openMarker ++ body ++ closeMarker)
            [(1, body)] post).
Proof.
  intros Hopen Hclose. unfold exec.
  rewrite explicitFuncCallRegex_compiled.
  change (ignoreCase explicitFuncCallRegex) with false.
  rewrite (search_indexOf openMarker blockPattern) with (n := String.length pre).
  - rewrite drop_append. simpl Nat.add.
    apply search_here. now apply matchAt_block.
  - intros pos s H. unfold matchAt, blockPattern.
    now apply rmatch_literalThen_fails.
  - exact Hopen.
Qed.

End ExplicitBlock.

Section BlockFound.

Lemma indexOf_here (p s : string) : startsWith p s = true -> indexOf p s = Some 0.
Proof. intros H. destruct s; simpl in *; now rewrite H. Qed.

Lemma indexOf_cons (p : string) (c : ascii) (s : string) :
  indexOf p (String c s)
  = if startsWith p (String c s) then Some 0
    else match indexOf p s with Some i => Some (S i) | None => None end.
Proof. reflexivity. Qed.

(** An occurrence of [p] gives a first occurrence, not later. *)
Lemma indexOf_exists (a p b : string) :
  exists n, indexOf p (a ++ p ++ b) = Some n /\ n <= String.length a.
Proof.
  induction a as [|c a (n & Hn & Hle)].
  - exists 0. split; [|simpl; lia].
    apply indexOf_here. exact (startsWith_append p b).
  - change (String c a ++ p ++ b) with (String c (a ++ p ++ b)).
    rewrite indexOf_cons, Hn.
    destruct (startsWith p (String c (a ++ p ++ b))).
    + exists 0. split; [reflexivity | simpl; lia].
    + exists (S n). split; [reflexivity | simpl; lia].
Qed.

Lemma startsWith_split (p s : string) :
  startsWith p s = true -> s = p ++ drop (String.length p) s.
Proof.
  revert s. induction p as [|c p IH]; intros s H.
  - now destruct s.
  - destruct s as [|d s]; [discriminate|]. simpl in H.
    apply andb_true_iff in H as [Hc Hp]. apply Ascii.eqb_eq in Hc. subst d.
    simpl. f_equal. now apply IH.
Qed.

Lemma indexOf_split (p s : string) :
  forall n, indexOf p s = Some n ->
            s = take n s ++ p ++ drop (n + String.length p) s.
Proof.
  induction s as [|c s IH]; intros n Hn.
  - simpl in Hn. destruct (startsWith p "") eqn:E; [|discriminate].
    injection Hn as <-. destruct p; [reflexivity | discriminate].
  - rewrite indexOf_cons in Hn. destruct (startsWith p (String c s)) eqn:E.
    + injection Hn as <-. now apply startsWith_split.
    + destruct (indexOf p s) as [i|] eqn:Ei; [|discriminate].
      injection Hn as <-. simpl. f_equal. now apply IH.
Qed.

Lemma drop_append_le (n : nat) (a b : string) :
  n <= String.length a -> drop n (a ++ b) = drop n a ++ b.
Proof.
  revert a. induction n as [|n IH]; intros a H.
  - now destruct a; destruct b.
  - destruct a as [|c a]; [simpl in H; lia|]. simpl. apply IH. simpl in H. lia.
Qed.

Lemma length_take (n : nat) (s : string) :
  n <= String.length s -> String.length (take n s) = n.
Proof.
  revert n. induction s as [|c s IH]; intros [|n] H; simpl in *; try lia.
  f_equal. apply IH. lia.
Qed.

Lemma indexOf_le (p s : string) :
  forall n, indexOf p s = Some n -> n <= String.length s.
Proof.
  induction s as [|c s IH]; intros n Hn.
  - simpl in Hn. destruct (startsWith p ""); [|discriminate].
    injection Hn as <-. simpl. lia.
  - rewrite indexOf_cons in Hn. destruct (startsWith p (String c s)).
    + injection Hn as <-. simpl. lia.
    + destruct (indexOf p s) as [i|] eqn:Ei; [|discriminate].
      injection Hn as <-. specialize (IH i eq_refl). simpl. lia.
Qed.

(** In a text that holds an opening marker and a closing marker after it,
    the search of the explicit block finds one: from the first opening
    marker to the first closing marker after it. *)
Lemma exec_explicitFuncCallRegex_found (pre body post : string) :
  exists pre' body' post',
    pre ++ openMarker ++ body ++ closeMarker ++ post
    = pre' ++ openMarker ++ body' ++ closeMarker ++ post'
    /\ String.length pre' <= String.length pre
    /\ Regex.exec explicitFuncCallRegex
         (pre ++ openMarker ++ body ++ closeMarker ++ post)
       = Some (Regex.mkMatch (String.length pre')
                 (openMarker ++ body' ++ closeMarker) [(1, body')] post').
Proof.
  set (text := pre ++ openMarker ++ body ++ closeMarker ++ post).
  destruct (indexOf_exists pre openMarker (body ++ closeMarker ++ post))
    as (n & Hn & Hle). fold text in Hn.
  pose proof (indexOf_split _ _ _ Hn) as Hsplit.
  set (rest := drop (n + String.length openMarker) text) in *.
  assert (Hrest : rest = drop (n + String.length openMarker)
                           (pre ++ openMarker ++ body)
                         ++ closeMarker ++ post).
  { unfold rest, text.
    replace (pre ++ openMarker ++ body ++ closeMarker ++ post)
      with ((pre ++ openMarker ++ body) ++ closeMarker ++ post)
      by now rewrite !append_assoc.
    apply drop_append_le. rewrite !length_append. lia. }
  destruct (indexOf_exists
              (drop (n + String.length openMarker) (pre ++ openMarker ++ body))
              closeMarker post) as (j & Hj & _).
  rewrite <- Hrest in Hj.
  pose proof (indexOf_split _ _ _ Hj) as Hsplit2.
  exists (take n text), (take j rest),
    (drop (j + String.length closeMarker) rest).
  assert (Hlen : String.length (take n text) = n)
    by (apply length_take; now apply (indexOf_le openMarker)).
  assert (Hlenj : String.length (take j rest) = j)
    by (apply length_take; now apply (indexOf_le closeMarker)).
  assert (Htext : text = take n text ++ openMarker ++ take j rest
                         ++ closeMarker
                         ++ drop (j + String.length closeMarker) rest).
  { rewrite Hsplit at 1. fold rest. now rewrite Hsplit2 at 1. }
  split; [exact Htext|]. split; [rewrite Hlen; exact Hle|].
  rewrite Htext at 1. apply exec_explicitFuncCallRegex.
  - rewrite <- Htext, Hlen. exact Hn.
  - rewrite <- Hsplit2, Hlenj. exact Hj.
Qed.

End BlockFound.

(** C1.  A text that holds an explicit block is recovered from the first
    block only: the search finds the block that goes from the first opening
    marker to the first closing marker after it, and intent recovery returns
    what that block holds, whatever the table of heuristic patterns is and
    whatever in the text matches it.  The table is consulted only when the
    search finds no block.  So when [pre] is what precedes the first opening
    marker and [body] what lies between it and the first closing marker
    after it: when the block is well formed (its call [inv] can be read),
    recovery returns [inv] and both paths of [getCompletion] dispatch it;
    when it is not, nothing is recovered and the text is passed on as
    content, whatever follows the block. *)
Theorem explicit_block_wins :
  forall (rt : JsRuntime) (patterns : list Regex.RegExp) (model : string)
         (pre body post : string),
    let text := pre ++ openMarker ++ body ++ closeMarker ++ post in
    (exists block,
        option_map (groupText 1) (Regex.exec explicitFuncCallRegex text)
        = Some block
        /\ recover patterns text = explicitInvocation block)
    /\ (indexOf openMarker text = Some (String.length pre) ->
        indexOf closeMarker (body ++ closeMarker ++ post)
        = Some (String.length body) ->
        recover patterns text = explicitInvocation body
        /\ (forall inv,
               explicitInvocation body = Some inv ->
               recover patterns text = Some inv
               /\ turnChunks model text = dispatchStream model inv
               /\ turnCompletion model text = dispatchCompletion model inv)
        /\ (explicitInvocation body = None ->
            recover patterns text = None
            /\ turnChunks model text
               = [mkChunk (JString model)
                    (mkDelta (Some "assistant") (ContentValue (JString text))
                       None)
                    (Some "stop")]
            /\ turnCompletion model text
               = mkCompletion model "assistant" (ContentValue (JString text))
                   None "stop")).
Proof.
  intros rt patterns model pre body post text. split.
  - destruct (exec_explicitFuncCallRegex_found pre body post)
      as (pre' & body' & post' & _ & _ & Hexec).
    fold text in Hexec. exists body'. unfold recover. rewrite Hexec.
    split; reflexivity.
  - intros Hopen Hclose.
    assert (Hrec : forall ps, recover ps text = explicitInvocation body).
    { intros ps. unfold recover. subst text.
      now rewrite (exec_explicitFuncCallRegex pre body post Hopen Hclose). }
    split; [apply Hrec|]. split.
    + intros inv Hinv. rewrite <- Hinv. split; [apply Hrec|].
      unfold turnChunks, turnCompletion. rewrite !Hrec, Hinv. now split.
    + intros Hnone. rewrite <- Hnone at 1. split; [apply Hrec|].
      unfold turnChunks, turnCompletion. rewrite !Hrec, Hnone. now split.
Qed.

(** The prose alone would be recovered as the Bash command [ls]; with the
    block after it, the call is the [Read] of the block. *)
Lemma explicit_block_wins_witness :
  inferCommand commandPatterns
    (proseBeforeBlock ++ openMarker ++ readBlockBody ++ closeMarker ++ " Done.")
  = Some "ls"
  /\ @recover exampleRuntime commandPatterns
       (proseBeforeBlock ++ openMarker ++ readBlockBody ++ closeMarker ++ " Done.")
     = Some (mkInvocation "Read" [("file_path", JString "/tmp/a")]).
Proof.
  split; [vm_compute; reflexivity|].
  refine (proj1 (proj1 (proj2 (proj2
            (explicit_block_wins exampleRuntime commandPatterns "qwq"
               proseBeforeBlock readBlockBody " Done.") _ _)) _ _));
    vm_compute; reflexivity.
Defined.

(** A text that holds a well-formed block and prose that names a command,
    after a first block that cannot be read: the search stops at the first
    block, so neither the well-formed block nor the command of the prose is
    recovered, and the text is passed on as content. *)
Lemma well_formed_block_after_unreadable_block_is_not_recovered :
  @explicitInvocation exampleRuntime readBlockBody
  = Some (mkInvocation "Read" [("file_path", JString "/tmp/a")])
  /\ inferCommand commandPatterns unreadableThenWellFormed = Some "ls"
  /\ @recover exampleRuntime commandPatterns unreadableThenWellFormed = None
  /\ @recover exampleRuntime commandPatterns_nonStreaming
       unreadableThenWellFormed = None
  /\ @turnChunks exampleRuntime "qwq" unreadableThenWellFormed
     = [mkChunk (JString "qwq")
          (mkDelta (Some "assistant")
             (ContentValue (JString unreadableThenWellFormed)) None)
          (Some "stop")].
Proof.
  repeat split; vm_compute; reflexivity.
Qed.

(** ** Lines *)

Section Lines.

Lemma indexOfLF_cons (c : ascii) (s : string) :
  indexOfLF (String c s) = None <-> Ascii.eqb c LF = false /\ indexOfLF s = None.
Proof.
  cbn [indexOfLF]. destruct (Ascii.eqb c LF); [easy|].
  destruct (indexOfLF s); easy.
Qed.

Lemma indexOfLF_line (l rest : string) :
  indexOfLF l = None -> indexOfLF (l ++ NL ++ rest) = Some (String.length l).
Proof.
  induction l as [|c l IH]; intros H.
  - reflexivity.
  - apply indexOfLF_cons in H as [Hc Hl].
    change (String c l ++ NL ++ rest) with (String c (l ++ NL ++ rest)).
    cbn [indexOfLF String.length]. now rewrite Hc, (IH Hl).
Qed.

Lemma drop_line (l rest : string) :
  drop (String.length l + 1) (l ++ NL ++ rest) = rest.
Proof. induction l as [|c l IH]; [reflexivity | exact IH]. Qed.

Lemma take_line (l rest : string) :
  take (String.length l) (l ++ NL ++ rest) = l.
Proof. apply take_append. Qed.

Lemma ndjson_cons (l : string) (ls : list string) (r : string) :
  ndjson (l :: ls) ++ r = l ++ NL ++ (ndjson ls ++ r).
Proof. unfold ndjson. simpl. now rewrite !append_assoc. Qed.

Lemma length_ndjson (ls : list string) (r : string) :
  List.length ls <= String.length (ndjson ls ++ r).
Proof.
  induction ls as [|l ls IH]; [simpl; lia|].
  rewrite ndjson_cons, !length_append. rewrite length_append in IH.
  change (String.length NL) with 1. simpl List.length. lia.
Qed.

Lemma cut_cons (c : ascii) (s : string) :
  cut (String c s)
  = if Ascii.eqb c LF then (EmptyString :: fst (cut s), snd (cut s))
    else match fst (cut s) with
         | l :: ls => (String c l :: ls, snd (cut s))
         | [] => ([], String c (snd (cut s)))
         end.
Proof. cbn [cut]. now destruct (cut s). Qed.

(** A text is its complete lines, then a rest without line feed. *)
Lemma cut_spec (s : string) :
  s = ndjson (fst (cut s)) ++ snd (cut s)
  /\ indexOfLF (snd (cut s)) = None
  /\ Forall (fun l => indexOfLF l = None) (fst (cut s)).
Proof.
  induction s as [|c s (IH1 & IH2 & IH3)]; [now repeat split|].
  rewrite cut_cons. destruct (Ascii.eqb c LF) eqn:Ec.
  - apply Ascii.eqb_eq in Ec. subst c. cbn [fst snd]. repeat split.
    + rewrite ndjson_cons. simpl. now f_equal.
    + assumption.
    + now constructor.
  - destruct (fst (cut s)) as [|l ls] eqn:El; cbn [fst snd].
    + repeat split.
      * simpl in *. now f_equal.
      * now apply indexOfLF_cons.
      * constructor.
    + inversion IH3 as [|? ? Hl Hls]; subst. repeat split.
      * rewrite ndjson_cons. rewrite ndjson_cons in IH1. simpl. now f_equal.
      * assumption.
      * constructor; [now apply indexOfLF_cons | assumption].
Qed.

Lemma cut_append (s t : string) :
  cut (s ++ t)
  = ((fst (cut s) ++ fst (cut (snd (cut s) ++ t)))%list,
     snd (cut (snd (cut s) ++ t))).
Proof.
  induction s as [|c s IH].
  - simpl. now destruct (cut t).
  - change (String c s ++ t) with (String c (s ++ t)).
    rewrite !cut_cons, IH. cbn [fst snd].
    destruct (Ascii.eqb c LF) eqn:Ec; [reflexivity|].
    destruct (fst (cut s)) as [|l ls]; cbn [fst snd app].
    + change (String c (snd (cut s)) ++ t) with (String c (snd (cut s) ++ t)).
      rewrite cut_cons, Ec. now destruct (fst (cut (snd (cut s) ++ t))).
    + reflexivity.
Qed.

Lemma cut_noLF (b : string) : indexOfLF b = None -> cut b = ([], b).
Proof.
  induction b as [|c b IH]; intros H; [reflexivity|].
  apply indexOfLF_cons in H as [Hc Hb].
  now rewrite cut_cons, Hc, (IH Hb).
Qed.

Lemma cut_line (l s : string) :
  indexOfLF l = None ->
  cut (l ++ NL ++ s) = (l :: fst (cut s), snd (cut s)).
Proof.
  induction l as [|c l IH]; intros H.
  - change ("" ++ NL ++ s) with (String LF s). now rewrite cut_cons.
  - apply indexOfLF_cons in H as [Hc Hl].
    change (String c l ++ NL ++ s) with (String c (l ++ NL ++ s)).
    now rewrite cut_cons, Hc, (IH Hl).
Qed.

Lemma cut_ndjson (lines : list string) (r : string) :
  Forall (fun l => indexOfLF l = None) lines ->
  indexOfLF r = None ->
  cut (ndjson lines ++ r) = (lines, r).
Proof.
  intros Hlines Hr. induction Hlines as [|l ls Hl Hls IH].
  - now apply cut_noLF.
  - now rewrite ndjson_cons, (cut_line _ _ Hl), IH.
Qed.

End Lines.

(** ** The line loop on lines that are handled *)

Section CleanLines.
Context {St O : Type}.
Variable handle : St -> string -> LineAction St O.

Lemma handleLines_app (ls1 ls2 : list string) :
  forall st,
    handleLines handle st (ls1 ++ ls2)
    = ((fst (handleLines handle st ls1)
        ++ fst (handleLines handle (snd (handleLines handle st ls1)) ls2))%list,
       snd (handleLines handle (snd (handleLines handle st ls1)) ls2)).
Proof.
  induction ls1 as [|l ls1 IH]; intros st.
  - simpl. now destruct (handleLines handle st ls2).
  - cbn [app handleLines]. destruct (handle st (trim l)) as [|st' out].
    + apply IH.
    + rewrite IH. destruct (handleLines handle st' ls1) as [o1 s1].
      cbn [fst snd]. now rewrite app_assoc.
Qed.

(** On a buffer of complete lines that are all handled, the loop handles
    them in order and leaves what follows the last line feed. *)
Lemma turns_clean (ls : list string) :
  forall st r fuel,
    indexOfLF r = None ->
    Forall (fun l => indexOfLF l = None) ls ->
    Forall (handled handle) ls ->
    List.length ls <= fuel ->
    turns handle fuel
      (mkLoopState st (ndjson ls ++ r) (indexOfLF (ndjson ls ++ r)))
    = (fst (handleLines handle st ls),
       Some (mkLoopState (snd (handleLines handle st ls)) r None)).
Proof.
  induction ls as [|l ls IH]; intros st r fuel Hr Hlf Hh Hfuel.
  - change (ndjson [] ++ r) with r. rewrite Hr. now destruct fuel.
  - inversion Hlf as [|? ? Hl Hls]; inversion Hh as [|? ? Hhl Hhls]; subst.
    destruct fuel as [|fuel]; [simpl in Hfuel; lia|].
    rewrite ndjson_cons, (indexOfLF_line _ _ Hl).
    cbn [turns lineEnd]. unfold iteration. cbn [buffer state].
    rewrite take_line, drop_line.
    specialize (Hhl st). cbn [handleLines].
    destruct (handle st (trim l)) as [|st' out]; [contradiction|].
    rewrite (IH st' r fuel Hr Hls Hhls) by (simpl in Hfuel; lia).
    now destruct (handleLines handle st' ls).
Qed.

Lemma lineLoop_clean (st : St) (buf : string) :
  Forall (handled handle) (fst (cut buf)) ->
  lineLoop handle st buf
  = (fst (handleLines handle st (fst (cut buf))),
     Some (mkLoopState (snd (handleLines handle st (fst (cut buf))))
             (snd (cut buf)) None)).
Proof.
  intros Hh. destruct (cut_spec buf) as (Hbuf & Hr & Hlf).
  unfold lineLoop. rewrite Hbuf at 1 2 3.
  apply turns_clean; try assumption.
  pose proof (length_ndjson (fst (cut buf)) (snd (cut buf))). lia.
Qed.

(** The reading loop does not depend on how the text is cut into reads, as
    long as every complete line is handled. *)
Lemma readLoop_clean (reads : list string) :
  forall st b,
    indexOfLF b = None ->
    Forall (handled handle) (fst (cut (b ++ concatAll reads))) ->
    readLoop handle st b reads
    = (fst (handleLines handle st (fst (cut (b ++ concatAll reads)))),
       Some (snd (handleLines handle st (fst (cut (b ++ concatAll reads)))),
             snd (cut (b ++ concatAll reads)))).
Proof.
  induction reads as [|chunk reads IH]; intros st b Hb Hh.
  - simpl. rewrite append_nil_r, (cut_noLF b Hb). reflexivity.
  - cbn [concatAll] in *. rewrite <- append_assoc in *.
    rewrite cut_append in *. cbn [fst snd] in *.
    apply Forall_app in Hh as [Hh1 Hh2].
    cbn [readLoop]. rewrite (lineLoop_clean st (b ++ chunk) Hh1).
    cbn [state buffer].
    rewrite IH; [|apply cut_spec | assumption].
    rewrite handleLines_app. reflexivity.
Qed.

End CleanLines.

(** ** Streams of complete lines (C5) *)

Section CleanStreams.
Context {rt : JsRuntime}.

Lemma messageContent_string (resp : JsonValue) (c : string) :
  contentField resp = Some (JString c) ->
  messageContent resp = if nonEmpty c then Some (JString c) else None.
Proof.
  unfold contentField, messageContent.
  destruct (getProp resp "message") as [m|]; [|discriminate].
  intros H. rewrite H. destruct m; try discriminate. reflexivity.
Qed.

Lemma contentField_not_null (resp : JsonValue) (v : JsonValue) :
  contentField resp = Some v -> resp <> JNull.
Proof. intros H ->. discriminate H. Qed.

(** The chunk of a line that carries a content that is not empty. *)
Lemma openaiChunk_content (first : bool) (line : string) (resp : JsonValue)
  (c : string) :
  JSON_parse line = Some resp ->
  contentField resp = Some (JString c) ->
  nonEmpty c = true ->
  exists chunk,
    openaiChunk first line = Some chunk
    /\ chunkText chunk = c
    /\ role (delta chunk) = (if first then Some "assistant" else None)
    /\ content (delta chunk) = ContentValue (JString c).
Proof.
  intros Hp Hc Hne. unfold openaiChunk. rewrite Hp.
  rewrite (messageContent_string _ _ Hc), Hne.
  pose proof (contentField_not_null _ _ Hc) as Hnn.
  destruct resp; try contradiction; eexists; repeat split.
Qed.

Lemma openaiChunk_empty (first : bool) (line : string) (resp : JsonValue) :
  JSON_parse line = Some resp ->
  contentField resp = None \/ contentField resp = Some JNull
  \/ contentField resp = Some (JString "") ->
  openaiChunk first line = None.
Proof.
  intros Hp Hn. apply messageContent_none in Hn.
  unfold openaiChunk. rewrite Hp, Hn. now destruct resp.
Qed.

Lemma contentEvent_content (line : string) (resp : JsonValue) (c : string) :
  JSON_parse line = Some resp ->
  contentField resp = Some (JString c) ->
  nonEmpty c = true ->
  exists ev, contentEvent line = Some ev /\ ev_content ev = JString c.
Proof.
  intros Hp Hc Hne. unfold contentEvent. rewrite Hp.
  rewrite (messageContent_string _ _ Hc), Hne.
  pose proof (contentField_not_null _ _ Hc) as Hnn.
  destruct resp; try contradiction; eexists; repeat split.
Qed.

Lemma contentEvent_empty (line : string) (resp : JsonValue) :
  JSON_parse line = Some resp ->
  contentField resp = None \/ contentField resp = Some JNull
  \/ contentField resp = Some (JString "") ->
  contentEvent line = None.
Proof.
  intros Hp Hn. apply messageContent_none in Hn.
  unfold contentEvent. rewrite Hp, Hn. now destruct resp.
Qed.

(** A line that is not blank is handled by each of the processors. *)
Lemma handled_ollamaStreamLine (l : string) :
  blank l = false -> handled ollamaStreamLine l.
Proof.
  unfold blank, handled, ollamaStreamLine. intros H st.
  apply negb_false_iff in H. rewrite H. simpl.
  now destruct (openaiChunk st (trim l)).
Qed.

Lemma handled_ollamaClientLine (l : string) :
  blank l = false -> handled ollamaClientLine l.
Proof.
  unfold blank, handled, ollamaClientLine. intros H st.
  apply negb_false_iff in H. rewrite H. simpl.
  now destruct (contentEvent (trim l)).
Qed.

Lemma handled_streamLine (l : string) :
  blank l = false -> handled (streamLine true) l.
Proof.
  unfold blank, handled, streamLine. intros H st.
  apply negb_false_iff in H. rewrite H. simpl.
  now destruct (builtChunk st (trim l)).
Qed.

(** On a stream of complete lines without a blank one, followed by a rest
    [r] without line feed, each processor handles the lines in order,
    however the stream is cut into reads.  Only [createStreamProcessor]
    looks at the rest. *)
Lemma createOllamaStreamProcessor_lines (reads lines : list string) (r : string) :
  concatAll reads = ndjson lines ++ r ->
  Forall (fun l => indexOfLF l = None) lines ->
  Forall (fun l => blank l = false) lines ->
  indexOfLF r = None ->
  createOllamaStreamProcessor reads
  = Completes (fst (handleLines ollamaStreamLine true lines)).
Proof.
  intros Htext Hlf Hnb Hr. unfold createOllamaStreamProcessor.
  rewrite readLoop_clean; change ("" ++ concatAll reads) with (concatAll reads);
    rewrite ?Htext, ?(cut_ndjson _ _ Hlf Hr); try reflexivity.
  cbn [fst]. eapply Forall_impl; [|exact Hnb].
  intros l. apply handled_ollamaStreamLine.
Qed.

Lemma processOllamaStream_lines (reads lines : list string) (r : string) :
  concatAll reads = ndjson lines ++ r ->
  Forall (fun l => indexOfLF l = None) lines ->
  Forall (fun l => blank l = false) lines ->
  indexOfLF r = None ->
  processOllamaStream reads
  = Completes (fst (handleLines ollamaClientLine tt lines)).
Proof.
  intros Htext Hlf Hnb Hr. unfold processOllamaStream.
  rewrite readLoop_clean; change ("" ++ concatAll reads) with (concatAll reads);
    rewrite ?Htext, ?(cut_ndjson _ _ Hlf Hr); try reflexivity.
  cbn [fst]. eapply Forall_impl; [|exact Hnb].
  intros l. apply handled_ollamaClientLine.
Qed.

Lemma createStreamProcessor_lines (reads lines : list string) (r : string) :
  concatAll reads = ndjson lines ++ r ->
  Forall (fun l => indexOfLF l = None) lines ->
  Forall (fun l => blank l = false) lines ->
  indexOfLF r = None ->
  createStreamProcessor true reads
  = Completes (fst (handleLines (streamLine true) true lines)
               ++ flushBuffer true
                    (snd (handleLines (streamLine true) true lines)) r)%list.
Proof.
  intros Htext Hlf Hnb Hr. unfold createStreamProcessor.
  rewrite readLoop_clean; change ("" ++ concatAll reads) with (concatAll reads);
    rewrite ?Htext, ?(cut_ndjson _ _ Hlf Hr); try reflexivity.
  cbn [fst]. eapply Forall_impl; [|exact Hnb].
  intros l. apply handled_streamLine.
Qed.

End CleanStreams.

Section RoundTrip.

Lemma concatAll_app (a b : list string) :
  concatAll (a ++ b) = concatAll a ++ concatAll b.
Proof.
  induction a as [|x a IH]; simpl; [reflexivity|].
  now rewrite IH, append_assoc.
Qed.

Lemma builtChunks_app (a b : list Emitted) :
  builtChunks (a ++ b) = (builtChunks a ++ builtChunks b)%list.
Proof.
  induction a as [|[c|v] a IH]; simpl; [reflexivity | now rewrite IH | exact IH].
Qed.

(** Lines handled one by one, measured by the text they give. *)
Section Measure.
Context {St O : Type}.
Variable handle : St -> string -> LineAction St O.
Variable text : list O -> string.
Hypothesis text_nil : text [] = "".
Hypothesis text_app : forall a b, text (a ++ b) = text a ++ text b.

Lemma handleLines_gives_frames (frames : list (string * string)) :
  Forall (fun f => gives handle text (fst f) (snd f)) frames ->
  forall st,
    text (fst (handleLines handle st (map fst frames)))
    = concatAll (map snd frames).
Proof.
  intros Hframes. induction Hframes as [|[l c] frames Hl _ IH]; intros st.
  - exact text_nil.
  - cbn [map handleLines concatAll fst snd] in *.
    destruct (Hl st) as (st' & out & -> & Hout).
    specialize (IH st').
    destruct (handleLines handle st' (map fst frames)) as [outs fin].
    cbn [fst] in *. now rewrite text_app, Hout, IH.
Qed.

Lemma handleLines_gives (frames : list (string * string)) (final : string) :
  Forall (fun f => gives handle text (fst f) (snd f)) frames ->
  gives handle text final "" ->
  forall st,
    text (fst (handleLines handle st (map fst frames ++ [final])))
    = concatAll (map snd frames).
Proof.
  intros Hframes Hfinal. induction Hframes as [|[l c] frames Hl _ IH]; intros st.
  - cbn [map app handleLines concatAll].
    destruct (Hfinal st) as (st' & out & -> & Hout).
    cbn [fst]. now rewrite app_nil_r.
  - cbn [map app handleLines concatAll fst snd] in *.
    destruct (Hl st) as (st' & out & -> & Hout).
    specialize (IH st').
    destruct (handleLines handle st' (map fst frames ++ [final])) as [outs fin].
    cbn [fst] in *. now rewrite text_app, Hout, IH.
Qed.

End Measure.

Context {rt : JsRuntime}.

Lemma chunksText_app (a b : list Chunk) :
  chunksText (a ++ b) = chunksText a ++ chunksText b.
Proof. unfold chunksText. now rewrite map_app, concatAll_app. Qed.

Lemma emittedText_app (a b : list Emitted) :
  emittedText (a ++ b) = emittedText a ++ emittedText b.
Proof. unfold emittedText. now rewrite builtChunks_app, chunksText_app. Qed.

Lemma accumulate_app (a b : list ContentEvent) :
  accumulate (a ++ b) = accumulate a ++ accumulate b.
Proof. unfold accumulate. now rewrite filter_app, map_app, concatAll_app. Qed.

Lemma nonEmpty_false (c : string) : nonEmpty c = false -> c = "".
Proof. now destruct c. Qed.

Lemma blank_false (l : string) : blank l = false -> nonEmpty (trim l) = true.
Proof. unfold blank. apply negb_false_iff. Qed.

Lemma carriesContent_ollamaStreamLine (l c : string) :
  carriesContent l c -> gives ollamaStreamLine chunksText l c.
Proof.
  intros (_ & Hnb & resp & Hp & Hc) st. unfold ollamaStreamLine.
  rewrite (blank_false _ Hnb). cbn [negb]. destruct (nonEmpty c) eqn:Hne.
  - destruct (openaiChunk_content st _ _ _ Hp Hc Hne) as (ch & -> & Ht & _).
    do 2 eexists. split; [reflexivity|].
    unfold chunksText. simpl. now rewrite Ht, append_nil_r.
  - apply nonEmpty_false in Hne. subst c.
    rewrite (openaiChunk_empty st _ _ Hp) by auto.
    do 2 eexists. split; reflexivity.
Qed.

Lemma carriesContent_streamLine (l c : string) :
  carriesContent l c -> gives (streamLine true) emittedText l c.
Proof.
  intros (_ & Hnb & resp & Hp & Hc) st. unfold streamLine, builtChunk.
  rewrite (blank_false _ Hnb). cbn [negb]. destruct (nonEmpty c) eqn:Hne.
  - destruct (openaiChunk_content st _ _ _ Hp Hc Hne) as (ch & -> & Ht & _).
    do 2 eexists. split; [reflexivity|].
    unfold emittedText, chunksText. simpl. now rewrite Ht, append_nil_r.
  - apply nonEmpty_false in Hne. subst c.
    rewrite (openaiChunk_empty st _ _ Hp) by auto.
    do 2 eexists. split; reflexivity.
Qed.

Lemma carriesContent_ollamaClientLine (l c : string) :
  carriesContent l c -> gives ollamaClientLine accumulate l c.
Proof.
  intros (_ & Hnb & resp & Hp & Hc) st. unfold ollamaClientLine.
  rewrite (blank_false _ Hnb). cbn [negb]. destruct (nonEmpty c) eqn:Hne.
  - destruct (contentEvent_content _ _ _ Hp Hc Hne) as (ev & -> & Hev).
    do 2 eexists. split; [reflexivity|].
    unfold accumulate. cbn [filter]. rewrite Hev. cbn [truthy]. rewrite Hne.
    cbn [map concatAll]. rewrite Hev. apply append_nil_r.
  - apply nonEmpty_false in Hne. subst c.
    rewrite (contentEvent_empty _ _ Hp) by auto.
    do 2 eexists. split; reflexivity.
Qed.

Lemma closingLine_gives_nothing (l : string) :
  closingLine l ->
  gives ollamaStreamLine chunksText l ""
  /\ gives (streamLine true) emittedText l ""
  /\ gives ollamaClientLine accumulate l "".
Proof.
  intros (_ & Hnb & resp & Hp & _ & Hc).
  repeat split; intros st;
    unfold ollamaStreamLine, streamLine, builtChunk, ollamaClientLine;
    rewrite (blank_false _ Hnb); cbn [negb];
    rewrite ?(openaiChunk_empty st _ _ Hp Hc), ?(contentEvent_empty _ _ Hp Hc);
    do 2 eexists; split; reflexivity.
Qed.

End RoundTrip.

(** C5.  Let a stream be N lines that each carry a content string, then a
    closing line with [done] and no content, every line ended by a line
    feed, and let it arrive cut into reads in any way.  Then each stream
    processor returns, and the contents of what it yields, put end to end,
    are the contents of the N lines put end to end, in their order. *)
Theorem ndjson_content_round_trip :
  forall (rt : JsRuntime) (frames : list (string * string)) (final : string)
         (reads : list string),
    Forall (fun f => carriesContent (fst f) (snd f)) frames ->
    closingLine final ->
    concatAll reads = ndjson (map fst frames ++ [final]) ->
    (exists chunks,
        createOllamaStreamProcessor reads = Completes chunks
        /\ chunksText chunks = concatAll (map snd frames))
    /\ (exists events,
           processOllamaStream reads = Completes events
           /\ accumulate events = concatAll (map snd frames))
    /\ (exists emitted,
           createStreamProcessor true reads = Completes emitted
           /\ emittedText emitted = concatAll (map snd frames)).
Proof.
  intros rt frames final reads Hframes Hfinal Htext.
  assert (Hlf : Forall (fun l => indexOfLF l = None) (map fst frames ++ [final])).
  { apply Forall_app. split.
    - apply Forall_map. eapply Forall_impl; [|exact Hframes].
      intros f Hf. apply Hf.
    - constructor; [apply Hfinal | constructor]. }
  assert (Hnb : Forall (fun l => blank l = false) (map fst frames ++ [final])).
  { apply Forall_app. split.
    - apply Forall_map. eapply Forall_impl; [|exact Hframes].
      intros f Hf. apply Hf.
    - constructor; [apply Hfinal | constructor]. }
  destruct (closingLine_gives_nothing _ Hfinal) as (Hf1 & Hf2 & Hf3).
  assert (Htext' : concatAll reads = ndjson (map fst frames ++ [final]) ++ "")
    by now rewrite append_nil_r.
  split; [|split]; eexists; split.
  - apply (createOllamaStreamProcessor_lines _ _ "" Htext' Hlf Hnb eq_refl).
  - apply (handleLines_gives ollamaStreamLine chunksText chunksText_app);
      [|assumption].
    eapply Forall_impl; [|exact Hframes].
    intros f. apply carriesContent_ollamaStreamLine.
  - apply (processOllamaStream_lines _ _ "" Htext' Hlf Hnb eq_refl).
  - apply (handleLines_gives ollamaClientLine accumulate accumulate_app);
      [|assumption].
    eapply Forall_impl; [|exact Hframes].
    intros f. apply carriesContent_ollamaClientLine.
  - rewrite (createStreamProcessor_lines _ _ "" Htext' Hlf Hnb eq_refl).
    unfold flushBuffer. cbn [trim trimStart trimEnd nonEmpty].
    rewrite app_nil_r. reflexivity.
  - apply (handleLines_gives (streamLine true) emittedText emittedText_app);
      [|assumption].
    eapply Forall_impl; [|exact Hframes].
    intros f. apply carriesContent_streamLine.
Qed.

(** Three content lines and the closing line, read in three pieces that cut
    through the lines. *)
Lemma ndjson_content_round_trip_witness :
  let text := ndjson [contentLine "Hel"; contentLine "lo, "; contentLine "world";
                      doneLine] in
  let reads := [take 40 text; take 75 (drop 40 text); drop 115 text] in
  (exists chunks,
      @createOllamaStreamProcessor exampleRuntime reads = Completes chunks
      /\ chunksText chunks = "Hello, world")
  /\ (exists events,
         @processOllamaStream exampleRuntime reads = Completes events
         /\ accumulate events = "Hello, world").
Proof.
  intros text reads.
  destruct (ndjson_content_round_trip exampleRuntime
              [(contentLine "Hel", "Hel"); (contentLine "lo, ", "lo, ");
               (contentLine "world", "world")] doneLine reads) as (H1 & H2 & _).
  - repeat constructor; try (vm_compute; reflexivity);
      eexists; split; vm_compute; reflexivity.
  - repeat split; try (vm_compute; reflexivity).
    eexists. split; [vm_compute; reflexivity|].
    split; [vm_compute; reflexivity | left; vm_compute; reflexivity].
  - vm_compute. reflexivity.
  - split; [exact H1 | exact H2].
Defined.

(** ** The role is carried once (C4) *)

Section RoleInvariant.

Lemma RoleOnce_app (o1 o2 : list Chunk) :
  RoleOnce o1 -> Forall noRole o2 -> RoleOnce (o1 ++ o2).
Proof.
  intros (first & rest & -> & Hr & Hs & Hrest) H2.
  exists first, (rest ++ o2)%list. repeat split; try assumption.
  apply Forall_app. now split.
Qed.

Lemma RoleOnce_count (out : list Chunk) : RoleOnce out -> roleCount out = 1.
Proof.
  intros (first & rest & -> & Hr & _ & Hrest). unfold roleCount. simpl.
  rewrite Hr. simpl. f_equal.
  induction Hrest as [|c rest Hc _ IH]; [reflexivity|].
  simpl. unfold noRole in Hc. now rewrite Hc.
Qed.

Lemma RoleStep_refl (st : bool) : RoleStep st [] st.
Proof. destruct st; simpl; auto. Qed.

Lemma RoleStep_app (a b c : bool) (o1 o2 : list Chunk) :
  RoleStep a o1 b -> RoleStep b o2 c -> RoleStep a (o1 ++ o2) c.
Proof.
  destruct a; simpl.
  - intros [[-> ->]|[-> H1]] H2; simpl in *.
    + exact H2.
    + destruct H2 as [-> H2]. right. split; [reflexivity|].
      now apply RoleOnce_app.
  - intros [-> H1] [-> H2]. split; [reflexivity|].
    apply Forall_app. now split.
Qed.

(** A turn that started with the flag up carries the role once, unless it
    is empty. *)
Lemma RoleStep_turn (out : list Chunk) (st' : bool) :
  RoleStep true out st' -> out = [] \/ (RoleOnce out /\ roleCount out = 1).
Proof.
  intros [[_ ->]|[_ H]]; [now left | right].
  split; [assumption | now apply RoleOnce_count].
Qed.

(** The loops keep the invariant when the handler does. *)
Section Loops.
Context {O : Type}.
Variable handle : bool -> string -> LineAction bool O.
Variable chunksOf : list O -> list Chunk.
Hypothesis chunksOf_nil : chunksOf [] = [].
Hypothesis chunksOf_app :
  forall a b, chunksOf (a ++ b) = (chunksOf a ++ chunksOf b)%list.
Hypothesis handle_role :
  forall st line st' out,
    handle st line = Handled st' out -> RoleStep st (chunksOf out) st'.

Lemma turns_role (fuel : nat) :
  forall s, exists st',
    RoleStep (state s) (chunksOf (fst (turns handle fuel s))) st'
    /\ forall s', snd (turns handle fuel s) = Some s' -> state s' = st'.
Proof.
  induction fuel as [|fuel IH]; intros s.
  - exists (state s). simpl. destruct (lineEnd s); cbn [fst snd];
      rewrite chunksOf_nil; split; try apply RoleStep_refl; intros s' H;
      now inversion H.
  - cbn [turns]. destruct (lineEnd s) as [k|].
    + unfold iteration.
      destruct (handle (state s) (trim (take k (buffer s)))) as [|st1 out] eqn:Eh.
      * destruct (IH (mkLoopState (state s) (drop (k + 1) (buffer s)) (Some k)))
          as (st' & H1 & H2).
        destruct (turns handle fuel _) as [outs fin]. exists st'.
        cbn [fst snd state] in *. now split.
      * destruct (IH (mkLoopState st1 (drop (k + 1) (buffer s))
                        (indexOfLF (drop (k + 1) (buffer s)))))
          as (st' & H1 & H2).
        destruct (turns handle fuel _) as [outs fin]. exists st'.
        cbn [fst snd state] in *. split; [|assumption].
        rewrite chunksOf_app. eapply RoleStep_app; [|exact H1].
        now apply (handle_role _ _ _ _ Eh).
    + exists (state s). cbn [fst snd]. rewrite chunksOf_nil.
      split; [apply RoleStep_refl|]. intros s' H. now inversion H.
Qed.

Lemma readLoop_role (reads : list string) :
  forall st b, exists st',
    RoleStep st (chunksOf (fst (readLoop handle st b reads))) st'
    /\ forall fin, snd (readLoop handle st b reads) = Some fin -> fst fin = st'.
Proof.
  induction reads as [|chunk reads IH]; intros st b.
  - exists st. simpl. rewrite chunksOf_nil. split; [apply RoleStep_refl|].
    intros fin H. now inversion H.
  - cbn [readLoop]. unfold lineLoop.
    destruct (turns_role (String.length (b ++ chunk) + 1)
                (mkLoopState st (b ++ chunk) (indexOfLF (b ++ chunk))))
      as (st1 & H1 & H2).
    destruct (turns handle _ _) as [out [s|]]; cbn [fst snd state] in *.
    + specialize (H2 s eq_refl).
      destruct (IH (state s) (buffer s)) as (st' & H3 & H4).
      destruct (readLoop handle (state s) (buffer s) reads) as [outs fin].
      exists st'. cbn [fst snd] in *. split; [|assumption].
      rewrite chunksOf_app. eapply RoleStep_app; [exact H1|]. now rewrite <- H2.
    + exists st1. split; [assumption|]. intros fin H. discriminate H.
Qed.

End Loops.

Context {rt : JsRuntime}.

(** A chunk built from a line has content, and has the role exactly when the
    flag is up. *)
Lemma openaiChunk_shape (first : bool) (line : string) (chunk : Chunk) :
  openaiChunk first line = Some chunk ->
  role (delta chunk) = (if first then Some "assistant" else None)
  /\ hasContent chunk.
Proof.
  unfold openaiChunk. destruct (JSON_parse line) as [resp|]; [|discriminate].
  destruct resp; try discriminate;
    (destruct (messageContent _) as [c|]; [|discriminate]);
    intros H; injection H as <-; (split; [reflexivity | now exists c]).
Qed.

Lemma openaiChunk_role (first : bool) (line : string) (chunk : Chunk) :
  openaiChunk first line = Some chunk -> RoleStep first [chunk] false.
Proof.
  intros H. destruct (openaiChunk_shape _ _ _ H) as [Hr Hc].
  destruct first; simpl.
  - right. split; [reflexivity|]. exists chunk, []. repeat split; auto.
  - split; [reflexivity|]. now repeat constructor.
Qed.

Lemma ollamaStreamLine_role (st : bool) (line : string) (st' : bool)
  (out : list Chunk) :
  ollamaStreamLine st line = Handled st' out -> RoleStep st out st'.
Proof.
  unfold ollamaStreamLine. destruct (negb (nonEmpty line)); [discriminate|].
  destruct (openaiChunk st line) as [chunk|] eqn:E; intros H; inversion H; subst.
  - now apply (openaiChunk_role _ line).
  - apply RoleStep_refl.
Qed.

Lemma builtChunk_role (st : bool) (line : string) :
  RoleStep st (builtChunks (snd (builtChunk st line))) (fst (builtChunk st line)).
Proof.
  unfold builtChunk. destruct (openaiChunk st line) as [chunk|] eqn:E; simpl.
  - now apply (openaiChunk_role _ line).
  - apply RoleStep_refl.
Qed.

Lemma streamLine_role (st : bool) (line : string) (st' : bool)
  (out : list Emitted) :
  streamLine true st line = Handled st' out -> RoleStep st (builtChunks out) st'.
Proof.
  unfold streamLine. destruct (negb (nonEmpty line)); [discriminate|].
  pose proof (builtChunk_role st line) as Hb.
  destruct (builtChunk st line) as [first o]. intros H. inversion H; subst.
  exact Hb.
Qed.

Lemma flushLines_role (lines : list string) :
  forall st, exists st',
    RoleStep st (builtChunks (flushLines true st lines)) st'.
Proof.
  induction lines as [|line lines IH]; intros st.
  - exists st. apply RoleStep_refl.
  - cbn [flushLines]. destruct (nonEmpty line); [|apply IH].
    pose proof (builtChunk_role st line) as Hb.
    destruct (builtChunk st line) as [first o]. cbn [fst snd] in Hb.
    destruct (IH first) as (st' & H). exists st'.
    rewrite builtChunks_app. eapply RoleStep_app; eassumption.
Qed.

Lemma contentChunk_once (model text : string) (finish : option string)
  (rest : list Chunk) :
  Forall noRole rest -> RoleOnce (contentChunk model text finish :: rest).
Proof.
  intros H. exists (contentChunk model text finish), rest.
  repeat split; auto. left. now exists (JString text).
Qed.

Lemma dispatchStream_once (model : string) (inv : ToolInvocation) :
  RoleOnce (dispatchStream model inv).
Proof.
  unfold dispatchStream. destruct (bashCommand inv) as [command|].
  - destruct (execSync command); apply contentChunk_once;
      now repeat constructor.
  - unfold functionCallChunks. eexists _, _. split; [reflexivity|].
    repeat split; [right; now exists (name inv) | now repeat constructor].
Qed.

Lemma turnChunks_once (model text : string) : RoleOnce (turnChunks model text).
Proof.
  unfold turnChunks. destruct (recover commandPatterns text).
  - apply dispatchStream_once.
  - apply contentChunk_once. constructor.
Qed.

End RoleInvariant.



(** ** A loop that is reported to hang does hang *)

Section Hanging.
Context {St O : Type}.
Variable handle : St -> string -> LineAction St O.

Lemma length_drop (n : nat) (s : string) :
  String.length (drop n s) <= String.length s.
Proof.
  revert s. induction n as [|n IH]; intros [|c s]; simpl; try lia.
  specialize (IH s). lia.
Qed.

(** When the turns given to the loop are used up, it has reached a state in
    which it spins. *)
Lemma turns_none_spins (fuel : nat) :
  forall s,
    String.length (buffer s) < fuel ->
    snd (turns handle fuel s) = None ->
    exists s', reaches handle s s' /\ spins handle s'.
Proof.
  induction fuel as [|fuel IH]; intros [st buf le] Hlen Hnone; [lia|].
  cbn [turns lineEnd] in Hnone. destruct le as [k|]; [|discriminate].
  destruct (iteration handle (mkLoopState st buf (Some k)) k) as [s1 out] eqn:Eit.
  destruct (turns handle fuel s1) as [outs fin] eqn:Et.
  cbn [snd] in Hnone. subst fin.
  destruct buf as [|c buf].
  - unfold iteration in Eit. cbn [buffer state] in Eit.
    replace (take k "") with "" in Eit by now destruct k.
    replace (drop (k + 1) "") with "" in Eit by now destruct k.
    destruct (handle st (trim "")) as [|st' o] eqn:Eh.
    + injection Eit as <- <-.
      exists (mkLoopState st "" (Some k)). split; [constructor|].
      exists k. split; [reflexivity|]. unfold iteration. cbn [buffer state].
      replace (take k "") with "" by now destruct k.
      replace (drop (k + 1) "") with "" by now destruct k.
      now rewrite Eh.
    + injection Eit as <- <-. destruct fuel; discriminate Et.
  - destruct (IH s1) as (s' & Hr & Hs).
    + unfold iteration in Eit. cbn [buffer state] in Eit.
      replace (k + 1) with (S k) in Eit by lia. cbn [drop] in Eit.
      pose proof (length_drop k buf) as Hd. cbn [buffer String.length] in Hlen.
      destruct (handle st _); injection Eit as <- <-; cbn [buffer]; lia.
    + now rewrite Et.
    + exists s'. split; [|assumption].
      eapply reaches_turn; [reflexivity | exact Eit | exact Hr].
Qed.

(** In a state in which it spins, the loop does not exit, however many
    turns it is given. *)
Lemma spins_for_ever (s : LoopState St) :
  spins handle s -> forall fuel, turns handle fuel s = ([], None).
Proof.
  intros (k & Hk & Hit) fuel. induction fuel as [|fuel IH]; cbn [turns].
  - now rewrite Hk.
  - now rewrite Hk, Hit, IH.
Qed.

End Hanging.

Lemma lineLoop_hang_spins {St O : Type}
  (handle : St -> string -> LineAction St O) (st : St) (buf : string) :
  snd (lineLoop handle st buf) = None ->
  exists s', reaches handle (mkLoopState st buf (indexOfLF buf)) s'
             /\ spins handle s'.
Proof. apply turns_none_spins. simpl. lia. Qed.

(** ** An empty line between two lines (C6) *)

(** C6 fails on the code when the line that is not JSON is the empty line:
    the [continue] taken for it skips [lineEnd = buffer.indexOf('\n')], the
    next turns cut the buffer at the old index 0, one character at a time,
    and once the buffer is empty the loop spins.  The first fragment is
    yielded, the second never, and the generator never returns; the streaming
    path of [getCompletion], which waits for the end of the stream, returns
    nothing.  With a line of one space the loop ends, and the second line is
    lost. *)
Theorem empty_line_between_two_lines :
  let a := contentLine "a" in
  let b := contentLine "b" in
  @JSON_parse exampleRuntime "" = None
  /\ @processOllamaStream exampleRuntime [a ++ NL ++ "" ++ NL ++ b ++ NL]
     = Hangs [mkContentEvent (JString "a") (JBool false)]
  /\ (exists chunk,
         @createStreamProcessor exampleRuntime true
           [a ++ NL ++ "" ++ NL ++ b ++ NL] = Hangs [Built chunk]
         /\ chunkText chunk = "a")
  /\ @getCompletionStream exampleRuntime "qwq" [a ++ NL ++ "" ++ NL ++ b ++ NL]
     = Hangs []
  /\ @processOllamaStream exampleRuntime [a ++ NL ++ " " ++ NL ++ b ++ NL]
     = Completes [mkContentEvent (JString "a") (JBool false)].
Proof.
  intros a b. refine (conj _ (conj _ (conj _ (conj _ _)))).
  - reflexivity.
  - vm_compute. reflexivity.
  - eexists. split; vm_compute; reflexivity.
  - vm_compute. reflexivity.
  - vm_compute. reflexivity.
Qed.

(** ** The last line without a line feed (C8) *)

(** C8 fails on [processOllamaStream] and [createOllamaStreamProcessor]:
    after the last read they return without a look at the buffer, and a last
    line that no line feed ends is lost.  [createStreamProcessor] handles
    what is left in the buffer.  On the example the turn of [getCompletion]
    is the text of the first line alone. *)
Theorem unterminated_last_line :
  let reads := [contentLine "Hel" ++ NL; contentLine "lo"] in
  @processOllamaStream exampleRuntime reads
  = Completes [mkContentEvent (JString "Hel") (JBool false)]
  /\ (exists chunk,
         @createOllamaStreamProcessor exampleRuntime reads = Completes [chunk]
         /\ chunkText chunk = "Hel")
  /\ (exists chunk1 chunk2,
         @createStreamProcessor exampleRuntime true reads
         = Completes [Built chunk1; Built chunk2]
         /\ chunkText chunk1 = "Hel" /\ chunkText chunk2 = "lo")
  /\ @getCompletionStream exampleRuntime "qwq" reads
     = Completes (emitTextStream "Hel" "qwq").
Proof.
  intros reads. refine (conj _ (conj _ (conj _ _))).
  - vm_compute. reflexivity.
  - eexists. split; vm_compute; reflexivity.
  - do 2 eexists. repeat split; vm_compute; reflexivity.
  - vm_compute. reflexivity.
Qed.

(** ** A malformed line that is not blank *)

Section MalformedLine.
Context {rt : JsRuntime}.

Lemma ollamaClientLine_content (l c : string) :
  carriesContent l c -> nonEmpty c = true ->
  exists ev, ev_content ev = JString c
             /\ forall st, ollamaClientLine st (trim l) = Handled tt [ev].
Proof.
  intros (_ & Hnb & resp & Hp & Hc) Hne.
  destruct (contentEvent_content _ _ _ Hp Hc Hne) as (ev & He & Hev).
  exists ev. split; [assumption|]. intros st. unfold ollamaClientLine.
  now rewrite (blank_false _ Hnb), He.
Qed.

Lemma streamLine_content (l c : string) (first : bool) :
  carriesContent l c -> nonEmpty c = true ->
  exists chunk,
    content (delta chunk) = ContentValue (JString c)
    /\ role (delta chunk) = (if first then Some "assistant" else None)
    /\ streamLine true first (trim l) = Handled false [Built chunk]
    /\ ollamaStreamLine first (trim l) = Handled false [chunk].
Proof.
  intros (_ & Hnb & resp & Hp & Hc) Hne.
  destruct (openaiChunk_content first _ _ _ Hp Hc Hne) as (ch & He & _ & Hr & Hch).
  exists ch. repeat split; try assumption;
    unfold streamLine, builtChunk, ollamaStreamLine;
    now rewrite (blank_false _ Hnb), He.
Qed.

Lemma malformedLine_skipped (bad : string) :
  malformedLine bad -> blank bad = false ->
  (forall st, ollamaClientLine st (trim bad) = Handled tt [])
  /\ (forall first, streamLine true first (trim bad) = Handled first [])
  /\ (forall first, ollamaStreamLine first (trim bad) = Handled first []).
Proof.
  intros [_ Hp] Hnb. repeat split; intros st;
    unfold ollamaClientLine, contentEvent, streamLine, builtChunk,
      ollamaStreamLine, openaiChunk;
    now rewrite (blank_false _ Hnb), Hp.
Qed.

End MalformedLine.

(** A line that is not JSON and not blank, between two lines that carry
    content: every processor yields the two contents, in their order, and
    returns; the first chunk carries the role.  The reads may cut the stream
    anywhere. *)
Theorem malformed_line_is_skipped :
  forall (rt : JsRuntime) (l1 c1 bad l2 c2 : string) (reads : list string),
    carriesContent l1 c1 -> nonEmpty c1 = true ->
    carriesContent l2 c2 -> nonEmpty c2 = true ->
    malformedLine bad -> blank bad = false ->
    concatAll reads = ndjson [l1; bad; l2] ->
    (exists e1 e2,
        processOllamaStream reads = Completes [e1; e2]
        /\ ev_content e1 = JString c1 /\ ev_content e2 = JString c2)
    /\ (exists ch1 ch2,
           createStreamProcessor true reads = Completes [Built ch1; Built ch2]
           /\ createOllamaStreamProcessor reads = Completes [ch1; ch2]
           /\ content (delta ch1) = ContentValue (JString c1)
           /\ content (delta ch2) = ContentValue (JString c2)
           /\ role (delta ch1) = Some "assistant"
           /\ role (delta ch2) = None).
Proof.
  intros rt l1 c1 bad l2 c2 reads H1 Hc1 H2 Hc2 Hbad Hnb Htext.
  assert (Hlf : Forall (fun l => indexOfLF l = None) [l1; bad; l2]).
  { repeat constructor; [apply H1 | apply Hbad | apply H2]. }
  assert (Hnbs : Forall (fun l => blank l = false) [l1; bad; l2]).
  { repeat constructor; [apply H1 | assumption | apply H2]. }
  destruct (malformedLine_skipped bad Hbad Hnb) as (Hb1 & Hb2 & Hb3).
  assert (Htext' : concatAll reads = ndjson [l1; bad; l2] ++ "")
    by now rewrite append_nil_r.
  split.
  - destruct (ollamaClientLine_content _ _ H1 Hc1) as (e1 & He1 & Hl1).
    destruct (ollamaClientLine_content _ _ H2 Hc2) as (e2 & He2 & Hl2).
    exists e1, e2. split; [|now split].
    rewrite (processOllamaStream_lines _ _ "" Htext' Hlf Hnbs eq_refl).
    cbn [handleLines]. now rewrite Hl1, Hb1, Hl2.
  - destruct (streamLine_content _ _ true H1 Hc1) as (ch1 & Hk1 & Hr1 & Hs1 & Ho1).
    destruct (streamLine_content _ _ false H2 Hc2) as (ch2 & Hk2 & Hr2 & Hs2 & Ho2).
    exists ch1, ch2. repeat split; try assumption.
    + rewrite (createStreamProcessor_lines _ _ "" Htext' Hlf Hnbs eq_refl).
      cbn [handleLines]. now rewrite Hs1, Hb2, Hs2.
    + rewrite (createOllamaStreamProcessor_lines _ _ "" Htext' Hlf Hnbs eq_refl).
      cbn [handleLines]. now rewrite Ho1, Hb3, Ho2.
Qed.

Lemma malformed_line_is_skipped_witness :
  let reads := [contentLine "a" ++ NL ++ "{bad"; NL ++ contentLine "b" ++ NL] in
  exists e1 e2,
    @processOllamaStream exampleRuntime reads = Completes [e1; e2]
    /\ ev_content e1 = JString "a" /\ ev_content e2 = JString "b".
Proof.
  intros reads.
  refine (proj1 (malformed_line_is_skipped exampleRuntime (contentLine "a") "a"
                   "{bad" (contentLine "b") "b" reads _ eq_refl _ eq_refl _
                   eq_refl eq_refl)).
  - repeat split; try (vm_compute; reflexivity).
    eexists. split; vm_compute; reflexivity.
  - repeat split; try (vm_compute; reflexivity).
    eexists. split; vm_compute; reflexivity.
  - split; vm_compute; reflexivity.
Defined.

(** ** The rest of the buffer at the end of the stream *)

Section Flush.
Context {rt : JsRuntime}.

Lemma trimStart_noLF (s : string) :
  indexOfLF s = None -> indexOfLF (trimStart s) = None.
Proof.
  induction s as [|c s IH]; intros H; [reflexivity|].
  cbn [trimStart]. destruct (isWhiteSpace c); [|assumption].
  apply IH. now apply indexOfLF_cons in H.
Qed.

Lemma trimEnd_noLF (s : string) :
  indexOfLF s = None -> indexOfLF (trimEnd s) = None.
Proof.
  induction s as [|c s IH]; intros H; [reflexivity|].
  apply indexOfLF_cons in H as [Hc Hs]. specialize (IH Hs).
  cbn [trimEnd]. destruct (trimEnd s) as [|d t].
  - destruct (isWhiteSpace c); [reflexivity | now apply indexOfLF_cons].
  - now apply indexOfLF_cons.
Qed.

Lemma trim_noLF (s : string) : indexOfLF s = None -> indexOfLF (trim s) = None.
Proof. intros H. now apply trimEnd_noLF, trimStart_noLF. Qed.

Lemma splitLF_noLF (s : string) : indexOfLF s = None -> splitLF s = [s].
Proof.
  induction s as [|c s IH]; intros H; [reflexivity|].
  apply indexOfLF_cons in H as [Hc Hs].
  cbn [splitLF]. now rewrite Hc, (IH Hs).
Qed.

(** What is left in the buffer, when it is one line with content, is
    handled by [createStreamProcessor] like any line. *)
Lemma flushBuffer_content (first : bool) (l c : string) :
  carriesContent l c -> nonEmpty c = true ->
  exists chunk,
    flushBuffer true first l = [Built chunk]
    /\ chunkText chunk = c
    /\ role (delta chunk) = (if first then Some "assistant" else None).
Proof.
  intros (Hlf & Hnb & resp & Hp & Hc) Hne.
  destruct (openaiChunk_content first _ _ _ Hp Hc Hne) as (ch & He & Ht & Hr & _).
  exists ch. split; [|now split].
  unfold flushBuffer. rewrite (blank_false _ Hnb).
  rewrite (splitLF_noLF _ (trim_noLF _ Hlf)). cbn [flushLines].
  rewrite (blank_false _ Hnb). unfold builtChunk. now rewrite He.
Qed.

End Flush.

(** The end of the stream, in general.  Let the stream be lines that carry
    content, each ended by a line feed, and then a last line with the
    content [c] that no line feed ends.  [createStreamProcessor] yields the
    contents of all the lines.  [processOllamaStream] and
    [createOllamaStreamProcessor] yield those of the ended lines only. *)
Theorem unterminated_line_flushed_or_dropped :
  forall (rt : JsRuntime) (frames : list (string * string)) (last c : string)
         (reads : list string),
    Forall (fun f => carriesContent (fst f) (snd f)) frames ->
    carriesContent last c -> nonEmpty c = true ->
    concatAll reads = ndjson (map fst frames) ++ last ->
    (exists emitted,
        createStreamProcessor true reads = Completes emitted
        /\ emittedText emitted = concatAll (map snd frames) ++ c)
    /\ (exists events,
           processOllamaStream reads = Completes events
           /\ accumulate events = concatAll (map snd frames))
    /\ (exists chunks,
           createOllamaStreamProcessor reads = Completes chunks
           /\ chunksText chunks = concatAll (map snd frames)).
Proof.
  intros rt frames last c reads Hframes Hlast Hne Htext.
  assert (Hlf : Forall (fun l => indexOfLF l = None) (map fst frames)).
  { apply Forall_map. eapply Forall_impl; [|exact Hframes].
    intros f Hf. apply Hf. }
  assert (Hnb : Forall (fun l => blank l = false) (map fst frames)).
  { apply Forall_map. eapply Forall_impl; [|exact Hframes].
    intros f Hf. apply Hf. }
  assert (Hr : indexOfLF last = None) by apply Hlast.
  split; [|split]; eexists; split.
  - apply (createStreamProcessor_lines _ _ _ Htext Hlf Hnb Hr).
  - rewrite emittedText_app.
    destruct (flushBuffer_content
                (snd (handleLines (streamLine true) true (map fst frames)))
                last c Hlast Hne) as (ch & -> & Ht & _).
    rewrite (handleLines_gives_frames (streamLine true) emittedText eq_refl
               emittedText_app).
    + unfold emittedText, chunksText. simpl. now rewrite Ht, append_nil_r.
    + eapply Forall_impl; [|exact Hframes].
      intros f. apply carriesContent_streamLine.
  - apply (processOllamaStream_lines _ _ _ Htext Hlf Hnb Hr).
  - apply (handleLines_gives_frames ollamaClientLine accumulate eq_refl
             accumulate_app).
    eapply Forall_impl; [|exact Hframes].
    intros f. apply carriesContent_ollamaClientLine.
  - apply (createOllamaStreamProcessor_lines _ _ _ Htext Hlf Hnb Hr).
  - apply (handleLines_gives_frames ollamaStreamLine chunksText eq_refl
             chunksText_app).
    eapply Forall_impl; [|exact Hframes].
    intros f. apply carriesContent_ollamaStreamLine.
Qed.

Lemma unterminated_line_flushed_or_dropped_witness :
  let reads := [contentLine "Hel" ++ NL; contentLine "lo"] in
  (exists emitted,
      @createStreamProcessor exampleRuntime true reads = Completes emitted
      /\ emittedText emitted = "Hello")
  /\ (exists events,
         @processOllamaStream exampleRuntime reads = Completes events
         /\ accumulate events = "Hel").
Proof.
  intros reads.
  destruct (unterminated_line_flushed_or_dropped exampleRuntime
              [(contentLine "Hel", "Hel")] (contentLine "lo") "lo" reads)
    as (H1 & H2 & _).
  - repeat constructor; try (vm_compute; reflexivity).
    eexists. split; vm_compute; reflexivity.
  - repeat split; try (vm_compute; reflexivity).
    eexists. split; vm_compute; reflexivity.
  - reflexivity.
  - vm_compute. reflexivity.
  - split; [exact H1 | exact H2].
Defined.

(** ** Where the reads are cut

    What the three processors of an Ollama stream give depends on the text
    of the stream only, not on the places where the reads cut it, as long
    as no complete line of the text is blank; and then they return. *)

Section ReadBoundaries.
Context {rt : JsRuntime}.

Lemma handled_nonblank {St O : Type} (handle : St -> string -> LineAction St O)
  (lines : list string) :
  (forall l, blank l = false -> handled handle l) ->
  Forall (fun l => blank l = false) lines ->
  Forall (handled handle) lines.
Proof.
  intros H Hl. induction Hl; constructor; auto.
Qed.

Lemma createOllamaStreamProcessor_text (reads : list string) :
  Forall (fun l => blank l = false) (fst (cut (concatAll reads))) ->
  createOllamaStreamProcessor reads
  = Completes (fst (handleLines ollamaStreamLine true
                      (fst (cut (concatAll reads))))).
Proof.
  intros Hb. destruct (cut_spec (concatAll reads)) as (Ht & Hr & Hlf).
  now apply (createOllamaStreamProcessor_lines reads _ (snd (cut (concatAll reads)))).
Qed.

Lemma processOllamaStream_text (reads : list string) :
  Forall (fun l => blank l = false) (fst (cut (concatAll reads))) ->
  processOllamaStream reads
  = Completes (fst (handleLines ollamaClientLine tt
                      (fst (cut (concatAll reads))))).
Proof.
  intros Hb. destruct (cut_spec (concatAll reads)) as (Ht & Hr & Hlf).
  now apply (processOllamaStream_lines reads _ (snd (cut (concatAll reads)))).
Qed.

Lemma createStreamProcessor_text (reads : list string) :
  Forall (fun l => blank l = false) (fst (cut (concatAll reads))) ->
  createStreamProcessor true reads
  = Completes
      (fst (handleLines (streamLine true) true (fst (cut (concatAll reads))))
       ++ flushBuffer true
            (snd (handleLines (streamLine true) true
                    (fst (cut (concatAll reads)))))
            (snd (cut (concatAll reads))))%list.
Proof.
  intros Hb. destruct (cut_spec (concatAll reads)) as (Ht & Hr & Hlf).
  now apply (createStreamProcessor_lines reads _ (snd (cut (concatAll reads)))).
Qed.

End ReadBoundaries.

(** X3.  Two sequences of reads that deliver the same text, none of whose
    complete lines is blank, give the same chunks, events and completion:
    the three processors of an Ollama stream and the two Ollama paths of
    [getCompletion] do not depend on where the reads cut the text, and on
    such a text they all return. *)
Theorem read_boundaries_do_not_matter :
  forall (rt : JsRuntime) (reads1 reads2 : list string),
    concatAll reads1 = concatAll reads2 ->
    Forall (fun l => blank l = false) (fst (cut (concatAll reads1))) ->
    (exists chunks,
        createOllamaStreamProcessor reads1 = Completes chunks
        /\ createOllamaStreamProcessor reads2 = Completes chunks)
    /\ (exists events,
           processOllamaStream reads1 = Completes events
           /\ processOllamaStream reads2 = Completes events)
    /\ (exists emitted,
           createStreamProcessor true reads1 = Completes emitted
           /\ createStreamProcessor true reads2 = Completes emitted)
    /\ (forall model,
           getCompletionStream model reads1 = getCompletionStream model reads2
           /\ getCompletionNonStreaming model reads1
              = getCompletionNonStreaming model reads2).
Proof.
  intros rt reads1 reads2 Heq Hb.
  assert (Hb2 := Hb). rewrite Heq in Hb2.
  refine (conj _ (conj _ (conj _ _))).
  - eexists. split.
    + apply (createOllamaStreamProcessor_text reads1 Hb).
    + rewrite (createOllamaStreamProcessor_text reads2 Hb2), Heq. reflexivity.
  - eexists. split.
    + apply (processOllamaStream_text reads1 Hb).
    + rewrite (processOllamaStream_text reads2 Hb2), Heq. reflexivity.
  - eexists. split.
    + apply (createStreamProcessor_text reads1 Hb).
    + rewrite (createStreamProcessor_text reads2 Hb2), Heq. reflexivity.
  - intros model. unfold getCompletionStream, getCompletionNonStreaming.
    rewrite (processOllamaStream_text reads1 Hb),
            (processOllamaStream_text reads2 Hb2), Heq.
    split; reflexivity.
Qed.

Lemma read_boundaries_do_not_matter_witness :
  let text := ndjson [contentLine "Hel"; "{bad"; contentLine "lo"] ++ doneLine in
  exists emitted,
    @createStreamProcessor exampleRuntime true [text] = Completes emitted
    /\ @createStreamProcessor exampleRuntime true
         [take 10 text; take 70 (drop 10 text); ""; drop 80 text]
       = Completes emitted.
Proof.
  cbv zeta.
  refine (proj1 (proj2 (proj2
    (read_boundaries_do_not_matter exampleRuntime _ _ _ _))));
    [vm_compute; reflexivity | vm_compute; repeat constructor].
Defined.

(** ** Calls recovered from prose are run, not handed on *)

Section HeuristicCalls.
Context {rt : JsRuntime}.

Lemma search_literalThen_none (p : string) (r : Regex.regex) :
  forall s pos,
    includes p s = false ->
    Regex.search false (RegexShapes.literalThen p r) pos s = None.
Proof.
  induction s as [|c s IH]; intros pos Hi; cbn [includes] in Hi;
    apply orb_false_iff in Hi as [Hs Hi]; cbn [Regex.search];
    unfold Regex.matchAt; rewrite (rmatch_literalThen_fails _ p r _ _ _ Hs).
  - reflexivity.
  - now apply IH.
Qed.

Lemma exec_explicitFuncCallRegex_none (text : string) :
  includes openMarker text = false ->
  Regex.exec explicitFuncCallRegex text = None.
Proof.
  intros Hi. unfold Regex.exec. rewrite explicitFuncCallRegex_compiled.
  now apply search_literalThen_none.
Qed.

Lemma recover_without_block (patterns : list Regex.RegExp) (text : string)
  (inv : ToolInvocation) :
  Regex.exec explicitFuncCallRegex text = None ->
  recover patterns text = Some inv ->
  exists command,
    inferCommand patterns text = Some command
    /\ nonEmpty command = true /\ inv = bashCall command.
Proof.
  intros He. unfold recover. rewrite He.
  destruct (inferCommand patterns text) as [c|]; cbn [isSet]; [|discriminate].
  destruct (nonEmpty c) eqn:Hc; [|discriminate].
  intros [= <-]. now exists c.
Qed.

Lemma bashCommand_bashCall (command : string) :
  nonEmpty command = true -> bashCommand (bashCall command) = Some (JString command).
Proof.
  intros Hc. unfold bashCommand, bashCall. cbn. now rewrite Hc.
Qed.

End HeuristicCalls.

(** X4.  A call recovered from the prose of a text that holds no
    [<function_calls>] marker is always a call of [Bash] with one argument,
    a command that is not empty, and [getCompletion] runs it itself: the
    turn is a chunk whose content is the report of the run (the command in
    backquotes, then the output, or the message of the error, in a fenced
    block), then a chunk with an empty delta and the finish reason
    ['stop']; no chunk hands a function call to the caller.  The
    completion of the non-streaming path has the report as its content, no
    function call and the finish reason ['stop']. *)
Theorem heuristic_call_is_run :
  forall (rt : JsRuntime) (patterns : list Regex.RegExp) (text model : string)
         (inv : ToolInvocation),
    includes openMarker text = false ->
    recover patterns text = Some inv ->
    exists command report,
      name inv = "Bash"
      /\ arguments inv = [("command", JString command)]
      /\ nonEmpty command = true
      /\ report
         = match execSync (JString command) with
           | ExecOutput cmdOutput =>
               "Here's the output of `" ++ command ++ "`:" ++ NL ++ NL
               ++ "```" ++ NL ++ cmdOutput ++ NL ++ "```"
           | ExecThrows err =>
               "Error executing `" ++ command ++ "`:" ++ NL ++ NL
               ++ "```" ++ NL
               ++ (if nonEmpty (message err) then message err
                   else errorText err)
               ++ NL ++ "```"
           end
      /\ dispatchStream model inv
         = [mkChunk (JString model)
              (mkDelta (Some "assistant") (ContentValue (JString report)) None)
              None;
            mkChunk (JString model) (mkDelta None ContentAbsent None)
              (Some "stop")]
      /\ dispatchCompletion model inv
         = mkCompletion model "assistant" (ContentValue (JString report)) None
             "stop".
Proof.
  intros rt patterns text model inv Hi Hr.
  destruct (recover_without_block patterns text inv
              (exec_explicitFuncCallRegex_none text Hi) Hr)
    as (command & _ & Hc & ->).
  exists command.
  unfold dispatchStream, dispatchCompletion.
  rewrite (bashCommand_bashCall command Hc).
  destruct (execSync (JString command)) as [cmdOutput|err] eqn:Hx.
  - exists (outputContent (JString command) cmdOutput).
    split; [reflexivity|]. split; [reflexivity|]. split; [exact Hc|].
    split; [reflexivity|]. split; reflexivity.
  - exists (errorContent (JString command) err).
    split; [reflexivity|]. split; [reflexivity|]. split; [exact Hc|].
    split; [reflexivity|]. split; reflexivity.
Qed.

Lemma heuristic_call_is_run_witness :
  @turnChunks exampleRuntime "qwq" "To clean up, run `rm -rf build` now."
  = [mkChunk (JString "qwq")
       (mkDelta (Some "assistant")
          (ContentValue
             (JString ("Error executing `rm -rf build`:" ++ NL ++ NL
                       ++ "```" ++ NL ++ "Command failed: add" ++ NL ++ "```")))
          None)
       None;
     mkChunk (JString "qwq") (mkDelta None ContentAbsent None) (Some "stop")].
Proof.
  assert (Hrec : @recover exampleRuntime commandPatterns
                   "To clean up, run `rm -rf build` now."
                 = Some (bashCall "rm -rf build")) by (vm_compute; reflexivity).
  unfold turnChunks. rewrite Hrec.
  destruct (heuristic_call_is_run exampleRuntime commandPatterns
              "To clean up, run `rm -rf build` now." "qwq"
              (bashCall "rm -rf build"))
    as (command & report & _ & Harg & _ & Hrep & Hd & _);
    [vm_compute; reflexivity | exact Hrec |].
  injection Harg as <-. rewrite Hd, Hrep. reflexivity.
Defined.

(** ** A block whose tool cannot be read *)

Section UnreadableBlock.
Context {rt : JsRuntime}.

Lemma startsWith_app_r (p b c : string) :
  startsWith p b = true -> startsWith p (b ++ c) = true.
Proof.
  revert b. induction p as [|a p IH]; intros [|d b]; cbn; try easy.
  intros H. apply andb_true_iff in H as [-> H]. now apply IH.
Qed.

Lemma includes_app_r (p b c : string) :
  includes p b = true -> includes p (b ++ c) = true.
Proof.
  induction b as [|d b IH]; cbn [includes append]; intros H.
  - rewrite orb_false_r in H. destruct p; [|discriminate].
    apply includes_empty.
  - apply orb_true_iff in H as [H|H].
    + change (String d (b ++ c)) with (String d b ++ c).
      now rewrite (startsWith_app_r _ _ c H).
    + rewrite (IH H). apply orb_true_r.
Qed.

Lemma includes_app_l (p a b : string) :
  includes p b = true -> includes p (a ++ b) = true.
Proof.
  intros H. induction a as [|d a IH]; [assumption|].
  now apply includes_later.
Qed.

Lemma invokeRegex_compiled :
  exists r, Regex.compile (Regex.source invokeRegex)
            = RegexShapes.literalThen invokeOpen r.
Proof. eexists. vm_compute. reflexivity. Qed.

Lemma explicitInvocation_none (block : string) :
  includes invokeOpen block = false -> explicitInvocation block = None.
Proof.
  intros Hi. unfold explicitInvocation, Regex.exec.
  destruct invokeRegex_compiled as [r ->].
  change (Regex.ignoreCase invokeRegex) with false.
  now rewrite search_literalThen_none.
Qed.

End UnreadableBlock.

(** X5.  A text that holds a [<function_calls>] block but nowhere the
    opening of an [invoke] tag is passed on as it is, as one chunk of
    content that closes the turn: the tool of the block cannot be read, and
    the commands the prose of the text may name are not looked for. *)
Theorem unreadable_block_is_passed_on :
  forall (rt : JsRuntime) (patterns : list Regex.RegExp) (model : string)
         (pre body post : string),
    let text := pre ++ openMarker ++ body ++ closeMarker ++ post in
    includes invokeOpen text = false ->
    recover patterns text = None
    /\ turnChunks model text
       = [mkChunk (JString model)
            (mkDelta (Some "assistant") (ContentValue (JString text)) None)
            (Some "stop")]
    /\ turnCompletion model text
       = mkCompletion model "assistant" (ContentValue (JString text)) None
           "stop".
Proof.
  intros rt patterns model pre body post text Hi.
  assert (Hr : forall patterns, recover patterns text = None).
  { intros ps.
    destruct (exec_explicitFuncCallRegex_found pre body post)
      as (pre' & body' & post' & Heq & _ & He).
    fold text in Heq, He. unfold recover. rewrite He.
    unfold groupText, Regex.group. cbn.
    apply explicitInvocation_none.
    destruct (includes invokeOpen body') eqn:Hb; [|reflexivity].
    rewrite <- Hi, Heq. symmetry.
    apply includes_app_l, includes_app_l, includes_app_r, Hb. }
  unfold turnChunks, turnCompletion. rewrite !Hr. now repeat split.
Qed.

Lemma unreadable_block_is_passed_on_witness :
  let text := "Please run `ls`. " ++ openMarker ++ "Bash: ls" ++ closeMarker ++ "" in
  inferCommand commandPatterns text = Some "ls"
  /\ @turnChunks exampleRuntime "qwq" text
     = [mkChunk (JString "qwq")
          (mkDelta (Some "assistant") (ContentValue (JString text)) None)
          (Some "stop")].
Proof.
  cbv zeta. split; [vm_compute; reflexivity|].
  refine (proj1 (proj2 (unreadable_block_is_passed_on exampleRuntime
                          commandPatterns "qwq" "Please run `ls`. " "Bash: ls" "" _))).
  vm_compute. reflexivity.
Defined.

(** ** The end of a turn *)


(** ** What the pass-through yields *)

Section Yielded.
Context {St O : Type}.
Variable handle : St -> string -> LineAction St O.
Variable P : O -> Prop.
Hypothesis handle_P :
  forall st line st' out, handle st line = Handled st' out -> Forall P out.

Lemma turns_Forall (fuel : nat) :
  forall s, Forall P (fst (turns handle fuel s)).
Proof.
  induction fuel as [|fuel IH]; intros s; cbn [turns];
    destruct (lineEnd s) as [k|]; try constructor.
  unfold iteration.
  destruct (handle (state s) (trim (take k (buffer s)))) as [|st' out] eqn:Hh.
  - specialize (IH (mkLoopState (state s) (drop (k + 1) (buffer s)) (Some k))).
    destruct (turns handle fuel _). exact IH.
  - specialize (IH (mkLoopState st' (drop (k + 1) (buffer s))
                      (indexOfLF (drop (k + 1) (buffer s))))).
    destruct (turns handle fuel _). cbn [fst] in *.
    apply Forall_app. split; [exact (handle_P _ _ _ _ Hh) | exact IH].
Qed.

Lemma readLoop_Forall (reads : list string) :
  forall st b, Forall P (fst (readLoop handle st b reads)).
Proof.
  induction reads as [|chunk reads IH]; intros st b; cbn [readLoop];
    [constructor|].
  pose proof (turns_Forall (String.length (b ++ chunk) + 1)
                (mkLoopState st (b ++ chunk) (indexOfLF (b ++ chunk)))) as Ht.
  unfold lineLoop. destruct (turns handle _ _) as [out [s|]]; [|exact Ht].
  specialize (IH (state s) (buffer s)).
  destruct (readLoop handle (state s) (buffer s) reads). cbn [fst] in *.
  apply Forall_app. now split.
Qed.

End Yielded.

Section ContentOnly.
Context {rt : JsRuntime}.

Lemma messageContent_truthy (resp c : JsonValue) :
  messageContent resp = Some c -> truthy c = true.
Proof.
  unfold messageContent.
  destruct (getProp resp "message") as [m|]; [|discriminate].
  destruct (truthy m); [|discriminate].
  destruct (getProp m "content") as [v|]; [|discriminate].
  destruct (truthy v) eqn:Hv; [|discriminate]. now intros [= <-].
Qed.

Lemma openaiChunk_contentOnly (first : bool) (line : string) (chunk : Chunk) :
  openaiChunk first line = Some chunk -> contentOnly chunk.
Proof.
  unfold openaiChunk.
  destruct (JSON_parse line) as [resp|]; [|discriminate].
  assert (H : match messageContent resp with
              | Some c =>
                  Some {| model := orElse (getProp resp "model")
                                          (JString "ollama-model");
                          delta := {| role := if first then Some "assistant"
                                              else None;
                                      content := ContentValue c;
                                      function_call := None |};
                          finish_reason :=
                            if truthyOpt (getProp resp "done")
                            then Some "stop" else None |}
              | None => None
              end = Some chunk -> contentOnly chunk).
  { destruct (messageContent resp) as [c|] eqn:Hc; [|discriminate].
    intros [= <-]. unfold contentOnly. cbn.
    split; [exists c; split; [reflexivity | exact (messageContent_truthy _ _ Hc)]|].
    split; [reflexivity|].
    destruct (truthyOpt (getProp resp "done")); [now right | now left]. }
  destruct resp; first [exact H | discriminate].
Qed.

Lemma ollamaStreamLine_contentOnly (st : bool) (line : string) (st' : bool)
  (out : list Chunk) :
  ollamaStreamLine st line = Handled st' out -> Forall contentOnly out.
Proof.
  unfold ollamaStreamLine. destruct (negb (nonEmpty line)); [discriminate|].
  destruct (openaiChunk st line) as [chunk|] eqn:Hc; intros [= <- <-];
    [|constructor].
  constructor; [exact (openaiChunk_contentOnly _ _ _ Hc) | constructor].
Qed.

Lemma builtChunk_contentOnly (st : bool) (line : string) :
  Forall contentOnly (builtChunks (snd (builtChunk st line))).
Proof.
  unfold builtChunk. destruct (openaiChunk st line) as [chunk|] eqn:Hc;
    cbn [snd builtChunks]; [|constructor].
  constructor; [exact (openaiChunk_contentOnly _ _ _ Hc) | constructor].
Qed.

Lemma streamLine_contentOnly (st : bool) (line : string) (st' : bool)
  (out : list Emitted) :
  streamLine true st line = Handled st' out ->
  Forall contentOnly (builtChunks out).
Proof.
  unfold streamLine. destruct (negb (nonEmpty line)); [discriminate|].
  pose proof (builtChunk_contentOnly st line) as H.
  destruct (builtChunk st line) as [first o]. now intros [= <- <-].
Qed.

Lemma flushLines_contentOnly (lines : list string) :
  forall st, Forall contentOnly (builtChunks (flushLines true st lines)).
Proof.
  induction lines as [|l lines IH]; intros st; cbn [flushLines];
    [constructor|].
  destruct (nonEmpty l); [|apply IH].
  pose proof (builtChunk_contentOnly st l) as H.
  destruct (builtChunk st l) as [first o]. cbn [snd] in H.
  rewrite builtChunks_app. apply Forall_app. split; [exact H | apply IH].
Qed.

Lemma contentEvent_truthy (line : string) (ev : ContentEvent) :
  contentEvent line = Some ev -> truthy (ev_content ev) = true.
Proof.
  unfold contentEvent.
  destruct (JSON_parse line) as [resp|]; [|discriminate].
  assert (H : match messageContent resp with
              | Some c =>
                  Some {| ev_content := c;
                          ev_done := orElse (getProp resp "done") (JBool false) |}
              | None => None
              end = Some ev -> truthy (ev_content ev) = true).
  { destruct (messageContent resp) as [c|] eqn:Hc; [|discriminate].
    intros [= <-]. exact (messageContent_truthy _ _ Hc). }
  destruct resp; first [exact H | discriminate].
Qed.

Lemma ollamaClientLine_truthy (st : unit) (line : string) (st' : unit)
  (out : list ContentEvent) :
  ollamaClientLine st line = Handled st' out ->
  Forall (fun ev => truthy (ev_content ev) = true) out.
Proof.
  unfold ollamaClientLine. destruct (negb (nonEmpty line)); [discriminate|].
  destruct (contentEvent line) as [ev|] eqn:Hc; intros [= <- <-];
    [|constructor].
  constructor; [exact (contentEvent_truthy _ _ Hc) | constructor].
Qed.

Lemma accumulate_truthy (events : list ContentEvent) :
  Forall (fun ev => truthy (ev_content ev) = true) events ->
  accumulate events = concatAll (map (fun ev => toDisplay (ev_content ev)) events).
Proof.
  intros H. unfold accumulate. f_equal. f_equal.
  induction H as [|ev events Hev _ IH]; [reflexivity|].
  cbn [filter]. rewrite Hev. now f_equal.
Qed.

End ContentOnly.

(** X7.  Whatever the stream holds and however the reads cut it, every
    chunk the pass-through yields carries a content that is truthy, never a
    function call, and a finish reason that is [null] or ['stop']: a line
    without content, such as the closing line of Ollama, never becomes a
    chunk, not even to carry its ['stop'].  Every event of
    [processOllamaStream] has a truthy content, so the test
    [if (chunk.content)] of [getCompletion] holds for each of them and the
    accumulated text is all the contents end to end. *)
Theorem passthrough_yields_content_only :
  forall (rt : JsRuntime) (reads : list string),
    Forall contentOnly (yielded (createOllamaStreamProcessor reads))
    /\ Forall contentOnly
         (builtChunks (yielded (createStreamProcessor true reads)))
    /\ Forall (fun ev => truthy (ev_content ev) = true)
         (yielded (processOllamaStream reads))
    /\ accumulate (yielded (processOllamaStream reads))
       = concatAll (map (fun ev => toDisplay (ev_content ev))
                      (yielded (processOllamaStream reads))).
Proof.
  intros rt reads.
  assert (He : Forall (fun ev => truthy (ev_content ev) = true)
                 (yielded (processOllamaStream reads))).
  { unfold processOllamaStream.
    pose proof (readLoop_Forall ollamaClientLine _ ollamaClientLine_truthy
                  reads tt "") as H.
    now destruct (readLoop ollamaClientLine tt "" reads) as [out [fin|]]. }
  split; [|split; [|split; [exact He | exact (accumulate_truthy _ He)]]].
  - unfold createOllamaStreamProcessor.
    pose proof (readLoop_Forall ollamaStreamLine _ ollamaStreamLine_contentOnly
                  reads true "") as H.
    now destruct (readLoop ollamaStreamLine true "" reads) as [out [fin|]].
  - unfold createStreamProcessor.
    pose proof (readLoop_Forall (streamLine true)
                  (fun e => Forall contentOnly (builtChunks [e]))) as H.
    assert (Hall : forall l, Forall (fun e => Forall contentOnly (builtChunks [e])) l
                             -> Forall contentOnly (builtChunks l)).
    { induction 1 as [|e l He' _ IH]; [constructor|].
      change (e :: l) with ([e] ++ l)%list. rewrite builtChunks_app.
      apply Forall_app. now split. }
    assert (Hinv : forall l, Forall contentOnly (builtChunks l)
                             -> Forall (fun e => Forall contentOnly (builtChunks [e])) l).
    { induction l as [|e l IH]; intros Hl; [constructor|].
      change (e :: l) with ([e] ++ l)%list in Hl. rewrite builtChunks_app in Hl.
      apply Forall_app in Hl as [H1 H2]. constructor; auto. }
    specialize (H (fun st line st' out Hh =>
                     Hinv out (streamLine_contentOnly st line st' out Hh))
                  reads true "").
    destruct (readLoop (streamLine true) true "" reads) as [out [[first b]|]];
      cbn [yielded fst] in *; [|now apply Hall].
    rewrite builtChunks_app. apply Forall_app. split; [now apply Hall|].
    unfold flushBuffer. destruct (nonEmpty (trim b)); [|constructor].
    apply flushLines_contentOnly.
Qed.

(** ** An empty line makes the Ollama processors hang *)

Section EmptyLine.
Context {St O : Type}.
Variable handle : St -> string -> LineAction St O.

Lemma append_inv_head (a x y : string) : a ++ x = a ++ y -> x = y.
Proof.
  induction a as [|c a IH]; cbn [append]; [trivial|].
  intros [= H]. now apply IH.
Qed.

Lemma ndjson_app (ls1 ls2 : list string) :
  ndjson (ls1 ++ ls2) = ndjson ls1 ++ ndjson ls2.
Proof. unfold ndjson. now rewrite map_app, concatAll_app. Qed.

Lemma cut_lines_then (ls : list string) (t : string) :
  Forall (fun l => indexOfLF l = None) ls ->
  cut (ndjson ls ++ t) = ((ls ++ fst (cut t))%list, snd (cut t)).
Proof.
  intros Hls. rewrite cut_append.
  pose proof (cut_ndjson ls "" Hls eq_refl) as Hc.
  rewrite append_nil_r in Hc. rewrite Hc. reflexivity.
Qed.

(** The loop on complete lines that are handled, followed by any text. *)
Lemma turns_lines_then (ls : list string) :
  forall st t fuel,
    Forall (fun l => indexOfLF l = None) ls ->
    Forall (handled handle) ls ->
    turns handle (List.length ls + fuel)
      (mkLoopState st (ndjson ls ++ t) (indexOfLF (ndjson ls ++ t)))
    = ((fst (handleLines handle st ls)
        ++ fst (turns handle fuel
                  (mkLoopState (snd (handleLines handle st ls)) t
                     (indexOfLF t))))%list,
       snd (turns handle fuel
              (mkLoopState (snd (handleLines handle st ls)) t (indexOfLF t)))).
Proof.
  induction ls as [|l ls IH]; intros st t fuel Hlf Hh.
  - change (ndjson [] ++ t) with t. cbn [List.length Nat.add handleLines fst snd app].
    now destruct (turns handle fuel _).
  - inversion Hlf as [|? ? Hl Hls]; inversion Hh as [|? ? Hhl Hhls]; subst.
    rewrite ndjson_cons, (indexOfLF_line _ _ Hl).
    cbn [List.length Nat.add turns lineEnd]. unfold iteration. cbn [buffer state].
    rewrite take_line, drop_line.
    specialize (Hhl st). cbn [handleLines].
    destruct (handle st (trim l)) as [|st' out]; [contradiction|].
    rewrite (IH st' t fuel Hls Hhls).
    destruct (handleLines handle st' ls) as [outs final]. cbn [fst snd].
    now rewrite app_assoc.
Qed.

Hypothesis empty_continues : forall st, handle st "" = Continue.

(** After the [continue] on an empty line the index stays 0: each turn
    cuts an empty line again, and no turn leaves the loop. *)
Lemma turns_stale_index (fuel : nat) :
  forall st b, turns handle fuel (mkLoopState st b (Some 0)) = ([], None).
Proof.
  induction fuel as [|fuel IH]; intros st b; cbn [turns lineEnd];
    [reflexivity|].
  unfold iteration. cbn [state buffer].
  replace (take 0 b) with "" by now destruct b.
  change (trim "") with "". rewrite empty_continues, IH. reflexivity.
Qed.

Lemma lineLoop_empty_line (ls : list string) (st : St) (t : string) :
  Forall (fun l => indexOfLF l = None) ls ->
  Forall (handled handle) ls ->
  lineLoop handle st (ndjson ls ++ NL ++ t)
  = (fst (handleLines handle st ls), None).
Proof.
  intros Hlf Hh. unfold lineLoop.
  pose proof (length_ndjson ls (NL ++ t)) as Hlen.
  replace (String.length (ndjson ls ++ NL ++ t) + 1)
    with (List.length ls
          + (String.length (ndjson ls ++ NL ++ t) + 1 - List.length ls)) by lia.
  rewrite (turns_lines_then ls st (NL ++ t) _ Hlf Hh).
  change (indexOfLF (NL ++ t)) with (Some 0).
  rewrite turns_stale_index. cbn [fst snd]. now rewrite app_nil_r.
Qed.

Lemma readLoop_empty_line (reads : list string) :
  forall st b ls rest,
    indexOfLF b = None ->
    Forall (fun l => indexOfLF l = None) ls ->
    Forall (handled handle) ls ->
    b ++ concatAll reads = ndjson ls ++ NL ++ rest ->
    readLoop handle st b reads = (fst (handleLines handle st ls), None).
Proof.
  induction reads as [|chunk reads IH]; intros st b ls rest Hb Hlf Hh Heq.
  - exfalso. cbn [concatAll] in Heq. rewrite append_nil_r in Heq.
    pose proof (cut_noLF b Hb) as Hc.
    rewrite Heq, (cut_lines_then ls _ Hlf) in Hc.
    change (NL ++ rest) with ("" ++ NL ++ rest) in Hc.
    rewrite (cut_line "" rest eq_refl) in Hc. cbn [fst snd] in Hc.
    injection Hc as Hc _. now destruct ls.
  - cbn [concatAll] in Heq. rewrite <- append_assoc in Heq.
    destruct (cut_spec (b ++ chunk)) as (HB & Hr1 & Hlf1).
    set (ls1 := fst (cut (b ++ chunk))) in *.
    set (r1 := snd (cut (b ++ chunk))) in *.
    assert (Hcut : (ls1 ++ fst (cut (r1 ++ concatAll reads)))%list
                   = (ls ++ "" :: fst (cut rest))%list).
    { pose proof (f_equal (fun s => fst (cut s)) Heq) as Hc. cbn beta in Hc.
      rewrite cut_append, (cut_lines_then ls _ Hlf) in Hc.
      change (NL ++ rest) with ("" ++ NL ++ rest) in Hc.
      rewrite (cut_line "" rest eq_refl) in Hc. exact Hc. }
    apply app_eq_app in Hcut as [l [[H1 H2]|[H1 H2]]].
    + destruct l as [|e l].
      * (* the read ends inside the lines, just before the empty one *)
        rewrite app_nil_r in H1. cbn [readLoop].
        rewrite lineLoop_clean by (fold ls1; now rewrite H1).
        fold ls1 r1. cbn [state buffer]. rewrite H1.
        rewrite (IH _ r1 [] rest Hr1 (Forall_nil _) (Forall_nil _)).
        -- cbn [handleLines fst]. now rewrite app_nil_r.
        -- rewrite HB, H1, append_assoc in Heq.
           exact (append_inv_head _ _ _ Heq).
      * (* the read holds the empty line *)
        cbn [app] in H2. injection H2 as <- _.
        cbn [readLoop]. rewrite HB, H1, ndjson_app, append_assoc.
        rewrite ndjson_cons.
        change ("" ++ NL ++ ndjson l ++ r1) with (NL ++ ndjson l ++ r1).
        now rewrite (lineLoop_empty_line ls st _ Hlf Hh).
    + (* the read ends inside the lines *)
      subst ls. apply Forall_app in Hlf as [Hlfa Hlfb].
      apply Forall_app in Hh as [Hha Hhb].
      cbn [readLoop]. rewrite lineLoop_clean by exact Hha.
      fold ls1 r1. cbn [state buffer].
      rewrite (IH _ r1 l rest Hr1 Hlfb Hhb).
      * now rewrite handleLines_app.
      * rewrite HB, ndjson_app, !append_assoc in Heq.
        exact (append_inv_head _ _ _ Heq).
Qed.

End EmptyLine.



(** ** The event-stream branch of [createStreamProcessor] *)

Section Trimmed.

Lemma trimEnd_tail (c : ascii) (s : string) :
  trimEnd (String c s) = String c s -> s <> "" -> trimEnd s = s.
Proof.
  cbn [trimEnd]. destruct (trimEnd s) as [|a t] eqn:Ht.
  - destruct (isWhiteSpace c); [discriminate|]. intros [= <-]. congruence.
  - now intros [= <-].
Qed.

Lemma trimEnd_white (c : ascii) (s : string) :
  isWhiteSpace c = true ->
  trimEnd (String c s) = String c s -> trimEnd s = s /\ s <> "".
Proof.
  intros Hc. cbn [trimEnd]. destruct (trimEnd s) as [|a t] eqn:Ht.
  - rewrite Hc. discriminate.
  - intros [= <-]. split; [reflexivity | discriminate].
Qed.

Lemma trimEnd_idem (s : string) : trimEnd (trimEnd s) = trimEnd s.
Proof.
  induction s as [|c s IH]; [reflexivity|].
  cbn [trimEnd]. destruct (trimEnd s) as [|a t] eqn:Ht.
  - destruct (isWhiteSpace c) eqn:Hc; [reflexivity|].
    cbn [trimEnd]. now rewrite Hc.
  - change (trimEnd (String c (String a t)))
      with (match trimEnd (String a t) with
            | "" => if isWhiteSpace c then "" else String c ""
            | String x y => String c (String x y)
            end).
    rewrite IH. reflexivity.
Qed.

Lemma trimEnd_trimStart_empty (s : string) :
  trimEnd (trimStart s) = "" -> trimEnd s = "".
Proof.
  induction s as [|c s IH]; [trivial|].
  cbn [trimStart]. destruct (isWhiteSpace c) eqn:Hc; [|trivial].
  intros H. cbn [trimEnd]. now rewrite (IH H), Hc.
Qed.

(** In a line that [trim] gave, something that is not white space follows
    [data: ]: the test [if (!data) continue] of the loop never holds. *)
Lemma data_nonEmpty (l : string) :
  startsWith "data: " (trim l) = true ->
  nonEmpty (trim (drop 6 (trim l))) = true.
Proof.
  intros Hs. pose proof (trimEnd_idem (trimStart l)) as Hi.
  fold (trim l) in Hi. apply startsWith_split in Hs.
  set (x := drop (String.length "data: ") (trim l)) in *.
  change (drop 6 (trim l)) with x. rewrite Hs in Hi. clear Hs.
  cbn [append] in Hi.
  do 5 (apply trimEnd_tail in Hi; [|discriminate]).
  apply trimEnd_white in Hi as [Hx Hne]; [|reflexivity].
  unfold trim. destruct (trimEnd (trimStart x)) eqn:Ht; [|reflexivity].
  apply trimEnd_trimStart_empty in Ht. congruence.
Qed.

End Trimmed.

Section EventStream.
Context {rt : JsRuntime}.

Lemma streamLine_event (st : bool) (l : string) :
  String.eqb (trim l) doneSentinel = false ->
  streamLine false st (trim l) = Handled st (map Parsed (eventPayload l)).
Proof.
  intros Hd. unfold streamLine, eventPayload. fold doneSentinel. rewrite Hd.
  destruct (startsWith "data: " (trim l)) eqn:Hs; [|reflexivity].
  unfold eventStreamData. rewrite (data_nonEmpty l Hs). cbn [negb].
  now destruct (JSON_parse (trim (drop 6 (trim l)))).
Qed.

Lemma handled_event (l : string) :
  String.eqb (trim l) doneSentinel = false -> handled (streamLine false) l.
Proof. intros Hd st. now rewrite (streamLine_event st l Hd). Qed.

Lemma handleLines_event (lines : list string) (st : bool) :
  Forall (fun l => String.eqb (trim l) doneSentinel = false) lines ->
  handleLines (streamLine false) st lines
  = (map Parsed (flat_map eventPayload lines), st).
Proof.
  induction 1 as [|l lines Hl _ IH]; [reflexivity|].
  cbn [handleLines flat_map]. rewrite (streamLine_event st l Hl), IH.
  now rewrite map_app.
Qed.

Lemma flushBuffer_event (st : bool) (r : string) :
  indexOfLF r = None ->
  flushBuffer false st r = map Parsed (lastPayload r).
Proof.
  intros Hr. unfold flushBuffer, lastPayload, eventPayload.
  destruct (nonEmpty (trim r)) eqn:Hne.
  - rewrite (splitLF_noLF _ (trim_noLF r Hr)). cbn [flushLines].
    fold doneSentinel.
    destruct (String.eqb (trim r) doneSentinel);
      [now rewrite andb_false_r|].
    rewrite andb_true_r.
    destruct (startsWith "data: " (trim r)) eqn:Hs; [|reflexivity].
    unfold eventStreamData. rewrite (data_nonEmpty r Hs). cbn [negb].
    destruct (JSON_parse (trim (drop 6 (trim r)))); now rewrite app_nil_r.
  - apply nonEmpty_false in Hne. rewrite Hne. reflexivity.
Qed.

(** No state of the loop of the event-stream branch spins. *)
Lemma drop_fixed (k : nat) (b : string) : drop (k + 1) b = b -> b = "".
Proof.
  intros H. destruct b as [|c b]; [reflexivity|]. exfalso.
  pose proof (f_equal String.length H) as Hl.
  rewrite Nat.add_1_r in Hl. cbn [drop String.length] in Hl.
  pose proof (length_drop k b). lia.
Qed.

Lemma event_stream_never_spins (s : LoopState bool) :
  ~ spins (streamLine false) s.
Proof.
  intros (k & Hk & Hit). unfold iteration in Hit.
  destruct (streamLine false (state s) (trim (take k (buffer s))))
    as [|st out] eqn:Hh.
  - injection Hit as Hs. pose proof (f_equal buffer Hs) as Hb.
    cbn [buffer] in Hb. apply drop_fixed in Hb. rewrite Hb in Hh.
    replace (take k "") with "" in Hh by now destruct k.
    discriminate.
  - injection Hit as Hs _. pose proof (f_equal buffer Hs) as Hb.
    cbn [buffer] in Hb. apply drop_fixed in Hb.
    rewrite <- Hs, Hb in Hk. cbn [lineEnd] in Hk.
    replace (drop (k + 1) "") with "" in Hk by now rewrite Nat.add_1_r.
    discriminate.
Qed.

Lemma readLoop_event_returns (reads : list string) :
  forall st b, snd (readLoop (streamLine false) st b reads) <> None.
Proof.
  induction reads as [|chunk reads IH]; intros st b; cbn [readLoop];
    [discriminate|].
  pose proof (lineLoop_hang_spins (streamLine false) st (b ++ chunk)) as Hs.
  destruct (lineLoop (streamLine false) st (b ++ chunk)) as [out [s|]].
  - specialize (IH (state s) (buffer s)).
    now destruct (readLoop (streamLine false) (state s) (buffer s) reads).
  - destruct (Hs eq_refl) as (s' & _ & Hsp).
    now apply event_stream_never_spins in Hsp.
Qed.

End EventStream.

Section ReadsApp.
Context {St O : Type}.
Variable handle : St -> string -> LineAction St O.

Lemma readLoop_app (reads1 reads2 : list string) :
  forall st b,
    readLoop handle st b (reads1 ++ reads2)
    = match readLoop handle st b reads1 with
      | (out, Some (st', b')) =>
          ((out ++ fst (readLoop handle st' b' reads2))%list,
           snd (readLoop handle st' b' reads2))
      | (out, None) => (out, None)
      end.
Proof.
  induction reads1 as [|chunk reads1 IH]; intros st b.
  - cbn [app readLoop]. now destruct (readLoop handle st b reads2).
  - cbn [app readLoop].
    destruct (lineLoop handle st (b ++ chunk)) as [out [s|]]; [|reflexivity].
    rewrite IH.
    destruct (readLoop handle (state s) (buffer s) reads1) as [o [[st' b']|]];
      [|reflexivity].
    now rewrite app_assoc.
Qed.

End ReadsApp.

(** X9.  The event-stream branch of [createStreamProcessor] always
    returns, whatever it reads. *)
Theorem event_stream_processor_returns :
  forall (rt : JsRuntime) (reads : list string),
    exists emitted, createStreamProcessor false reads = Completes emitted.
Proof.
  intros rt reads. unfold createStreamProcessor.
  pose proof (readLoop_event_returns reads true "") as H.
  destruct (readLoop (streamLine false) true "" reads) as [out [[st b]|]].
  - eexists. reflexivity.
  - now contradiction H.
Qed.

(** X10.  The event-stream branch gives the payloads of the [data: ] lines
    of the text, parsed, in their order, whatever the places where the
    reads cut the text, as long as no complete line is the closing line
    [data: [DONE]]; the text after the last line feed is read as a line,
    unless it is the closing line.  When the closing line and an empty
    line come in a read of their own after complete lines, the result is
    the payloads of those lines. *)
Theorem event_stream_payloads_in_order :
  forall (rt : JsRuntime) (reads : list string),
    Forall (fun l => String.eqb (trim l) doneSentinel = false)
      (fst (cut (concatAll reads))) ->
    createStreamProcessor false reads
    = Completes (map Parsed
                   (flat_map eventPayload (fst (cut (concatAll reads)))
                    ++ lastPayload (snd (cut (concatAll reads)))))
    /\ (snd (cut (concatAll reads)) = "" ->
        createStreamProcessor false (reads ++ [doneSentinel ++ NL ++ NL])
        = Completes (map Parsed
                       (flat_map eventPayload (fst (cut (concatAll reads)))))).
Proof.
  intros rt reads Hd.
  destruct (cut_spec (concatAll reads)) as (Ht & Hr & Hlf).
  pose proof (readLoop_clean (streamLine false) reads true "" eq_refl) as Hc.
  change ("" ++ concatAll reads) with (concatAll reads) in Hc.
  assert (Hh : Forall (handled (streamLine false)) (fst (cut (concatAll reads)))).
  { clear -Hd. induction Hd; constructor; auto using handled_event. }
  specialize (Hc Hh). rewrite (handleLines_event _ true Hd) in Hc.
  cbn [fst snd] in Hc. split.
  - unfold createStreamProcessor. rewrite Hc, (flushBuffer_event _ _ Hr).
    now rewrite map_app.
  - intros Hempty. unfold createStreamProcessor.
    rewrite readLoop_app, Hc, Hempty. vm_compute readLoop at 1 2.
    cbn [fst snd]. change (flushBuffer false true "") with (@nil Emitted).
    now rewrite !app_nil_r.
Qed.

Lemma event_stream_payloads_in_order_witness :
  let text := ndjson [dq "data: {'id':'1'}"; ""; ": ping"; dq "data: {'id':'2'}"; ""] in
  @createStreamProcessor exampleRuntime false
    [take 7 text; drop 7 text; doneSentinel ++ NL ++ NL]
  = Completes [Parsed (JObject [("id", JString "1")]);
               Parsed (JObject [("id", JString "2")])].
Proof.
  cbv zeta.
  refine (proj2 (event_stream_payloads_in_order exampleRuntime
                   [take 7 _; drop 7 _] _) _);
    [vm_compute; repeat constructor | vm_compute; reflexivity].
Defined.

(** ** Which format the body of a response is read in *)

Section Routing.

Lemma includes_nonEmpty (p s : string) :
  nonEmpty p = true -> includes p s = true -> nonEmpty s = true.
Proof. destruct p; [discriminate|]. now destruct s. Qed.

Lemma isOllama_large (config : GlobalConfig) (model : string) :
  isOllama Large config model = false -> streamIsOllama config = false.
Proof.
  unfold isOllama, streamIsOllama, baseURLOf, providerOf, andThen.
  intros H. apply orb_false_iff in H as [H Hp].
  apply orb_false_iff in H as [Hu _]. rewrite Hp, orb_false_r.
  destruct (largeModelBaseURL config) as [u|]; [|reflexivity].
  destruct (includes "ollama" u) eqn:Hi; [|reflexivity].
  rewrite (includes_nonEmpty "ollama" u eq_refl Hi) in Hu.
  discriminate.
Qed.

End Routing.

(** X11.  For the large model the two tests of the provider agree: when
    [getCompletion] does not take the Ollama path, the processor it hands
    the body of the response to reads it as an event stream, so it returns
    and gives the payloads of the [data: ] lines. *)
Theorem large_model_body_is_read_as_event_stream :
  forall (rt : JsRuntime) (config : GlobalConfig) (model : string)
         (reads : list string),
    isOllama Large config model = false ->
    streamIsOllama config = false
    /\ getCompletionStreaming Large config model reads
       = createStreamProcessor false reads
    /\ endpoint Large config model
       = shownURL (largeModelBaseURL config) ++ "/chat/completions".
Proof.
  intros rt config model reads H.
  pose proof (isOllama_large config model H) as Hs.
  unfold getCompletionStreaming, endpoint. rewrite H, Hs. now repeat split.
Qed.

Lemma large_model_body_is_read_as_event_stream_witness :
  @getCompletionStreaming exampleRuntime Large
    (mkGlobalConfig (Some "sk-example") None (Some "https://api.example.com/v1")
       None (Some "openai") (Some "ollama"))
    "gpt-4o" [dq "data: {'id':'1'}" ++ NL ++ NL]
  = Completes [Parsed (JObject [("id", JString "1")])].
Proof.
  refine (eq_trans (proj1 (proj2
    (large_model_body_is_read_as_event_stream exampleRuntime _ _ _ _))) _);
    vm_compute; reflexivity.
Defined.

(** ** The event stream of the small model, read as an Ollama stream *)

Section Mismatch.

Lemma parse_data (s : string) : NodeJson.parse (String "d" s) = None.
Proof. reflexivity. Qed.

Lemma trim_data (s : string) : exists t, trim (String "d" s) = String "d" t.
Proof.
  unfold trim. cbn [trimStart]. change (isWhiteSpace "d") with false.
  cbn [trimEnd]. destruct (trimEnd s); eexists; reflexivity.
Qed.

Lemma data_line_malformed (shell : JsonValue -> ExecOutcome) (l : string) :
  startsWith "data:" l = true ->
  @JSON_parse (NodeJson.nodeRuntime shell) (trim l) = None /\ blank l = false.
Proof.
  intros Hs. apply startsWith_split in Hs. rewrite Hs. cbn [append].
  destruct (trim_data ("ata:" ++ drop (String.length "data:") l)) as [t Ht].
  unfold blank. cbn [append] in Ht. rewrite Ht. split; [|reflexivity].
  apply parse_data.
Qed.

Context {rt : JsRuntime}.

Lemma handleLines_malformed (lines : list string) :
  Forall (fun l => JSON_parse (trim l) = None /\ blank l = false) lines ->
  forall st, handleLines (streamLine true) st lines = ([], st).
Proof.
  induction 1 as [|l lines [Hp Hb] _ IH]; intros st; [reflexivity|].
  cbn [handleLines]. unfold streamLine, builtChunk, openaiChunk.
  rewrite (blank_false l Hb), Hp. cbn [negb]. now rewrite IH.
Qed.

End Mismatch.

(** X12.  The processor of the other path reads the format of the stream
    from the configuration of the large model, also when the request was
    for the small one.  When the small model is not on the Ollama path
    and the large model is configured for Ollama, the event stream of the
    answer is read as an Ollama stream: no line of it is JSON (under the
    JSON of the runtime no text that starts with [data:] is), so when the
    text is complete [data:] lines nothing is yielded, and when an empty
    line follows such lines, as after each event of an event stream,
    nothing is yielded and the processor never returns. *)
Theorem small_model_event_stream_is_lost :
  forall (shell : JsonValue -> ExecOutcome) (config : GlobalConfig)
         (model : string) (lines : list string) (rest : string)
         (reads : list string),
    isOllama Small config model = false ->
    streamIsOllama config = true ->
    Forall (fun l => startsWith "data:" l = true /\ indexOfLF l = None) lines ->
    (concatAll reads = ndjson lines ->
     @getCompletionStreaming (NodeJson.nodeRuntime shell) Small config model reads
     = Completes [])
    /\ (concatAll reads = ndjson lines ++ NL ++ rest ->
        @getCompletionStreaming (NodeJson.nodeRuntime shell) Small config model
          reads
        = Hangs []).
Proof.
  intros shell config model lines rest reads Hi Hs Hl.
  unfold getCompletionStreaming. rewrite Hi, Hs.
  assert (Hlf : Forall (fun l => indexOfLF l = None) lines).
  { clear -Hl. induction Hl as [|l lines [_ H] _ IH]; constructor; auto. }
  assert (Hm : Forall (fun l => @JSON_parse (NodeJson.nodeRuntime shell) (trim l) = None
                                /\ blank l = false) lines).
  { clear -Hl. induction Hl as [|l lines [H _] _ IH]; constructor; auto.
    now apply data_line_malformed. }
  assert (Hb : Forall (fun l => blank l = false) lines).
  { clear -Hm. induction Hm as [|l lines [_ H] _ IH]; constructor; auto. }
  split; intros Heq.
  - rewrite (createStreamProcessor_lines reads lines "");
      [|now rewrite append_nil_r | assumption | assumption | reflexivity].
    now rewrite (handleLines_malformed lines Hm).
  - unfold createStreamProcessor.
    rewrite (readLoop_empty_line (streamLine true) (fun _ => eq_refl)
               reads true "" lines rest eq_refl Hlf
               (handled_nonblank _ _ handled_streamLine Hb) Heq).
    now rewrite (handleLines_malformed lines Hm).
Qed.

Lemma small_model_event_stream_is_lost_witness :
  isOllama Small mixedConfig "gpt-4o-mini" = false
  /\ @getCompletionStreaming exampleRuntime Small mixedConfig "gpt-4o-mini"
       [dq "data: {'id':'1'}" ++ NL; NL ++ doneSentinel ++ NL ++ NL]
     = Hangs [].
Proof.
  split; [reflexivity|].
  refine (proj2 (small_model_event_stream_is_lost _ mixedConfig "gpt-4o-mini"
                   [dq "data: {'id':'1'}"] (doneSentinel ++ NL ++ NL) _ _ _ _) _);
    [reflexivity | reflexivity | repeat constructor | reflexivity].
Defined.

(** ** The configuration of a model and the body of the Ollama request *)

Section ModelConfigs.

Lemma find_model_some (models : list ModelConfig) (modelName : string)
  (cfg : ModelConfig) :
  find (fun m => String.eqb (cfg_model m) modelName) models = Some cfg ->
  cfg_model cfg = modelName /\ In cfg models.
Proof.
  intros H. apply find_some in H as [Hin He].
  now apply String.eqb_eq in He.
Qed.

Lemma find_model_none (models : list ModelConfig) (modelName : string) :
  find (fun m => String.eqb (cfg_model m) modelName) models = None <->
  forall cfg, In cfg models -> cfg_model cfg <> modelName.
Proof.
  split.
  - intros H cfg Hin He. apply (find_none _ _ H) in Hin.
    apply String.eqb_neq in Hin. contradiction.
  - intros H. induction models as [|m models IH]; [reflexivity|].
    cbn [find]. destruct (String.eqb (cfg_model m) modelName) eqn:He.
    + apply String.eqb_eq in He. now destruct (H m (or_introl eq_refl)).
    + apply IH. intros cfg Hin. apply H. now right.
Qed.

End ModelConfigs.

(** X13.  [getModelConfig] gives an entry of the list whose name is the
    name asked for, the first one in the order of the categories and of
    their entries; it gives [null] exactly when no entry of any category
    has that name. *)
Theorem getModelConfig_finds_first_entry :
  forall (modelsList : list (string * list ModelConfig)) (modelName : string),
    (forall cfg,
        getModelConfig modelsList modelName = Some cfg ->
        cfg_model cfg = modelName
        /\ exists before category models after,
             modelsList = (before ++ (category, models) :: after)%list
             /\ In cfg models
             /\ find (fun m => String.eqb (cfg_model m) modelName) models
                = Some cfg
             /\ Forall (fun entry =>
                          forall m, In m (snd entry) -> cfg_model m <> modelName)
                  before)
    /\ (getModelConfig modelsList modelName = None <->
        forall category models cfg,
          In (category, models) modelsList -> In cfg models ->
          cfg_model cfg <> modelName).
Proof.
  intros modelsList modelName.
  induction modelsList as [|[category models] modelsList [IH1 IH2]].
  - split; [discriminate|]. split; [intros _ ? ? ? []|reflexivity].
  - cbn [getModelConfig].
    destruct (find (fun m => String.eqb (cfg_model m) modelName) models)
      as [m|] eqn:Hf.
    + split.
      * intros cfg [= <-]. destruct (find_model_some _ _ _ Hf) as [Hn Hin].
        split; [exact Hn|].
        exists [], category, models, modelsList.
        split; [reflexivity|]. split; [exact Hin|]. split; [exact Hf|].
        constructor.
      * split; [discriminate|]. intros H. exfalso.
        destruct (find_model_some _ _ _ Hf) as [Hn Hin].
        exact (H category models m (or_introl eq_refl) Hin Hn).
    + pose proof (proj1 (find_model_none models modelName) Hf) as Hnone.
      split.
      * intros cfg Hg. destruct (IH1 cfg Hg)
          as (Hn & before & cat & ms & after & -> & Hin & Hfind & Hb).
        split; [exact Hn|].
        exists ((category, models) :: before), cat, ms, after.
        split; [reflexivity|]. split; [exact Hin|]. split; [exact Hfind|].
        constructor; [exact Hnone | exact Hb].
      * rewrite IH2. split.
        -- intros H cat ms cfg [[= <- <-]|Hin] Hc;
             [now apply Hnone | now apply (H cat ms)].
        -- intros H cat ms cfg Hin. apply (H cat ms cfg). now right.
Qed.

(** X14.  The body [sendOllamaRequest] posts for [getCompletion]: every
    message in it has a truthy content; it always asks for a stream; its
    temperature and its [num_predict] are truthy, those of the caller when
    they are truthy and 0.7 and 4096 when they are missing or falsy, so a
    temperature of 0 is sent as 0.7. *)
Theorem ollama_request_body_defaults :
  forall (modelsList : list (string * list ModelConfig)) (model : string)
         (messages : list ChatMessage) (temperature max_tokens : option JsonValue),
    let body := getCompletionRequestBody modelsList model messages
                  temperature max_tokens in
    body_model body = model
    /\ body_stream body = true
    /\ body_messages body = requestMessages true modelsList model messages
    /\ Forall (fun m => truthy (msg_content m) = true) (body_messages body)
    /\ truthy (body_temperature body) = true
    /\ truthy (body_num_predict body) = true
    /\ (forall v, temperature = Some v ->
                  body_temperature body
                  = if truthy v then v else JNumber true "0.7")
    /\ (temperature = None -> body_temperature body = JNumber true "0.7")
    /\ (forall v, max_tokens = Some v ->
                  body_num_predict body
                  = if truthy v then v else JNumber true "4096")
    /\ (max_tokens = None -> body_num_predict body = JNumber true "4096").
Proof.
  intros modelsList model messages temperature max_tokens body.
  assert (Hor : forall v d, truthy d = true -> truthy (orElse v d) = true).
  { intros [v|] d Hd; cbn [orElse]; [|exact Hd].
    destruct (truthy v) eqn:Hv; [exact Hv | exact Hd]. }
  split; [reflexivity|]. split; [reflexivity|]. split; [reflexivity|].
  split.
  { unfold body, getCompletionRequestBody, ollamaRequestBody, filteredMessages.
    cbn [body_messages]. apply Forall_forall. intros m Hin.
    now apply filter_In in Hin. }
  split; [now apply Hor|]. split; [now apply Hor|].
  split; [now intros v ->|]. split; [now intros ->|].
  split; [now intros v ->|]. now intros ->.
Qed.

(** ** A text without trigger words is passed on *)

Section NoFalsePositive.
Import Regex PatternNeeds.

Lemma sameChar_lowerChar (a d : ascii) :
  sameChar true a d = true -> lowerChar a = lowerChar d.
Proof.
  assert (Hall : forallb (fun x =>
                   forallb (fun y =>
                     implb (sameChar true (ascii_of_nat x) (ascii_of_nat y))
                       (Ascii.eqb (lowerChar (ascii_of_nat x))
                          (lowerChar (ascii_of_nat y))))
                     (seq 0 256)) (seq 0 256) = true)
    by (vm_compute; reflexivity).
  intros H. rewrite forallb_forall in Hall.
  assert (Ha : In (nat_of_ascii a) (seq 0 256))
    by (apply in_seq; pose proof (nat_ascii_bounded a); lia).
  assert (Hd : In (nat_of_ascii d) (seq 0 256))
    by (apply in_seq; pose proof (nat_ascii_bounded d); lia).
  pose proof (proj1 (forallb_forall _ _) (Hall _ Ha) _ Hd) as Hc.
  cbv beta in Hc. rewrite !ascii_nat_embedding, H in Hc.
  now apply Ascii.eqb_eq.
Qed.

Lemma toLowerCase_app (a b : string) :
  toLowerCase (a ++ b) = toLowerCase a ++ toLowerCase b.
Proof. induction a as [|c a IH]; cbn; [reflexivity | now rewrite IH]. Qed.

Context {A : Type}.

(** Where a pattern goes through, its continuation went through on what
    was left of the text. *)
Lemma starLoop_reaches
  (step : nat -> string -> Captures ->
          (nat -> string -> Captures -> option A) -> option A)
  (greedy : bool) (gs : list nat)
  (k : nat -> string -> Captures -> option A) (x : A) :
  (forall pos s caps k',
      step pos s caps k' = Some x ->
      exists pos' s' caps' a, k' pos' s' caps' = Some x /\ s = a ++ s') ->
  forall fuel pos s caps,
    starLoop step greedy gs k fuel pos s caps = Some x ->
    exists pos' s' caps' a, k pos' s' caps' = Some x /\ s = a ++ s'.
Proof.
  intros Hstep. induction fuel as [|fuel IH]; intros pos s caps H.
  - exists pos, s, caps, "". now split.
  - cbn [starLoop] in H.
    assert (Hagain : step pos s (clearGroups gs caps)
                       (fun pos' s' caps' =>
                          if pos' =? pos then None
                          else starLoop step greedy gs k fuel pos' s' caps')
                     = Some x ->
                     exists pos' s' caps' a, k pos' s' caps' = Some x /\ s = a ++ s').
    { intros Hs. apply Hstep in Hs as (pos1 & s1 & caps1 & a1 & Hk & ->).
      destruct (pos1 =? pos); [discriminate|].
      apply IH in Hk as (pos2 & s2 & caps2 & a2 & Hk & ->).
      exists pos2, s2, caps2, (a1 ++ a2). split; [exact Hk|].
      now rewrite append_assoc. }
    destruct greedy.
    + destruct (step pos s (clearGroups gs caps) _) as [y|] eqn:Hs.
      * injection H as ->. now apply Hagain.
      * exists pos, s, caps, "". now split.
    + destruct (k pos s caps) as [y|] eqn:Hk.
      * injection H as ->. exists pos, s, caps, "". now split.
      * now apply Hagain.
Qed.

Lemma rmatch_reaches (ci : bool) (r : regex) (x : A) :
  forall pos s caps (k : nat -> string -> Captures -> option A),
    rmatch ci r pos s caps k = Some x ->
    exists pos' s' caps' a, k pos' s' caps' = Some x /\ s = a ++ s'.
Proof.
  induction r as [| |c| |neg items| |r1 IH1 r2 IH2|r1 IH1 r2 IH2|greedy r1 IH1
                 |n r1 IH1];
    intros pos s caps k H; cbn [rmatch] in H.
  - exists pos, s, caps, "". now split.
  - discriminate.
  - destruct s as [|d s']; [discriminate|].
    destruct (sameChar ci c d); [|discriminate].
    exists (S pos), s', caps, (String d ""). now split.
  - destruct s as [|d s']; [discriminate|].
    destruct (isLineTerminator d); [discriminate|].
    exists (S pos), s', caps, (String d ""). now split.
  - destruct s as [|d s']; [discriminate|].
    destruct (classHolds ci neg items d); [|discriminate].
    exists (S pos), s', caps, (String d ""). now split.
  - destruct (pos =? 0); [|discriminate].
    exists pos, s, caps, "". now split.
  - apply IH1 in H as (pos1 & s1 & caps1 & a1 & H & ->).
    apply IH2 in H as (pos2 & s2 & caps2 & a2 & H & ->).
    exists pos2, s2, caps2, (a1 ++ a2). split; [exact H|].
    now rewrite append_assoc.
  - destruct (rmatch ci r1 pos s caps k) as [y|] eqn:H1.
    + injection H as ->. now apply IH1 in H1.
    + now apply IH2 in H.
  - apply (starLoop_reaches (rmatch ci r1) greedy (groupsOf r1) k x) in H;
      [exact H|].
    intros pos0 s0 caps0 k'. apply IH1.
  - apply IH1 in H as (pos1 & s1 & caps1 & a1 & H & ->).
    now exists pos1, s1, ((n, take (pos1 - pos) (a1 ++ s1)) :: caps1), a1.
Qed.

Lemma rmatch_startsLit (w : string) :
  forall (r : regex) pos s caps (k : nat -> string -> Captures -> option A) x,
    startsLit w r = true ->
    rmatch true r pos s caps k = Some x ->
    startsWith w (toLowerCase s) = true.
Proof.
  induction w as [|c w IH]; intros r pos s caps k x Hl H; [reflexivity|].
  cbn [startsLit] in Hl.
  assert (Hhead : forall a d s' ,
             Ascii.eqb (lowerChar a) c = true -> sameChar true a d = true ->
             startsWith w (toLowerCase s') = true ->
             startsWith (String c w) (toLowerCase (String d s')) = true).
  { intros a d s' Ha Hs Hw. cbn [toLowerCase startsWith].
    apply Ascii.eqb_eq in Ha. rewrite <- (sameChar_lowerChar a d Hs), Ha.
    now rewrite Ascii.eqb_refl. }
  destruct r as [| |a| | | |r1 r2| | |]; try discriminate.
  - apply andb_true_iff in Hl as [Ha Hw].
    cbn [rmatch] in H. destruct s as [|d s']; [discriminate|].
    destruct (sameChar true a d) eqn:Hs; [|discriminate].
    apply (Hhead a d s' Ha Hs). destruct w; [reflexivity | discriminate].
  - destruct r1 as [| |a| | | | | | |]; try discriminate.
    apply andb_true_iff in Hl as [Ha Hw].
    cbn [rmatch] in H. destruct s as [|d s']; [discriminate|].
    destruct (sameChar true a d) eqn:Hs; [|discriminate].
    apply (Hhead a d s' Ha Hs). exact (IH r2 _ _ _ _ _ Hw H).
Qed.

Lemma rmatch_needs (w : string) (r : regex) (x : A) :
  forall pos s caps (k : nat -> string -> Captures -> option A),
    needs w r = true ->
    rmatch true r pos s caps k = Some x ->
    includes w (toLowerCase s) = true.
Proof.
  induction r as [| |c| |neg items| |r1 IH1 r2 IH2|r1 IH1 r2 IH2|greedy r1 IH1
                 |n r1 IH1];
    intros pos s caps k Hn H; cbn [needs] in Hn;
    apply orb_true_iff in Hn as [Hn|Hn];
    try (apply includes_here; exact (rmatch_startsLit w _ _ _ _ _ _ Hn H));
    try discriminate.
  - cbn [rmatch] in H. apply orb_true_iff in Hn as [Hn|Hn].
    + exact (IH1 _ _ _ _ Hn H).
    + apply rmatch_reaches in H as (pos1 & s1 & caps1 & a1 & H & ->).
      rewrite toLowerCase_app. apply includes_app_l.
      exact (IH2 _ _ _ _ Hn H).
  - cbn [rmatch] in H. apply andb_true_iff in Hn as [Hn1 Hn2].
    destruct (rmatch true r1 pos s caps k) as [y|] eqn:H1.
    + injection H as ->. exact (IH1 _ _ _ _ Hn1 H1).
    + exact (IH2 _ _ _ _ Hn2 H).
  - cbn [rmatch] in H. exact (IH1 _ _ _ _ Hn H).
Qed.

End NoFalsePositive.

Section NoFalsePositive2.
Import Regex PatternNeeds.

Lemma search_needs (w : string) (r : regex) :
  needs w r = true ->
  forall s pos m,
    search true r pos s = Some m -> includes w (toLowerCase s) = true.
Proof.
  intros Hn. induction s as [|c s IH]; intros pos m H; cbn [search] in H;
    unfold matchAt in H.
  - destruct (rmatch true r pos "" [] _) as [y|] eqn:Hm; [|discriminate].
    exact (rmatch_needs w r y _ _ _ _ Hn Hm).
  - destruct (rmatch true r pos (String c s) [] _) as [y|] eqn:Hm.
    + exact (rmatch_needs w r y _ _ _ _ Hn Hm).
    + apply IH in H. cbn [toLowerCase]. now apply includes_later.
Qed.

Lemma exec_needs (p : RegExp) (text : string) :
  needsTableWord p = true ->
  Forall (fun w => includes w (toLowerCase text) = false) tableWords ->
  exec p text = None.
Proof.
  unfold needsTableWord, exec. intros Hp Hw.
  apply andb_true_iff in Hp as [-> Hp].
  apply existsb_exists in Hp as (w & Hin & Hn).
  rewrite Forall_forall in Hw. specialize (Hw w Hin).
  destruct (search true (compile (source p)) 0 text) as [m|] eqn:Hs;
    [|reflexivity].
  apply (search_needs w _ Hn) in Hs. congruence.
Qed.

Lemma extractCommand_needs (patterns : list RegExp) (text : string) :
  forallb needsTableWord patterns = true ->
  Forall (fun w => includes w (toLowerCase text) = false) tableWords ->
  extractCommand patterns text = None.
Proof.
  intros Hp Hw. induction patterns as [|p patterns IH]; [reflexivity|].
  cbn [forallb] in Hp. apply andb_true_iff in Hp as [Hp Hps].
  cbn [extractCommand]. rewrite (exec_needs p text Hp Hw). now apply IH.
Qed.

Lemma tables_need_words :
  forallb needsTableWord commandPatterns = true
  /\ forallb needsTableWord commandPatterns_nonStreaming = true.
Proof. split; vm_compute; reflexivity. Qed.

Lemma startsWith_prefix (a b s : string) :
  startsWith (a ++ b) s = true -> startsWith a s = true.
Proof.
  revert s. induction a as [|c a IH]; intros s; [reflexivity|].
  cbn [append startsWith]. destruct s as [|d s]; [discriminate|].
  intros H. apply andb_true_iff in H as [-> H]. now apply IH.
Qed.

Lemma includes_shorter (a b s : string) :
  includes (a ++ b) s = true -> includes a s = true.
Proof.
  induction s as [|d s IH]; cbn [includes]; intros Hi;
    apply orb_true_iff in Hi as [Hi|Hi];
    try (rewrite (startsWith_prefix a b _ Hi); reflexivity);
    try discriminate.
  rewrite (IH Hi). apply orb_true_r.
Qed.

Lemma includes_prefix (a b s : string) :
  includes a s = false -> includes (a ++ b) s = false.
Proof.
  intros H. destruct (includes (a ++ b) s) eqn:Hi; [|reflexivity].
  apply includes_shorter in Hi. congruence.
Qed.

Lemma inferCommand_plain (patterns : list RegExp) (text : string) :
  forallb needsTableWord patterns = true ->
  plainText text ->
  inferCommand patterns text = None.
Proof.
  intros Hp (Hw & Hthink & _).
  inversion Hw as [|? ? Hrun Hw1]; subst.
  inversion Hw1 as [|? ? Hexe Hw2]; subst.
  inversion Hw2 as [|? ? Hgit Hw3]; subst.
  inversion Hw3 as [|? ? Hstatus Hw4]; subst.
  inversion Hw4 as [|? ? Hchanges _]; subst.
  unfold inferCommand.
  rewrite (extractCommand_needs patterns text Hp)
    by (repeat constructor; assumption).
  assert (H1 : includes "git status" (toLowerCase text) = false)
    by exact (includes_prefix "git" " status" _ Hgit).
  assert (H2 : includes "git add" (toLowerCase text) = false)
    by exact (includes_prefix "git" " add" _ Hgit).
  assert (H3 : includes "git commit" (toLowerCase text) = false)
    by exact (includes_prefix "git" " commit" _ Hgit).
  assert (H4 : includes "git push" (toLowerCase text) = false)
    by exact (includes_prefix "git" " push" _ Hgit).
  assert (H5 : includes "run git" (toLowerCase text) = false)
    by exact (includes_prefix "run" " git" _ Hrun).
  assert (H6 : includes "execute git" (toLowerCase text) = false)
    by exact (includes_prefix "execute" " git" _ Hexe).
  unfold gitIntent, gitStatusIntent, gitAddIntent, gitCommitIntent,
    gitPushIntent. cbv zeta.
  rewrite H1, H2, H3, H4, H5, H6, Hstatus, Hchanges, Hgit.
  cbn [isSet negb andb orb]. rewrite !andb_false_r. cbn [orb].
  unfold thinkingIntent. now rewrite Hthink, andb_false_r.
Qed.

End NoFalsePositive2.

(** X15.  A text that holds none of the words [run], [execute], [git],
    [status] and [changes], in any case, and neither [<think>] nor
    [<function_calls>], is never taken for a call: with either table of
    patterns nothing is recovered, no command is run, and the text is
    passed on unchanged, as the single chunk of the streamed turn and as
    the content of the non-streaming completion, with the finish reason
    ['stop']. *)
Theorem plain_text_is_passed_on :
  forall (rt : JsRuntime) (model text : string),
    plainText text ->
    recover commandPatterns text = None
    /\ recover commandPatterns_nonStreaming text = None
    /\ turnChunks model text
       = [mkChunk (JString model)
            (mkDelta (Some "assistant") (ContentValue (JString text)) None)
            (Some "stop")]
    /\ turnCompletion model text
       = mkCompletion model "assistant" (ContentValue (JString text)) None
           "stop".
Proof.
  intros rt model text Hp.
  assert (Hr : forall patterns,
             forallb PatternNeeds.needsTableWord patterns = true ->
             recover patterns text = None).
  { intros patterns Hn. unfold recover.
    rewrite (exec_explicitFuncCallRegex_none text (proj2 (proj2 Hp))).
    now rewrite (inferCommand_plain patterns text Hn Hp). }
  pose proof (Hr _ (proj1 tables_need_words)) as H1.
  pose proof (Hr _ (proj2 tables_need_words)) as H2.
  unfold turnChunks, turnCompletion. rewrite H1, H2. now repeat split.
Qed.

Lemma plain_text_is_passed_on_witness :
  plainText "Paris is the capital of France. It is on the Seine."
  /\ @turnChunks exampleRuntime "qwq"
       "Paris is the capital of France. It is on the Seine."
     = [mkChunk (JString "qwq")
          (mkDelta (Some "assistant")
             (ContentValue
                (JString "Paris is the capital of France. It is on the Seine."))
             None)
          (Some "stop")].
Proof.
  assert (Hp : plainText "Paris is the capital of France. It is on the Seine.")
    by (split; [repeat constructor | split; reflexivity]).
  split; [exact Hp|].
  exact (proj1 (proj2 (proj2 (plain_text_is_passed_on exampleRuntime "qwq" _ Hp)))).
Defined.

(** ** A command between backquotes after [run] *)

Section Backquoted.
Import Regex RegexShapes PatternNeeds.

Lemma sameChar_backquote (c : ascii) : sameChar true "`" c = Ascii.eqb "`" c.
Proof.
  assert (Hall : forallb (fun x =>
                   Bool.eqb (sameChar true "`" (ascii_of_nat x))
                     (Ascii.eqb "`" (ascii_of_nat x))) (seq 0 256) = true)
    by (vm_compute; reflexivity).
  rewrite forallb_forall in Hall.
  specialize (Hall (nat_of_ascii c)). rewrite ascii_nat_embedding in Hall.
  apply Bool.eqb_prop, Hall, in_seq.
  pose proof (nat_ascii_bounded c). lia.
Qed.

Lemma includes_backquote (c : ascii) (w : string) :
  includes "`" (String c w) = false ->
  Ascii.eqb "`" c = false /\ includes "`" w = false.
Proof.
  cbn [includes startsWith]. intros H. apply orb_false_iff in H as [H1 H2].
  rewrite andb_true_r in H1. now split.
Qed.

Context {A : Type}.

Lemma rmatch_notBackquote (pos : nat) (d : ascii) (s : string) (caps : Captures)
  (k : nat -> string -> Captures -> option A) :
  rmatch true notBackquote pos (String d s) caps k
  = if Ascii.eqb "`" d then None else k (S pos) s caps.
Proof.
  cbn [rmatch notBackquote]. unfold classHolds. cbn [existsb itemHolds].
  rewrite sameChar_backquote. now destruct (Ascii.eqb "`" d).
Qed.

(** The greedy loop on [[^`]] takes all of a text without backquote that a
    backquote follows, when the continuation goes through there. *)
Lemma starLoop_notBackquote (k : nat -> string -> Captures -> option A)
  (post : string) (x : A) :
  forall w fuel pos caps,
    includes "`" w = false ->
    String.length w < fuel ->
    k (pos + String.length w) ("`" ++ post) caps = Some x ->
    starLoop (rmatch true notBackquote) true [] k fuel pos (w ++ "`" ++ post) caps
    = Some x.
Proof.
  induction w as [|c w IH]; intros fuel pos caps Hw Hf Hk;
    (destruct fuel as [|fuel]; [cbn in Hf; lia|]);
    cbn [starLoop]; rewrite clearGroups_nil.
  - change ("" ++ "`" ++ post) with (String "`" post).
    rewrite rmatch_notBackquote. cbn [Ascii.eqb Bool.eqb].
    rewrite Nat.add_0_r in Hk. exact Hk.
  - apply includes_backquote in Hw as [Hc Hw].
    change (String c w ++ "`" ++ post) with (String c (w ++ "`" ++ post)).
    rewrite rmatch_notBackquote, Hc.
    replace (S pos =? pos) with false by (symmetry; apply Nat.eqb_neq; lia).
    rewrite (IH fuel (S pos) caps Hw); [reflexivity | cbn in Hf; lia|].
    cbn [String.length] in Hk. now rewrite Nat.add_succ_comm.
Qed.

Lemma rmatch_whiteSpace (pos : nat) (d : ascii) (s : string) (caps : Captures)
  (k : nat -> string -> Captures -> option A) :
  rmatch true whiteSpace pos (String d s) caps k
  = if isWhiteSpace d then k (S pos) s caps else None.
Proof.
  cbn [rmatch whiteSpace]. unfold classHolds. cbn [existsb itemHolds].
  now destruct (isWhiteSpace d).
Qed.

Lemma rmatch_runBackquote (k : nat -> string -> Captures -> option A)
  (cmd post : string) (pos : nat) (caps : Captures) (x : A) :
  nonEmpty cmd = true ->
  includes "`" cmd = false ->
  k (pos + 5 + String.length cmd + 1) post ((1, cmd) :: caps) = Some x ->
  rmatch true runBackquote pos ("run `" ++ cmd ++ "`" ++ post) caps k = Some x.
Proof.
  intros Hne Hw Hk. destruct cmd as [|c w]; [discriminate|].
  apply includes_backquote in Hw as [Hc Hw].
  unfold runBackquote, RPlus. cbn [literalThen append].
  cbn [rmatch].
  replace (sameChar true "r" "r") with true by reflexivity.
  replace (sameChar true "u" "u") with true by reflexivity.
  replace (sameChar true "n" "n") with true by reflexivity.
  cbv iota. rewrite rmatch_whiteSpace.
  replace (isWhiteSpace " ") with true by reflexivity. cbv iota.
  cbn [String.length]. rewrite (Nat.add_1_r (S _)).
  cbn [starLoop]. rewrite rmatch_whiteSpace.
  replace (isWhiteSpace "`") with false by reflexivity. cbv iota.
  replace (sameChar true "`" "`") with true by reflexivity. cbv iota.
  rewrite rmatch_notBackquote, Hc.
  change (groupsOf notBackquote) with (@nil nat).
  change (w ++ String "`" post) with (w ++ "`" ++ post).
  apply starLoop_notBackquote; [exact Hw | rewrite length_append; lia|].
  change ("`" ++ post) with (String "`" post). cbv iota.
  replace (sameChar true "`" "`") with true by reflexivity. cbv iota.
  match goal with
  | |- context [take ?n _] =>
      replace n with (String.length (String c w))
        by (cbn [String.length]; lia)
  end.
  change (String c (w ++ String "`" post)) with (String c w ++ "`" ++ post).
  rewrite take_append.
  match goal with
  | |- k ?n _ _ = _ =>
      replace n with (pos + 5 + String.length (String c w) + 1)
        by (cbn [String.length]; lia)
  end.
  exact Hk.
Qed.

Lemma runBackquote_compiled :
  compile (source (re_i "run\s+`([^`]+)`")) = runBackquote.
Proof. vm_compute. reflexivity. Qed.

End Backquoted.

Section BackquotedSearch.
Import Regex RegexShapes PatternNeeds.

Lemma matchAt_runBackquote (pos : nat) (cmd post : string) :
  nonEmpty cmd = true ->
  includes "`" cmd = false ->
  matchAt true runBackquote pos ("run `" ++ cmd ++ "`" ++ post)
  = Some (mkMatch pos ("run `" ++ cmd ++ "`") [(1, cmd)] post).
Proof.
  intros Hne Hw. unfold matchAt.
  apply rmatch_runBackquote; [exact Hne | exact Hw|].
  f_equal. f_equal.
  replace (pos + 5 + String.length cmd + 1 - pos)
    with (String.length ("run `" ++ cmd ++ "`"))
    by (rewrite !length_append; cbn [String.length]; lia).
  rewrite <- (take_append ("run `" ++ cmd ++ "`") post) at 2.
  now rewrite !append_assoc.
Qed.

(** The search of a pattern that starts with [run] goes to the first [run]
    of the text, whatever its case. *)
Lemma search_first_run (r : regex) :
  startsLit "run" r = true ->
  forall s pos n,
    indexOf "run" (toLowerCase s) = Some n ->
    search true r pos s = search true r (pos + n) (drop n s).
Proof.
  intros Hl. induction s as [|c s IH]; intros pos n Hn.
  - cbn in Hn. discriminate.
  - cbn [toLowerCase] in Hn. rewrite indexOf_cons in Hn.
    destruct (startsWith "run" (String (lowerChar c) (toLowerCase s))) eqn:Hs.
    + injection Hn as <-. now rewrite Nat.add_0_r.
    + destruct (indexOf "run" (toLowerCase s)) as [i|] eqn:Hi; [|discriminate].
      injection Hn as <-. cbn [search drop].
      destruct (matchAt true r pos (String c s)) as [m|] eqn:Hm.
      * unfold matchAt in Hm.
        apply (rmatch_startsLit "run" r _ _ _ _ _ Hl) in Hm.
        cbn [toLowerCase] in Hm. congruence.
      * rewrite (IH (S pos) i eq_refl). now rewrite Nat.add_succ_comm.
Qed.

Lemma exec_runBackquote (pre cmd post : string) :
  indexOf "run" (toLowerCase (pre ++ "run `" ++ cmd ++ "`" ++ post))
  = Some (String.length pre) ->
  nonEmpty cmd = true ->
  includes "`" cmd = false ->
  exec (re_i "run\s+`([^`]+)`") (pre ++ "run `" ++ cmd ++ "`" ++ post)
  = Some (mkMatch (String.length pre) ("run `" ++ cmd ++ "`") [(1, cmd)] post).
Proof.
  intros Hi Hne Hw. unfold exec. rewrite runBackquote_compiled.
  change (ignoreCase (re_i "run\s+`([^`]+)`")) with true.
  rewrite (search_first_run runBackquote eq_refl _ 0 _ Hi), drop_append.
  apply search_here. now apply matchAt_runBackquote.
Qed.

End BackquotedSearch.

Section BackquotedCommand.
Context {rt : JsRuntime}.

Lemma extractCommand_first (p : Regex.RegExp) (ps : list Regex.RegExp)
  (text : string) (m : Regex.MatchResult) :
  Regex.exec p text = Some m ->
  includes "(add|status|diff|log" (Regex.toString p) = false ->
  nonEmpty (groupText 1 m) = true ->
  extractCommand (p :: ps) text = Some (groupText 1 m).
Proof.
  intros He Hp Hg. cbn [extractCommand]. now rewrite He, Hp, Hg.
Qed.

Lemma inferCommand_set (patterns : list Regex.RegExp) (text command : string) :
  extractCommand patterns text = Some command ->
  nonEmpty command = true ->
  inferCommand patterns text = Some command.
Proof.
  intros He Hc. unfold inferCommand. rewrite He.
  unfold gitIntent. cbn [isSet]. rewrite Hc. cbn [negb andb].
  now apply thinkingIntent_set.
Qed.

Lemma dispatch_bashCall (model command : string) :
  nonEmpty command = true ->
  dispatchStream model (bashCall command)
  = [mkChunk (JString model)
       (mkDelta (Some "assistant") (ContentValue (JString (runReport command)))
          None)
       None;
     mkChunk (JString model) (mkDelta None ContentAbsent None) (Some "stop")]
  /\ dispatchCompletion model (bashCall command)
     = mkCompletion model "assistant" (ContentValue (JString (runReport command)))
         None "stop".
Proof.
  intros Hc. unfold dispatchStream, dispatchCompletion, runReport.
  rewrite (bashCommand_bashCall command Hc).
  destruct (execSync (JString command)); split; reflexivity.
Qed.

End BackquotedCommand.

(** X16.  When the first [run] of a text, in any case, is the start of
    [run `cmd`], with a command between the backquotes that is not empty,
    and the text holds no [<function_calls>] marker, the command is
    recovered as it is written, with either table, and [getCompletion]
    runs it: the streamed turn is a chunk whose content is the report of
    the run, then a closing chunk, and the non-streaming completion has the
    report as its content. *)
Theorem backquoted_command_is_run :
  forall (rt : JsRuntime) (model pre cmd post : string),
    let text := pre ++ "run `" ++ cmd ++ "`" ++ post in
    indexOf "run" (toLowerCase text) = Some (String.length pre) ->
    nonEmpty cmd = true ->
    includes "`" cmd = false ->
    includes openMarker text = false ->
    recover commandPatterns text
    = Some (mkInvocation "Bash" [("command", JString cmd)])
    /\ recover commandPatterns_nonStreaming text
       = Some (mkInvocation "Bash" [("command", JString cmd)])
    /\ turnChunks model text
       = [mkChunk (JString model)
            (mkDelta (Some "assistant") (ContentValue (JString (runReport cmd)))
               None)
            None;
          mkChunk (JString model) (mkDelta None ContentAbsent None)
            (Some "stop")]
    /\ turnCompletion model text
       = mkCompletion model "assistant" (ContentValue (JString (runReport cmd)))
           None "stop".
Proof.
  intros rt model pre cmd post text Hi Hne Hw Ho.
  pose proof (exec_runBackquote pre cmd post Hi Hne Hw) as He. fold text in He.
  pose proof (exec_explicitFuncCallRegex_none text Ho) as Hx.
  assert (H1 : recover commandPatterns text = Some (bashCall cmd)).
  { apply recover_heuristic; [exact Hx | | exact Hne].
    apply inferCommand_set; [|exact Hne].
    exact (extractCommand_first _ (tl commandPatterns) text _ He eq_refl Hne). }
  assert (H2 : recover commandPatterns_nonStreaming text = Some (bashCall cmd)).
  { apply recover_heuristic; [exact Hx | | exact Hne].
    apply inferCommand_set; [|exact Hne].
    exact (extractCommand_first _ (tl commandPatterns_nonStreaming) text _ He
             eq_refl Hne). }
  destruct (dispatch_bashCall model cmd Hne) as [Hs Hc].
  split; [exact H1|]. split; [exact H2|].
  unfold turnChunks, turnCompletion. rewrite H1, H2. now split.
Qed.

Lemma backquoted_command_is_run_witness :
  @recover exampleRuntime commandPatterns "To clean up, run `rm -rf build` now."
  = Some (mkInvocation "Bash" [("command", JString "rm -rf build")]).
Proof.
  refine (proj1 (backquoted_command_is_run exampleRuntime "qwq" "To clean up, "
                   "rm -rf build" " now." _ _ _ _)); reflexivity.
Defined.

(** ** A request that fails *)

Section FailedRequest.
Context {rt : JsRuntime}.

Lemma errorDetail_message (errorData error : JsonValue) (m : string) :
  getProp errorData "error" = Some error ->
  getProp error "message" = Some (JString m) ->
  nonEmpty m = true ->
  errorDetail errorData = m.
Proof.
  intros He Hm Hne. unfold errorDetail. rewrite He.
  destruct error; try discriminate. rewrite Hm. cbn [truthy toDisplay].
  now rewrite Hne.
Qed.

Lemma errorDetail_text (text : string) :
  nonEmpty text = true -> errorDetail (textErrorData text) = text.
Proof.
  intros Hne.
  apply (errorDetail_message _ (JObject [("message", JString text)]));
    [reflexivity | reflexivity | exact Hne].
Qed.

End FailedRequest.

(** X17.  A response that is not [ok] is never returned as a stream or a
    completion: [getCompletion] throws.  On the Ollama path the message is
    [Ollama API error: ] followed by the body.  On the other path it is
    [API request failed: ] followed by the [error.message] of the body
    when the body is JSON that holds one, a string that is not empty, and
    by the body itself when the body is not JSON and not empty; a body
    that is the JSON [null] is reported by its text on the streaming path
    and makes the non-streaming path throw a [TypeError]. *)
Theorem failed_request_is_thrown :
  forall (rt : JsRuntime) (type : ModelType) (config : GlobalConfig)
         (model : string) (stream : bool) (response : Response),
    ok response = false ->
    (exists thrown,
        getCompletion type config model stream (Resolves response)
        = Throws thrown)
    /\ (isOllama type config model = true ->
        getCompletion type config model stream (Resolves response)
        = Throws (ErrorThrown ("Ollama API error: " ++ bodyText response)))
    /\ (isOllama type config model = false ->
        (forall errorData error m,
            JSON_parse (bodyText response) = Some errorData ->
            getProp errorData "error" = Some error ->
            getProp error "message" = Some (JString m) ->
            nonEmpty m = true ->
            getCompletion type config model stream (Resolves response)
            = Throws (ErrorThrown ("API request failed: " ++ m)))
        /\ (JSON_parse (bodyText response) = None ->
            nonEmpty (bodyText response) = true ->
            getCompletion type config model stream (Resolves response)
            = Throws (ErrorThrown ("API request failed: " ++ bodyText response)))
        /\ (JSON_parse (bodyText response) = Some JNull ->
            nonEmpty (bodyText response) = true ->
            getCompletion type config model true (Resolves response)
            = Throws (ErrorThrown ("API request failed: " ++ bodyText response))
            /\ getCompletion type config model false (Resolves response)
               = Throws TypeErrorThrown)).
Proof.
  intros rt type config model stream response Hok.
  unfold getCompletion, sendOllamaRequest. rewrite Hok.
  split; [|split].
  - destruct (isOllama type config model); [eexists; reflexivity|].
    destruct stream; eexists; reflexivity.
  - now intros ->.
  - intros Hi. rewrite Hi. split; [|split].
    + intros errorData error m Hp He Hm Hne.
      assert (Hnn : errorData <> JNull).
      { intros ->. discriminate. }
      unfold streamingFailure, nonStreamingFailure. rewrite Hp.
      rewrite <- (errorDetail_message errorData error m He Hm Hne).
      destruct stream; destruct errorData; congruence.
    + intros Hp Hne. unfold streamingFailure, nonStreamingFailure.
      rewrite Hp, (errorDetail_text _ Hne). now destruct stream.
    + intros Hp Hne. unfold streamingFailure, nonStreamingFailure.
      rewrite Hp, (errorDetail_text _ Hne). now split.
Qed.

Lemma failed_request_is_thrown_witness :
  @getCompletion exampleRuntime Small mixedConfig "gpt-4o-mini" false
    (Resolves (mkResponse false
                 (dq "{'error':{'message':'Incorrect API key','code':401}}") []))
  = Throws (ErrorThrown "API request failed: Incorrect API key").
Proof.
  refine (proj1 (proj2 (proj2
    (failed_request_is_thrown exampleRuntime Small mixedConfig "gpt-4o-mini"
       false (mkResponse false _ []) eq_refl)) eq_refl) _ _ _ _ _ _ _);
    [vm_compute; reflexivity | reflexivity | reflexivity | reflexivity].
Defined.

(** ** An answer of Ollama in plain text, from end to end *)

Section PlainAnswer.
Context {rt : JsRuntime}.

Lemma processOllamaStream_frames (frames : list (string * string))
  (final : string) (reads : list string) :
  Forall (fun f => carriesContent (fst f) (snd f)) frames ->
  closingLine final ->
  concatAll reads = ndjson (map fst frames ++ [final]) ->
  exists events,
    processOllamaStream reads = Completes events
    /\ accumulate events = concatAll (map snd frames).
Proof.
  intros Hframes Hfinal Htext.
  assert (Hlf : Forall (fun l => indexOfLF l = None) (map fst frames ++ [final])).
  { apply Forall_app. split.
    - apply Forall_map. eapply Forall_impl; [|exact Hframes].
      intros f Hf. apply Hf.
    - constructor; [apply Hfinal | constructor]. }
  assert (Hnb : Forall (fun l => blank l = false) (map fst frames ++ [final])).
  { apply Forall_app. split.
    - apply Forall_map. eapply Forall_impl; [|exact Hframes].
      intros f Hf. apply Hf.
    - constructor; [apply Hfinal | constructor]. }
  destruct (closingLine_gives_nothing _ Hfinal) as (_ & _ & Hf3).
  assert (Htext' : concatAll reads = ndjson (map fst frames ++ [final]) ++ "")
    by now rewrite append_nil_r.
  eexists. split.
  - apply (processOllamaStream_lines _ _ "" Htext' Hlf Hnb eq_refl).
  - apply (handleLines_gives ollamaClientLine accumulate accumulate_app);
      [|assumption].
    eapply Forall_impl; [|exact Hframes].
    intros f. apply carriesContent_ollamaClientLine.
Qed.

End PlainAnswer.

(** X18.  From the answer of [fetch] to the result of [getCompletion], on
    the Ollama path: when the response is [ok] and its body is lines that
    carry contents and then the closing line, cut into reads in any way,
    and the contents put end to end are a text without trigger words, the
    caller gets this text and nothing else: with [opts.stream] a stream of
    one chunk with the role, the text as content and the finish reason
    ['stop'], without it a completion with the text as content, no function
    call and the finish reason ['stop']. *)
Theorem plain_answer_from_end_to_end :
  forall (rt : JsRuntime) (type : ModelType) (config : GlobalConfig)
         (model : string) (frames : list (string * string)) (final : string)
         (response : Response),
    isOllama type config model = true ->
    ok response = true ->
    Forall (fun f => carriesContent (fst f) (snd f)) frames ->
    closingLine final ->
    concatAll (bodyReads response) = ndjson (map fst frames ++ [final]) ->
    plainText (concatAll (map snd frames)) ->
    let text := concatAll (map snd frames) in
    getCompletion type config model true (Resolves response)
    = Returns (StreamOf (Completes
        [Built (mkChunk (JString model)
                  (mkDelta (Some "assistant") (ContentValue (JString text)) None)
                  (Some "stop"))]))
    /\ getCompletion type config model false (Resolves response)
       = Returns (CompletionOf
           (mkCompletion model "assistant" (ContentValue (JString text)) None
              "stop")).
Proof.
  intros rt type config model frames final response Hi Hok Hframes Hfinal
    Htext Hplain text.
  destruct (processOllamaStream_frames frames final _ Hframes Hfinal Htext)
    as (events & He & Hacc).
  assert (Hr : forall patterns,
             forallb PatternNeeds.needsTableWord patterns = true ->
             recover patterns text = None).
  { intros patterns Hn. unfold recover.
    rewrite (exec_explicitFuncCallRegex_none text (proj2 (proj2 Hplain))).
    now rewrite (inferCommand_plain patterns text Hn Hplain). }
  unfold getCompletion, sendOllamaRequest, getCompletionStream,
    getCompletionNonStreaming, turnChunks, turnCompletion.
  rewrite Hi, Hok, He, Hacc. fold text.
  rewrite (Hr _ (proj1 tables_need_words)), (Hr _ (proj2 tables_need_words)).
  split; reflexivity.
Qed.

Lemma plain_answer_from_end_to_end_witness :
  let body := ndjson [contentLine "Paris is "; contentLine "the capital.";
                      doneLine] in
  @getCompletion exampleRuntime Large mixedConfig "llama3" false
    (Resolves (mkResponse true body [take 50 body; drop 50 body]))
  = Returns (CompletionOf
      (mkCompletion "llama3" "assistant"
         (ContentValue (JString "Paris is the capital.")) None "stop")).
Proof.
  cbv zeta.
  refine (proj2 (plain_answer_from_end_to_end exampleRuntime Large mixedConfig
                   "llama3"
                   [(contentLine "Paris is ", "Paris is ");
                    (contentLine "the capital.", "the capital.")]
                   doneLine (mkResponse true _ [take 50 _; drop 50 _])
                   eq_refl eq_refl _ _ _ _)).
  - repeat constructor; cbn [fst snd]; eexists; split; vm_compute; reflexivity.
  - repeat split; try (vm_compute; reflexivity).
    eexists. split; [vm_compute; reflexivity|].
    split; [vm_compute; reflexivity | left; vm_compute; reflexivity].
  - vm_compute. reflexivity.
  - split; [repeat constructor | split; reflexivity].
Defined.
